(** * kaceylon: the authentication and session core

    A shallow embedding of [controllers/authController.js],
    [models/userModel.js] and [models/refreshTokenModel.js]: access-token
    issuance, the refresh-token ledger, rotation and reuse detection, and
    the Express handlers built on them.

    Handlers are written once, as programs over the effects they perform
    (clock reads, writes to the response, round trips to the store).  The
    same program is then run to completion ([run]) for the sequential
    properties, or one store round trip at a time ([step]) when two
    requests are interleaved. *)

From Stdlib Require Import ZArith List String Ascii Bool Lia.
Import ListNotations.

Local Open Scope string_scope.
Local Open Scope list_scope.
Local Open Scope Z_scope.

Set Implicit Arguments.

(* ================================================================== *)
(** ** JavaScript built-ins used by the sources *)
(* ================================================================== *)

Module JS.

(** [!s] for a string: only the empty string is falsy. *)
Definition truthy (s : string) : bool := negb (String.eqb s "").

(** [!x] for a value that may be [undefined]. *)
Definition truthy_opt (o : option string) : bool :=
  match o with Some s => truthy s | None => false end.

Definition lower_ascii (c : ascii) : ascii :=
  let n := nat_of_ascii c in
  if (Nat.leb 65 n && Nat.leb n 90)%bool then ascii_of_nat (n + 32) else c.

(** [String.prototype.toLowerCase], on the ASCII letters. *)
Fixpoint toLowerCase (s : string) : string :=
  match s with
  | EmptyString => EmptyString
  | String c s' => String (lower_ascii c) (toLowerCase s')
  end.

(** [s.includes(c)] for a one-character needle. *)
Fixpoint includes (c : ascii) (s : string) : bool :=
  match s with
  | EmptyString => false
  | String c' s' => if Ascii.eqb c c' then true else includes c s'
  end.

Definition is_space (c : ascii) : bool :=
  let n := nat_of_ascii c in
  (Nat.eqb n 32 || (Nat.leb 9 n && Nat.leb n 13))%bool.

Fixpoint trimStart (s : string) : string :=
  match s with
  | String c s' => if is_space c then trimStart s' else s
  | EmptyString => EmptyString
  end.

Fixpoint trimEnd (s : string) : string :=
  match s with
  | EmptyString => EmptyString
  | String c s' =>
      match trimEnd s' with
      | EmptyString => if is_space c then EmptyString else String c EmptyString
      | rest => String c rest
      end
  end.

(** [String.prototype.trim]. *)
Definition trim (s : string) : string := trimEnd (trimStart s).

Definition digit (c : ascii) : option Z :=
  let n := nat_of_ascii c in
  if (Nat.leb 48 n && Nat.leb n 57)%bool then Some (Z.of_nat n - 48) else None.

(** The longest prefix of decimal digits, as a number; [None] when the
    string does not start with a digit. *)
Fixpoint digits (acc : option Z) (s : string) : option Z :=
  match s with
  | EmptyString => acc
  | String c s' =>
      match digit c with
      | Some d => digits (Some (10 * match acc with Some a => a | None => 0 end + d)) s'
      | None => acc
      end
  end.

(** [parseInt(s)] on decimal input: leading white space, an optional
    sign, then digits; [None] is [NaN]. *)
Definition parseInt (s : string) : option Z :=
  match trimStart s with
  | String "-" s' => option_map Z.opp (digits None s')
  | String "+" s' => digits None s'
  | s' => digits None s'
  end.

End JS.

(* ================================================================== *)
(** ** Data model *)
(* ================================================================== *)

Definition ObjectId := nat.

(** A [Date], in milliseconds since the epoch. *)
Definition Date := Z.

(** The claim set a token is signed over: [{ id, email, role }] for an
    access token, [{ id }] for a refresh token. *)
Record Claims := mkClaims {
  claim_id : ObjectId;
  claim_email : option string;
  claim_role : option string
}.

(** Token strings are kept symbolic.  A string is either the compact
    serialization of a claim set signed under [key], with its issued-at
    and expiry stamps in seconds, or any other text.  Signing is
    deterministic: the same claims, key and stamps give the same string. *)
Inductive Token :=
| Jwt (key : string) (claims : Claims) (iat exp : Z)
| Opaque (text : string).

Definition option_eqb {A} (eqb : A -> A -> bool) (x y : option A) : bool :=
  match x, y with
  | Some a, Some b => eqb a b
  | None, None => true
  | _, _ => false
  end.

Definition Claims_eqb (a b : Claims) : bool :=
  (Nat.eqb (claim_id a) (claim_id b)
   && option_eqb String.eqb (claim_email a) (claim_email b)
   && option_eqb String.eqb (claim_role a) (claim_role b))%bool.

Definition Token_eqb (a b : Token) : bool :=
  match a, b with
  | Jwt k c i e, Jwt k' c' i' e' =>
      (String.eqb k k' && Claims_eqb c c' && Z.eqb i i' && Z.eqb e e')%bool
  | Opaque s, Opaque s' => String.eqb s s'
  | _, _ => false
  end.

(** [!token]: a token string is falsy only when it is empty. *)
Definition Token_truthy (t : Token) : bool :=
  match t with
  | Opaque s => JS.truthy s
  | Jwt _ _ _ _ => true
  end.

(** A document of the [Admin] collection.  [password] is [None] when the
    path was not selected by the query that loaded the document. *)
Module Admin.
Record t := mk {
  _id : ObjectId;
  name : string;
  email : string;
  password : option string;
  role : string;
  isActive : bool;
  lastLogin : option Date;
  passwordResetToken : option string;
  passwordResetExpires : option Date;
  createdAt : Date;
  updatedAt : Date
}.

Definition with_password (p : option string) (a : t) : t :=
  mk (_id a) (name a) (email a) p (role a) (isActive a) (lastLogin a)
     (passwordResetToken a) (passwordResetExpires a) (createdAt a) (updatedAt a).

Definition with_lastLogin (d : option Date) (a : t) : t :=
  mk (_id a) (name a) (email a) (password a) (role a) (isActive a) d
     (passwordResetToken a) (passwordResetExpires a) (createdAt a) (updatedAt a).

Definition with_updatedAt (d : Date) (a : t) : t :=
  mk (_id a) (name a) (email a) (password a) (role a) (isActive a) (lastLogin a)
     (passwordResetToken a) (passwordResetExpires a) (createdAt a) d.
End Admin.

(** A document of the [RefreshToken] collection: one ledger row. *)
Module RefreshToken.
Record t := mk {
  token : Token;
  user : ObjectId;
  expiresAt : Date;
  isRevoked : bool;
  createdAt : Date;
  updatedAt : Date
}.

Definition with_isRevoked (b : bool) (d : t) : t :=
  mk (token d) (user d) (expiresAt d) b (createdAt d) (updatedAt d).

Definition with_updatedAt (u : Date) (d : t) : t :=
  mk (token d) (user d) (expiresAt d) (isRevoked d) (createdAt d) u.

(** A row as [findOne(...).populate('user')] returns it: the [user]
    reference replaced by the account it points to, or [null]. *)
Record populated := mkPopulated {
  doc : t;
  populatedUser : option Admin.t
}.
End RefreshToken.

(** What can be thrown or handed to [next].  [statusCode] is set on an
    [AppError]; [code] is the store's error code (11000 for a duplicate
    key). *)
Record Error := mkError {
  err_name : string;
  err_message : string;
  err_statusCode : option Z;
  err_code : option Z
}.

(** Modelled from the spec: [utils/AppError.js] is not among the sources.
    Every failure of the session protocol is surfaced with its status
    code and message; [new AppError(message, statusCode)] carries them. *)
Definition AppError (message : string) (statusCode : Z) : Error :=
  mkError "Error" message (Some statusCode) None.

Definition TypeError (message : string) : Error :=
  mkError "TypeError" message None None.
Definition ValidationError (message : string) : Error :=
  mkError "ValidationError" message None None.
Definition DuplicateKeyError : Error :=
  mkError "MongoServerError" "E11000 duplicate key error" None (Some 11000).
Definition MongoNetworkError : Error :=
  mkError "MongoNetworkError" "connection to the store failed" None None.
Definition DocumentNotFoundError : Error :=
  mkError "DocumentNotFoundError" "No document found for query" None None.
Definition JsonWebTokenError (message : string) : Error :=
  mkError "JsonWebTokenError" message None None.
Definition TokenExpiredError : Error :=
  mkError "TokenExpiredError" "jwt expired" None None.

Definition Result (A : Type) : Type := (Error + A)%type.

(* ================================================================== *)
(** ** Configuration and external primitives *)
(* ================================================================== *)

(** [process.env]: a variable is a string or [undefined]. *)
Record Env := mkEnv {
  JWT_SECRET : option string;
  JWT_EXPIRE : option string;
  JWT_REFRESH_SECRET : option string;
  JWT_REFRESH_EXPIRE : option string;
  NODE_ENV : option string;
  COOKIE_DOMAIN : option string
}.

(** Primitives of the libraries the sources call and that are kept
    abstract: the password hash and its check ([bcryptjs], salt left
    implicit), the e-mail pattern of the account schema, and the number of
    seconds [jsonwebtoken] reads from an [expiresIn] string ([None] when it
    rejects the string). *)
Record External := mkExternal {
  bcrypt_hash : string -> string;
  bcrypt_compare : string -> string -> bool;
  email_match : string -> bool;
  timespan : string -> option Z
}.

(** [jwt.sign(payload, secret, { expiresIn })] at clock [now]: the
    issued-at stamp is the clock in whole seconds. *)
Definition jwt_sign (ext : External) (payload : Claims) (secret expiresIn : option string)
    (now : Date) : Result Token :=
  match secret with
  | Some k =>
      if JS.truthy k then
        match expiresIn with
        | Some e =>
            match timespan ext e with
            | Some ttl => inr (Jwt k payload (now / 1000) (now / 1000 + ttl))
            | None => inl (mkError "Error" "expiresIn should be a number of seconds or string representing a timespan" None None)
            end
        | None => inl (mkError "Error" "expiresIn should be a number of seconds or string representing a timespan" None None)
        end
      else inl (mkError "Error" "secretOrPrivateKey must have a value" None None)
  | None => inl (mkError "Error" "secretOrPrivateKey must have a value" None None)
  end.

(** [jwt.verify(token, secret)] at clock [now]: the signature is checked
    first, then the expiry against the clock in whole seconds. *)
Definition jwt_verify (t : Token) (secret : option string) (now : Date) : Result Claims :=
  match t with
  | Opaque _ => inl (JsonWebTokenError "jwt malformed")
  | Jwt k c _ exp =>
      match secret with
      | Some s =>
          if JS.truthy s then
            if String.eqb k s then
              if exp <=? now / 1000 then inl TokenExpiredError else inr c
            else inl (JsonWebTokenError "invalid signature")
          else inl (JsonWebTokenError "secret or public key must be provided")
      | None => inl (JsonWebTokenError "secret or public key must be provided")
      end
  end.

(* ================================================================== *)
(** ** Requests, responses and the world *)
(* ================================================================== *)

Record CookieOptions := mkCookieOptions {
  httpOnly : bool;
  secure : bool;
  sameSite : string;
  maxAge : option Z;
  path : string;
  domain : option string
}.

Inductive CookieOp :=
| SetCookie (name : string) (value : Token) (opts : CookieOptions)
| ClearCookie (name : string) (opts : CookieOptions).

(** The JSON bodies the handlers send. *)
Record Body := mkBody {
  success : bool;
  message : string;
  data_admin : option Admin.t;
  data_accessToken : option Token
}.

(** The response object: status (200 until set), cookie operations in
    the order they were made, and the body once sent. *)
Module Res.
Record t := mk {
  statusCode : Z;
  cookies : list CookieOp;
  body : option Body
}.
Definition fresh : t := mk 200 [] None.
End Res.

(** The request object.  [authorization] is the header split on single
    spaces (so ["Bearer <token>"] is [[Opaque "Bearer"; token]]); [admin],
    [refreshToken] and [tokenDoc] are the properties the middlewares
    attach. *)
Module Req.
Record t := mk {
  authorization : option (list Token);
  cookies_refreshToken : option Token;
  cookies_accessToken : option Token;
  body_name : option string;
  body_email : option string;
  body_password : option string;
  body_role : option string;
  admin : option Admin.t;
  refreshToken : option Token;
  tokenDoc : option RefreshToken.populated
}.

Definition blank : t := mk None None None None None None None None None None.

Definition with_admin (a : Admin.t) (r : t) : t :=
  mk (authorization r) (cookies_refreshToken r) (cookies_accessToken r)
     (body_name r) (body_email r) (body_password r) (body_role r)
     (Some a) (refreshToken r) (tokenDoc r).

Definition with_refreshToken (k : Token) (r : t) : t :=
  mk (authorization r) (cookies_refreshToken r) (cookies_accessToken r)
     (body_name r) (body_email r) (body_password r) (body_role r)
     (admin r) (Some k) (tokenDoc r).

Definition with_tokenDoc (d : RefreshToken.populated) (r : t) : t :=
  mk (authorization r) (cookies_refreshToken r) (cookies_accessToken r)
     (body_name r) (body_email r) (body_password r) (body_role r)
     (admin r) (refreshToken r) (Some d).
End Req.

(** Everything the requests share: both collections, the clock, the
    console, the next fresh object id, and a script of store outages:
    each round trip to the store consumes the head of [faults] and fails
    when it is [true]; an empty script means the store answers.  The
    clock stands still while one handler runs; the statements below hold
    for every clock, and between the turns of two requests it is moved by
    [Tick]. *)
Record World := mkWorld {
  admins : list Admin.t;
  refreshTokens : list RefreshToken.t;
  clock : Date;
  faults : list bool;
  nextId : ObjectId;
  console : list string
}.

Definition with_admins (l : list Admin.t) (w : World) : World :=
  mkWorld l (refreshTokens w) (clock w) (faults w) (nextId w) (console w).
Definition with_refreshTokens (l : list RefreshToken.t) (w : World) : World :=
  mkWorld (admins w) l (clock w) (faults w) (nextId w) (console w).
Definition with_clock (c : Date) (w : World) : World :=
  mkWorld (admins w) (refreshTokens w) c (faults w) (nextId w) (console w).
Definition with_faults (f : list bool) (w : World) : World :=
  mkWorld (admins w) (refreshTokens w) (clock w) f (nextId w) (console w).
Definition with_nextId (n : ObjectId) (w : World) : World :=
  mkWorld (admins w) (refreshTokens w) (clock w) (faults w) n (console w).
Definition with_console (c : list string) (w : World) : World :=
  mkWorld (admins w) (refreshTokens w) (clock w) (faults w) (nextId w) c.

(* ================================================================== *)
(** ** The store: Mongoose queries over a collection *)
(* ================================================================== *)

Module Mongoose.
Section Collection.
Variable D : Type.

(** [Model.findOne(filter)]: the first document that matches. *)
Definition findOne (filter : D -> bool) (docs : list D) : option D :=
  List.find filter docs.

(** [Model.findOneAndUpdate(filter, update, { new: true })]: the first
    document that matches is updated in place and returned as
    updated; [None] (and no change) when none matches. *)
Fixpoint findOneAndUpdate (filter : D -> bool) (update : D -> D) (docs : list D)
  : option D * list D :=
  match docs with
  | [] => (None, [])
  | d :: rest =>
      if filter d then (Some (update d), update d :: rest)
      else let '(found, rest') := findOneAndUpdate filter update rest in
           (found, d :: rest')
  end.

(** [Model.updateMany(filter, update)]. *)
Definition updateMany (filter : D -> bool) (update : D -> D) (docs : list D) : list D :=
  List.map (fun d => if filter d then update d else d) docs.

(** [Model.deleteMany(filter)]. *)
Definition deleteMany (filter : D -> bool) (docs : list D) : list D :=
  List.filter (fun d => negb (filter d)) docs.

Definition count (filter : D -> bool) (docs : list D) : nat :=
  List.length (List.filter filter docs).
End Collection.
End Mongoose.

(** The paths of an account document that a handler may have assigned
    before [save()]; only those are written. *)
Inductive AdminPath := P_name | P_email | P_password | P_role | P_isActive | P_lastLogin.

Definition AdminPath_eqb (a b : AdminPath) : bool :=
  match a, b with
  | P_name, P_name | P_email, P_email | P_password, P_password
  | P_role, P_role | P_isActive, P_isActive | P_lastLogin, P_lastLogin => true
  | _, _ => false
  end.

Definition isModified (p : AdminPath) (modified : list AdminPath) : bool :=
  List.existsb (AdminPath_eqb p) modified.

(** [$set] of the modified paths of [doc] onto the stored document, with
    the [updatedAt] stamp the schema's [timestamps] option maintains. *)
Definition apply_modified (modified : list AdminPath) (doc : Admin.t) (now : Date)
    (stored : Admin.t) : Admin.t :=
  let pick (p : AdminPath) {A} (f : Admin.t -> A) : A :=
    if isModified p modified then f doc else f stored in
  Admin.mk (Admin._id stored)
    (pick P_name Admin.name) (pick P_email Admin.email) (pick P_password Admin.password)
    (pick P_role Admin.role) (pick P_isActive Admin.isActive) (pick P_lastLogin Admin.lastLogin)
    (Admin.passwordResetToken stored) (Admin.passwordResetExpires stored)
    (Admin.createdAt stored) now.

(* ================================================================== *)
(** ** Effects and programs *)
(* ================================================================== *)

(** What a handler can do.  The first group is synchronous; the second
    group are the awaited round trips to the store, each one atomic. *)
Inductive Eff : Type -> Type :=
| DateNow : Eff Date
| ConsoleError (msg : string) : Eff unit
| ResStatus (code : Z) : Eff unit
| ResCookie (name : string) (value : Token) (opts : CookieOptions) : Eff unit
| ResClearCookie (name : string) (opts : CookieOptions) : Eff unit
| ResJson (b : Body) : Eff unit
| AdminFindOne (filter : Admin.t -> bool) (selectPassword : bool) : Eff (option Admin.t)
| AdminInsert (doc : Admin.t) : Eff Admin.t
| AdminSave (doc : Admin.t) (modified : list AdminPath) : Eff Admin.t
| TokenInsert (doc : RefreshToken.t) : Eff RefreshToken.t
| TokenFindOnePopulate (filter : RefreshToken.t -> bool) : Eff (option RefreshToken.populated)
| TokenFindOneAndUpdate (filter : RefreshToken.t -> bool)
    (update : Date -> RefreshToken.t -> RefreshToken.t) : Eff (option RefreshToken.t)
| TokenUpdateMany (filter : RefreshToken.t -> bool)
    (update : Date -> RefreshToken.t -> RefreshToken.t) : Eff nat
| TokenDeleteMany (filter : RefreshToken.t -> bool) : Eff nat.

Definition is_round_trip {X} (e : Eff X) : bool :=
  match e with
  | DateNow | ConsoleError _ | ResStatus _ | ResCookie _ _ _
  | ResClearCookie _ _ | ResJson _ => false
  | _ => true
  end.

(** A round trip fails when the outage script says so. *)
Definition round_trip {X} (w : World) (answer : World -> Result X * World)
    : Result X * World :=
  match faults w with
  | true :: script => (inl MongoNetworkError, with_faults script w)
  | false :: script => answer (with_faults script w)
  | [] => answer w
  end.

(** The default projection of an account query leaves [password] out
    ([select: false] on the path); [.select('+password')] keeps it. *)
Definition project (selectPassword : bool) (a : Admin.t) : Admin.t :=
  if selectPassword then a else Admin.with_password None a.

Definition exec {X} (e : Eff X) (w : World) (r : Res.t) : Result X * World * Res.t :=
  match e in Eff X return Result X * World * Res.t with
  | DateNow => (inr (clock w), w, r)
  | ConsoleError msg => (inr tt, with_console (console w ++ [msg]) w, r)
  | ResStatus code => (inr tt, w, Res.mk code (Res.cookies r) (Res.body r))
  | ResCookie n v o =>
      (inr tt, w, Res.mk (Res.statusCode r) (Res.cookies r ++ [SetCookie n v o]) (Res.body r))
  | ResClearCookie n o =>
      (inr tt, w, Res.mk (Res.statusCode r) (Res.cookies r ++ [ClearCookie n o]) (Res.body r))
  | ResJson b => (inr tt, w, Res.mk (Res.statusCode r) (Res.cookies r) (Some b))
  | AdminFindOne filter sel =>
      (round_trip w (fun w =>
         (inr (option_map (project sel) (Mongoose.findOne filter (admins w))), w)), r)
  | AdminInsert doc =>
      (round_trip w (fun w =>
         if List.existsb (fun a => String.eqb (Admin.email a) (Admin.email doc)) (admins w)
         then (inl DuplicateKeyError, w)
         else
           let stored :=
             Admin.mk (nextId w) (Admin.name doc) (Admin.email doc) (Admin.password doc)
               (Admin.role doc) (Admin.isActive doc) (Admin.lastLogin doc)
               (Admin.passwordResetToken doc) (Admin.passwordResetExpires doc)
               (clock w) (clock w) in
           (inr stored, with_nextId (S (nextId w)) (with_admins (admins w ++ [stored]) w))), r)
  | AdminSave doc modified =>
      (round_trip w (fun w =>
         let same a := Nat.eqb (Admin._id a) (Admin._id doc) in
         match Mongoose.findOneAndUpdate same (apply_modified modified doc (clock w)) (admins w) with
         | (Some _, admins') => (inr (Admin.with_updatedAt (clock w) doc), with_admins admins' w)
         | (None, _) => (inl DocumentNotFoundError, w)
         end), r)
  | TokenInsert doc =>
      (round_trip w (fun w =>
         if List.existsb (fun d => Token_eqb (RefreshToken.token d) (RefreshToken.token doc))
              (refreshTokens w)
         then (inl DuplicateKeyError, w)
         else (inr doc, with_refreshTokens (refreshTokens w ++ [doc]) w)), r)
  | TokenFindOnePopulate filter =>
      (round_trip w (fun w =>
         (inr (option_map
                 (fun d => RefreshToken.mkPopulated d
                    (option_map (project false)
                       (Mongoose.findOne (fun a => Nat.eqb (Admin._id a) (RefreshToken.user d))
                          (admins w))))
                 (Mongoose.findOne filter (refreshTokens w))), w)), r)
  | TokenFindOneAndUpdate filter update =>
      (round_trip w (fun w =>
         let '(found, rows) :=
           Mongoose.findOneAndUpdate filter (update (clock w)) (refreshTokens w) in
         (inr found, with_refreshTokens rows w)), r)
  | TokenUpdateMany filter update =>
      (round_trip w (fun w =>
         (inr (Mongoose.count filter (refreshTokens w)),
          with_refreshTokens (Mongoose.updateMany filter (update (clock w)) (refreshTokens w)) w)), r)
  | TokenDeleteMany filter =>
      (round_trip w (fun w =>
         (inr (Mongoose.count filter (refreshTokens w)),
          with_refreshTokens (Mongoose.deleteMany filter (refreshTokens w)) w)), r)
  end.

(** A program: a result, a thrown error, or an effect and what to do with
    its outcome (a rejected promise hands the error to the continuation). *)
Inductive Prog (A : Type) : Type :=
| Ret (a : A)
| Throw (e : Error)
| Do (X : Type) (eff : Eff X) (k : Result X -> Prog A).

Arguments Ret {A} a.
Arguments Throw {A} e.
Arguments Do {A X} eff k.

Fixpoint bind {A B} (p : Prog A) (f : A -> Prog B) : Prog B :=
  match p with
  | Ret a => f a
  | Throw e => Throw e
  | Do eff k => Do eff (fun x => bind (k x) f)
  end.

(** [try { p } catch (error) { handler error }]. *)
Fixpoint try_catch {A} (p : Prog A) (handler : Error -> Prog A) : Prog A :=
  match p with
  | Ret a => Ret a
  | Throw e => handler e
  | Do eff k => Do eff (fun x => try_catch (k x) handler)
  end.

(** Perform an effect; [await] of a rejected promise throws. *)
Definition perform {X} (eff : Eff X) : Prog X :=
  Do eff (fun x => match x with inl e => Throw e | inr v => Ret v end).

(** A synchronous call that may throw. *)
Definition lift {A} (x : Result A) : Prog A :=
  match x with inl e => Throw e | inr v => Ret v end.

Declare Scope prog_scope.
Delimit Scope prog_scope with prog.
Notation "x <- c ;; k" := (bind c (fun x => k))
  (at level 61, c at next level, right associativity) : prog_scope.
Notation "c ;; k" := (bind c (fun _ => k))
  (at level 61, right associativity) : prog_scope.
Local Open Scope prog_scope.

(** Run a program to completion, with nothing else touching the world. *)
Fixpoint run {A} (p : Prog A) (w : World) (r : Res.t) : Result A * World * Res.t :=
  match p with
  | Ret a => (inr a, w, r)
  | Throw e => (inl e, w, r)
  | Do eff k => let '(x, w', r') := exec eff w r in run (k x) w' r'
  end.

(** Run the synchronous part of a program, up to its next round trip. *)
Fixpoint settle {A} (p : Prog A) (w : World) (r : Res.t) : Prog A * World * Res.t :=
  match p with
  | Do eff k =>
      if is_round_trip eff then (p, w, r)
      else let '(x, w', r') := exec eff w r in settle (k x) w' r'
  | _ => (p, w, r)
  end.

(** One turn of a request: its pending round trip, then the synchronous
    code that follows, up to the next [await] of the store. *)
Definition step {A} (p : Prog A) (w : World) (r : Res.t) : Prog A * World * Res.t :=
  match p with
  | Do eff k => let '(x, w', r') := exec eff w r in settle (k x) w' r'
  | _ => (p, w, r)
  end.

Definition finished {A} (p : Prog A) : bool :=
  match p with Do _ _ => false | _ => true end.

(** How a handler ends: [next()], [next(err)], or the response sent. *)
Inductive End :=
| Next (req : Req.t)
| NextError (e : Error)
| Sent.

Definition Handler := Req.t -> Prog End.

(* ================================================================== *)
(** ** The models and the controller *)
(* ================================================================== *)

Section Auth.
Variable ext : External.
Variable env : Env.

(* ---------------------------------------------------------------- *)
(** *** models/userModel.js *)

(** The validators of [adminSchema], on the values after the [trim] and
    [lowercase] setters.  Each path reports the first of its validators
    that fails -- [required] first, then the others in the order the
    schema lists them; a value that is [undefined] meets [required]
    only -- as the path and the validator's message.  The paths come in
    the order of the schema; lengths count the characters of an ASCII
    text. *)
Definition validate_admin (name email password : option string) (role : string)
    : list (string * string) :=
  (match name with
   | Some n =>
       if negb (JS.truthy n) then [("name", "Please provide a name")]
       else if Nat.ltb 50 (String.length n)
       then [("name", "Name cannot be more than 50 characters")]
       else if Nat.ltb (String.length n) 2
       then [("name", "Name must be at least 2 characters")]
       else []
   | None => [("name", "Please provide a name")]
   end)
  ++ (match email with
      | Some e =>
          if negb (JS.truthy e) then [("email", "Please provide an email")]
          else if email_match ext e then []
          else [("email", "Please provide a valid email")]
      | None => [("email", "Please provide an email")]
      end)
  ++ (match password with
      | Some p =>
          if negb (JS.truthy p) then [("password", "Please provide a password")]
          else if Nat.ltb (String.length p) 6
          then [("password", "Password must be at least 6 characters")]
          else []
      | None => [("password", "Please provide a password")]
      end)
  ++ (if (String.eqb role "admin" || String.eqb role "super-admin")%bool then []
      else [("role", "Role must be either admin or super-admin")]).

(** The message of the store's [ValidationError] for the model [Admin]:
    one entry for each path that failed. *)
Definition validation_failed (failed : list (string * string)) : string :=
  ("Admin validation failed: "
   ++ String.concat ", " (List.map (fun e => fst e ++ ": " ++ snd e) failed))%string.

(** [adminSchema.pre('save')]: hash the password when it was assigned. *)
Definition pre_save (modified : list AdminPath) (this : Admin.t) : Admin.t :=
  if negb (isModified P_password modified) then this
  else Admin.with_password (option_map (bcrypt_hash ext) (Admin.password this)) this.

(** [Admin.create({ name, email, password, role })]: setters, defaults,
    validation, the save hook, then the insert (the [unique] index on
    [email] rejects a duplicate). *)
Definition Admin_create (name email password : option string) (role : string)
    : Prog Admin.t :=
  let name := option_map JS.trim name in
  let email := option_map JS.toLowerCase email in
  match validate_admin name email password role, name, email with
  | [], Some n, Some e =>
      let doc := Admin.mk 0%nat n e password role true None None None 0 0 in
      perform (AdminInsert (pre_save [P_password] doc))
  | failed, _, _ =>
      Throw (ValidationError (validation_failed failed))
  end.

(** [Admin.findOne({ email })], with or without [.select('+password')];
    the query value goes through the path's [lowercase] setter. *)
Definition Admin_findOne_email (email : option string) (selectPassword : bool)
    : Prog (option Admin.t) :=
  perform (AdminFindOne
             (fun a => match email with
                       | Some e => String.eqb (Admin.email a) (JS.toLowerCase e)
                       | None => false
                       end)
             selectPassword).

(** [Admin.findById(id).select('-password')]. *)
Definition Admin_findById (id : ObjectId) : Prog (option Admin.t) :=
  perform (AdminFindOne (fun a => Nat.eqb (Admin._id a) id) false).

(** [admin.save()] after the paths in [modified] were assigned. *)
Definition Admin_save (this : Admin.t) (modified : list AdminPath) : Prog Admin.t :=
  perform (AdminSave (pre_save modified this) modified).

Definition comparePassword (this : Admin.t) (candidatePassword : string) : Prog bool :=
  match Admin.password this with
  | Some hash => Ret (bcrypt_compare ext candidatePassword hash)
  | None => Throw (mkError "Error" "Illegal arguments: string, undefined" None None)
  end.

Definition generateAccessToken (this : Admin.t) : Prog Token :=
  now <- perform DateNow ;;
  lift (jwt_sign ext
          (mkClaims (Admin._id this) (Some (Admin.email this)) (Some (Admin.role this)))
          (JWT_SECRET env) (JWT_EXPIRE env) now).

(* ---------------------------------------------------------------- *)
(** *** models/refreshTokenModel.js *)

Definition isExpired (this : RefreshToken.t) : Prog bool :=
  now <- perform DateNow ;;
  Ret (RefreshToken.expiresAt this <=? now).

Definition set_revoked (now : Date) (d : RefreshToken.t) : RefreshToken.t :=
  RefreshToken.with_updatedAt now (RefreshToken.with_isRevoked true d).

(** [RefreshToken.create({ token, user, expiresAt })]: the required
    paths are validated ([expiresAt] is [None] for an invalid date),
    [isRevoked] defaults to [false], and the [unique] index on [token]
    rejects a value already in the ledger. *)
Definition RefreshToken_create (token : Token) (user : ObjectId) (expiresAt : option Date)
    : Prog RefreshToken.t :=
  now <- perform DateNow ;;
  match expiresAt with
  | Some at_ =>
      if Token_truthy token
      then perform (TokenInsert (RefreshToken.mk token user at_ false now now))
      else Throw (ValidationError "Path `token` is required.")
  | None => Throw (ValidationError "Path `expiresAt` is required.")
  end.

(** [expiresIn] is a number of seconds, or [None] for [NaN]. *)
Definition createToken (userId : ObjectId) (token : Token) (expiresIn : option Z)
    : Prog RefreshToken.t :=
  now <- perform DateNow ;;
  let expiresAt := option_map (fun s => now + s * 1000) expiresIn in
  RefreshToken_create token userId expiresAt.

Definition findValidToken (token : Token) : Prog (option RefreshToken.populated) :=
  now <- perform DateNow ;;
  perform (TokenFindOnePopulate
             (fun d => (Token_eqb (RefreshToken.token d) token
                        && negb (RefreshToken.isRevoked d)
                        && (now <? RefreshToken.expiresAt d))%bool)).

Definition revokeAllForUser (userId : ObjectId) : Prog nat :=
  perform (TokenUpdateMany
             (fun d => (Nat.eqb (RefreshToken.user d) userId
                        && negb (RefreshToken.isRevoked d))%bool)
             set_revoked).

Definition revokeToken (token : Token) : Prog (option RefreshToken.t) :=
  perform (TokenFindOneAndUpdate
             (fun d => Token_eqb (RefreshToken.token d) token)
             set_revoked).

Definition cleanupExpired : Prog nat :=
  now <- perform DateNow ;;
  perform (TokenDeleteMany (fun d => RefreshToken.expiresAt d <? now)).

(** The seconds [generateRefreshToken] reads from [JWT_REFRESH_EXPIRE]. *)
Definition expiresInSeconds (expiresIn : string) : option Z :=
  if JS.includes "d" expiresIn
  then option_map (fun n => n * 24 * 60 * 60) (JS.parseInt expiresIn)
  else if JS.includes "h" expiresIn
  then option_map (fun n => n * 60 * 60) (JS.parseInt expiresIn)
  else if JS.includes "m" expiresIn
  then option_map (fun n => n * 60) (JS.parseInt expiresIn)
  else JS.parseInt expiresIn.

Definition generateRefreshToken (this : Admin.t) : Prog Token :=
  now <- perform DateNow ;;
  refreshToken <- lift (jwt_sign ext (mkClaims (Admin._id this) None None)
                          (JWT_REFRESH_SECRET env) (JWT_REFRESH_EXPIRE env) now) ;;
  expiresIn <- match JWT_REFRESH_EXPIRE env with
               | Some s => Ret s
               | None => Throw (TypeError "Cannot read properties of undefined (reading 'includes')")
               end ;;
  createToken (Admin._id this) refreshToken (expiresInSeconds expiresIn) ;;
  Ret refreshToken.

(* ---------------------------------------------------------------- *)
(** *** controllers/authController.js *)

(** Modelled from the spec: [utils/asyncHandler.js] is not among the
    sources.  No failure is swallowed: whatever the wrapped handler
    throws, or whichever promise it awaits rejects, reaches the boundary
    layer through [next(err)]. *)
Definition asyncHandler (fn : Handler) : Handler :=
  fun req => try_catch (fn req) (fun err => Ret (NextError err)).

Definition falsy (token : option Token) : bool :=
  match token with Some t => negb (Token_truthy t) | None => true end.

(** The token of an [Authorization] header whose lower-cased text starts
    with ["bearer "]: the second of its space-separated parts. *)
Definition bearer (authHeader : option (list Token)) : option Token :=
  match authHeader with
  | Some (Opaque scheme :: t :: _) =>
      if String.eqb (JS.toLowerCase scheme) "bearer" then Some t else None
  | _ => None
  end.

Definition protect : Handler := asyncHandler (fun req =>
  let token := bearer (Req.authorization req) in
  let token :=
    if (falsy token && negb (falsy (Req.cookies_accessToken req)))%bool
    then Req.cookies_accessToken req else token in
  match token with
  | Some token =>
      if negb (Token_truthy token)
      then Ret (NextError (AppError "Not authorized to access this route" 401))
      else
        try_catch
          (now <- perform DateNow ;;
           decoded <- lift (jwt_verify token (JWT_SECRET env) now) ;;
           admin <- Admin_findById (claim_id decoded) ;;
           match admin with
           | None => Ret (NextError (AppError "Token is not valid" 401))
           | Some admin =>
               if negb (Admin.isActive admin)
               then Ret (NextError (AppError "Account is deactivated" 401))
               else Ret (Next (Req.with_admin admin req))
           end)
          (fun error =>
             if String.eqb (err_name error) "TokenExpiredError"
             then Ret (NextError (AppError "Token expired" 401))
             else Ret (NextError (AppError "Token is not valid" 401)))
  | None => Ret (NextError (AppError "Not authorized to access this route" 401))
  end).

Definition verifyRefreshToken : Handler := asyncHandler (fun req =>
  match Req.cookies_refreshToken req with
  | Some refreshToken =>
      if negb (Token_truthy refreshToken)
      then Ret (NextError (AppError "Refresh token is required" 400))
      else
        try_catch
          (tokenDoc <- findValidToken refreshToken ;;
           match tokenDoc with
           | None => Ret (NextError (AppError "Invalid or expired refresh token" 401))
           | Some tokenDoc =>
               match RefreshToken.populatedUser tokenDoc with
               | None => Ret (NextError (AppError "Invalid refresh token" 401))
               | Some admin =>
                   Ret (Next (Req.with_tokenDoc tokenDoc
                                (Req.with_refreshToken refreshToken
                                   (Req.with_admin admin req))))
               end
           end)
          (fun _ => Ret (NextError (AppError "Invalid refresh token" 401)))
  | None => Ret (NextError (AppError "Refresh token is required" 400))
  end).

Definition authorize (roles : list string) : Handler := fun req =>
  match Req.admin req with
  | None => Ret (NextError (AppError "Not authorized to access this route" 401))
  | Some admin =>
      if negb (List.existsb (String.eqb (Admin.role admin)) roles)
      then Ret (NextError
                  (AppError ("Role " ++ Admin.role admin
                             ++ " is not authorized to access this route") 403))
      else Ret (Next req)
  end.

Definition isProd : bool := option_eqb String.eqb (NODE_ENV env) (Some "production").

Definition cookieDomain : option string :=
  if JS.truthy_opt (COOKIE_DOMAIN env) then COOKIE_DOMAIN env else None.

Definition setRefreshTokenCookie (refreshToken : Token) : Prog unit :=
  let cookieOptions :=
    mkCookieOptions true isProd (if isProd then "none" else "lax")
      (Some (7 * 24 * 60 * 60 * 1000)) "/" cookieDomain in
  perform (ResCookie "refreshToken" refreshToken cookieOptions).

Definition clearRefreshTokenCookie : Prog unit :=
  let cookieOptions :=
    mkCookieOptions true isProd (if isProd then "none" else "lax") None "/" cookieDomain in
  perform (ResClearCookie "refreshToken" cookieOptions).

Definition register : Handler := asyncHandler (fun req =>
  let name := Req.body_name req in
  let email := Req.body_email req in
  let password := Req.body_password req in
  let role := match Req.body_role req with Some r => r | None => "admin" end in
  existingAdmin <- Admin_findOne_email email false ;;
  match existingAdmin with
  | Some _ => Ret (NextError (AppError "Admin with this email already exists" 400))
  | None =>
      admin <- Admin_create name email password role ;;
      accessToken <- generateAccessToken admin ;;
      refreshToken <- generateRefreshToken admin ;;
      setRefreshTokenCookie refreshToken ;;
      perform (ResStatus 201) ;;
      perform (ResJson (mkBody true "Admin registered successfully"
                          (Some admin) (Some accessToken))) ;;
      Ret Sent
  end).

Definition login : Handler := asyncHandler (fun req =>
  match Req.body_email req, Req.body_password req with
  | Some email, Some password =>
      if negb (JS.truthy email && JS.truthy password)%bool
      then Ret (NextError (AppError "Email and password are required" 400))
      else
        admin <- Admin_findOne_email (Some email) true ;;
        match admin with
        | None => Ret (NextError (AppError "Invalid credentials" 401))
        | Some admin =>
            isPasswordCorrect <- comparePassword admin password ;;
            if negb isPasswordCorrect
            then Ret (NextError (AppError "Invalid credentials" 401))
            else if negb (Admin.isActive admin)
            then Ret (NextError (AppError "Account is deactivated" 401))
            else
              now <- perform DateNow ;;
              admin <- Admin_save (Admin.with_lastLogin (Some now) admin) [P_lastLogin] ;;
              accessToken <- generateAccessToken admin ;;
              refreshToken <- generateRefreshToken admin ;;
              setRefreshTokenCookie refreshToken ;;
              let adminWithoutPassword := Admin.with_password None admin in
              perform (ResJson (mkBody true "Login successful"
                                  (Some adminWithoutPassword) (Some accessToken))) ;;
              Ret Sent
        end
  | _, _ => Ret (NextError (AppError "Email and password are required" 400))
  end).

Definition reuse_detected : Error :=
  AppError "Refresh token reuse detected. All sessions revoked. Please log in again." 401.

(** [admin._id], where [admin] may be [undefined]. *)
Definition id_of (admin : option Admin.t) : Prog ObjectId :=
  match admin with
  | Some a => Ret (Admin._id a)
  | None => Throw (TypeError "Cannot read properties of undefined (reading '_id')")
  end.

(** [try { await RefreshToken.revokeAllForUser(admin._id) }
     catch (err) { console.error(label, err.message) }]. *)
Definition revoke_all_logged (admin : option Admin.t) (label : string) : Prog unit :=
  try_catch (id <- id_of admin ;; revokeAllForUser id ;; Ret tt)
            (fun err => perform (ConsoleError (label ++ " " ++ err_message err))).

Definition refreshToken : Handler := asyncHandler (fun req =>
  let admin := Req.admin req in
  let oldRefreshToken := Req.refreshToken req in
  let tokenDoc := Req.tokenDoc req in
  if match tokenDoc with
     | Some d => RefreshToken.isRevoked (RefreshToken.doc d)
     | None => false
     end
  then
    revoke_all_logged admin "Error revoking all tokens after reuse detection:" ;;
    Ret (NextError reuse_detected)
  else
    returned <-
      try_catch
        (match tokenDoc with
         | Some d =>
             if Token_truthy (RefreshToken.token (RefreshToken.doc d))
             then
               consumed <- perform
                 (TokenFindOneAndUpdate
                    (fun row =>
                       (Token_eqb (RefreshToken.token row)
                          (RefreshToken.token (RefreshToken.doc d))
                        && negb (RefreshToken.isRevoked row))%bool)
                    set_revoked) ;;
               match consumed with
               | None =>
                   revoke_all_logged admin
                     "Error revoking all tokens after atomic consume failure:" ;;
                   Ret (Some (NextError reuse_detected))
               | Some _ => Ret None
               end
             else
               match oldRefreshToken with
               | Some old =>
                   if Token_truthy old then (revokeToken old ;; Ret None) else Ret None
               | None => Ret None
               end
         | None =>
             match oldRefreshToken with
             | Some old =>
                 if Token_truthy old then (revokeToken old ;; Ret None) else Ret None
             | None => Ret None
             end
         end)
        (fun err =>
           perform (ConsoleError ("Error consuming old refresh token during rotation: "
                                  ++ err_message err)) ;;
           Ret None) ;;
    match returned with
    | Some ended => Ret ended
    | None =>
        match admin with
        | Some admin =>
            newRefreshToken <- generateRefreshToken admin ;;
            setRefreshTokenCookie newRefreshToken ;;
            accessToken <- generateAccessToken admin ;;
            perform (ResJson (mkBody true "Token refreshed successfully"
                                None (Some accessToken))) ;;
            Ret Sent
        | None =>
            Throw (TypeError "Cannot read properties of undefined (reading 'generateRefreshToken')")
        end
    end).

Definition logout : Handler := asyncHandler (fun req =>
  match Req.cookies_refreshToken req with
  | Some refreshToken =>
      if Token_truthy refreshToken then (revokeToken refreshToken ;; Ret tt) else Ret tt
  | None => Ret tt
  end ;;
  clearRefreshTokenCookie ;;
  perform (ResJson (mkBody true "Logged out successfully" None None)) ;;
  Ret Sent).

(* ---------------------------------------------------------------- *)
(** *** routes/authRouter.js *)

(** [router.post(path, first, second)]: the second handler runs when
    the first calls [next()]. *)
Definition chain (first second : Handler) : Handler := fun req =>
  ended <- first req ;;
  match ended with
  | Next req' => second req'
  | _ => Ret ended
  end.

Definition route_register : Handler := register.
Definition route_login : Handler := login.
Definition route_refresh : Handler := chain verifyRefreshToken refreshToken.
Definition route_logout : Handler := chain protect logout.

End Auth.

(* ================================================================== *)
(** ** Two requests in flight *)
(* ================================================================== *)

(** A request being served: what is left of its handler chain, and its
    own response object. *)
Record Thread := mkThread {
  prog : Prog End;
  res : Res.t
}.

(** What happens next on the event loop: the store answers the pending
    round trip of the first or of the second request, or time passes. *)
Inductive Turn :=
| First
| Second
| Tick (ms : Z).

(** A request arrives: its handler runs up to its first round trip. *)
Definition arrive (p : Prog End) (w : World) : Thread * World :=
  let '(p', w', r') := settle p w Res.fresh in (mkThread p' r', w').

Definition turn (t : Thread) (w : World) : Thread * World :=
  let '(p', w', r') := step (prog t) w (res t) in (mkThread p' r', w').

(** Two requests served on one event loop, turn by turn.  A turn given
    to a request that has ended changes nothing. *)
Fixpoint interleave (schedule : list Turn) (a b : Thread) (w : World)
    : Thread * Thread * World :=
  match schedule with
  | [] => (a, b, w)
  | First :: rest => let '(a', w') := turn a w in interleave rest a' b w'
  | Second :: rest => let '(b', w') := turn b w in interleave rest a b' w'
  | Tick ms :: rest => interleave rest a b (with_clock (clock w + ms) w)
  end.

(** Both requests arrive (first [a], then [b]) before any round trip is
    answered, then the schedule is played. *)
Definition concurrently (schedule : list Turn) (a b : Prog End) (w : World)
    : Thread * Thread * World :=
  let '(ta, w1) := arrive a w in
  let '(tb, w2) := arrive b w1 in
  interleave schedule ta tb w2.

(** The outcome of a request that has run to its end. *)
Definition outcome (t : Thread) : option (Result End) :=
  match prog t with
  | Ret e => Some (inr e)
  | Throw e => Some (inl e)
  | Do _ _ => None
  end.

(* ================================================================== *)
(** ** Ledger vocabulary used by the statements *)
(* ================================================================== *)

(** A row is ACTIVE at [now]: unrevoked and unexpired. *)
Definition active (now : Date) (d : RefreshToken.t) : bool :=
  (negb (RefreshToken.isRevoked d) && (now <? RefreshToken.expiresAt d))%bool.

(** [d'] is [d] up to its revoked flag and its update stamp. *)
Definition same_token_row (d d' : RefreshToken.t) : Prop :=
  RefreshToken.token d' = RefreshToken.token d
  /\ RefreshToken.user d' = RefreshToken.user d
  /\ RefreshToken.expiresAt d' = RefreshToken.expiresAt d
  /\ RefreshToken.createdAt d' = RefreshToken.createdAt d.

(** The rows of [l'] are those of [l], in order; a row whose token value
    is not [tok] is the same in both, with all its fields. *)
Definition same_outside (tok : Token) (l l' : list RefreshToken.t) : Prop :=
  Forall2 (fun d d' => same_token_row d d'
                       /\ (RefreshToken.token d <> tok -> d' = d)) l l'.

(** The [unique] index on [token]. *)
Definition unique_tokens (l : list RefreshToken.t) : Prop :=
  NoDup (List.map RefreshToken.token l).

(** The row [generateRefreshToken] writes for a token signed at [now]
    with [secs] seconds to live. *)
Definition minted_row (tok : Token) (user : ObjectId) (now : Date) (secs : Z)
    : RefreshToken.t :=
  RefreshToken.mk tok user (now + secs * 1000) false now now.

(** The account the store holds for an e-mail address, as [login] and
    [register] look it up. *)
Definition account_for (email : string) (w : World) : option Admin.t :=
  Mongoose.findOne (fun a => String.eqb (Admin.email a) (JS.toLowerCase email)) (admins w).

(** The account with a given id. *)
Definition account_by_id (id : ObjectId) (w : World) : option Admin.t :=
  Mongoose.findOne (fun a => Nat.eqb (Admin._id a) id) (admins w).

(** The claim set of an account's access token. *)
Definition access_claims (a : Admin.t) : Claims :=
  mkClaims (Admin._id a) (Some (Admin.email a)) (Some (Admin.role a)).

(** The ACTIVE rows of an account, at the world's clock. *)
Definition active_rows (id : ObjectId) (w : World) : list RefreshToken.t :=
  List.filter (fun d => (Nat.eqb (RefreshToken.user d) id && active (clock w) d)%bool)
              (refreshTokens w).

(** The store answers the next round trip. *)
Definition answers (w : World) : bool :=
  match faults w with
  | true :: _ => false
  | _ => true
  end.

(* ================================================================== *)
(** ** The phases of a refresh request in flight *)
(* ================================================================== *)

(** A refresh request in flight waits for one of four answers of the
    store: its lookup, its conditional update, the insert after a won
    update, or the mass revocation after a lost one.  Each phase is
    described by what the pending turn does in any world where the store
    answers, whatever else has happened to the ledger meanwhile. *)

Section Phases.
Variable tok : Token.

(** The filter of the conditional update: the presented value, on a row
    that is still unrevoked. *)
Definition unrevoked (row : RefreshToken.t) : bool :=
  (Token_eqb (RefreshToken.token row) tok && negb (RefreshToken.isRevoked row))%bool.

(** Waiting for the insert of [row0]: the turn ends the request, and
    adds [row0] unless its token value is already in the ledger. *)
Definition Won (p : Prog End) : Prop :=
  finished p = false /\
  exists row0, forall w r, faults w = [] ->
    exists out r',
      step p w r
      = (Ret out,
         if List.existsb (fun d => Token_eqb (RefreshToken.token d) (RefreshToken.token row0))
              (refreshTokens w)
         then w else with_refreshTokens (refreshTokens w ++ [row0]) w,
         r').

(** Waiting for the mass revocation: the turn revokes the unrevoked rows
    of the account and ends the request with an error. *)
Definition Lost (p : Prog End) : Prop :=
  finished p = false /\
  exists id, forall w r, faults w = [] ->
    exists e r',
      step p w r
      = (Ret (NextError e),
         with_refreshTokens
           (Mongoose.updateMany
              (fun d => (Nat.eqb (RefreshToken.user d) id
                         && negb (RefreshToken.isRevoked d))%bool)
              (set_revoked (clock w)) (refreshTokens w)) w,
         r').

(** Waiting for the conditional update: the turn revokes the first
    unrevoked row with the presented value, if there is one, and the
    request goes on to its insert (or ends with an error); if there is
    none, the ledger stays as it is and the request goes on to the mass
    revocation. *)
Definition Verified (p : Prog End) : Prop :=
  finished p = false /\
  forall w r, faults w = [] ->
    exists p' r',
      step p w r
      = (p',
         with_refreshTokens
           (snd (Mongoose.findOneAndUpdate unrevoked (set_revoked (clock w))
                   (refreshTokens w))) w,
         r')
      /\ (Mongoose.findOne unrevoked (refreshTokens w) = None -> Lost p')
      /\ (Mongoose.findOne unrevoked (refreshTokens w) <> None ->
          Won p' \/ exists e, p' = Ret (NextError e)).

(** Waiting for the lookup: the turn changes nothing in the world, and
    the request goes on to its conditional update or ends with an error. *)
Definition Arrived (p : Prog End) : Prop :=
  finished p = false /\
  forall w r, faults w = [] ->
    exists p' r',
      step p w r = (p', w, r')
      /\ (Verified p' \/ exists e, p' = Ret (NextError e)).

End Phases.

Inductive Phase := PArrived | PVerified | PLost | PWon | PEnded.

Definition at_phase (tok : Token) (ph : Phase) (p : Prog End) : Prop :=
  match ph with
  | PArrived => Arrived tok p
  | PVerified => Verified tok p
  | PLost => Lost p
  | PWon => Won p
  | PEnded => finished p = true
  end.

(** The request has consumed the presented row: it waits for its insert,
    or has been answered with the new pair. *)
Definition claimed (ph : Phase) (p : Prog End) : Prop :=
  ph = PWon \/ (ph = PEnded /\ p = Ret Sent).

(** The presented value is in the ledger, on revoked rows only. *)
Definition consumed (tok : Token) (rows : list RefreshToken.t) : Prop :=
  In tok (List.map RefreshToken.token rows)
  /\ forall row, In row rows -> RefreshToken.token row = tok ->
                 RefreshToken.isRevoked row = true.

(** What holds of two refresh requests for [tok] at every turn: the
    store answers, token values are unique, each request is at its
    phase, at most one has consumed the presented row, and once one has,
    no unrevoked row carries the value. *)
Definition Race (tok : Token) (pa pb : Phase) (a b : Thread) (w : World) : Prop :=
  faults w = []
  /\ unique_tokens (refreshTokens w)
  /\ at_phase tok pa (prog a)
  /\ at_phase tok pb (prog b)
  /\ (claimed pa (prog a) \/ claimed pb (prog b) -> consumed tok (refreshTokens w))
  /\ ~ (claimed pa (prog a) /\ claimed pb (prog b)).

Ltac five := split; [|split; [|split; [|split]]]; auto; try reflexivity.

(* ================================================================== *)
(** ** A small deployment, for concrete runs *)
(* ================================================================== *)

Module Fixture.

Definition ext : External :=
  mkExternal
    (fun p => ("$2a$12$" ++ p)%string)
    (fun candidate hash => String.eqb hash ("$2a$12$" ++ candidate)%string)
    (JS.includes "@")
    (fun s => if String.eqb s "15m" then Some 900
              else if String.eqb s "7d" then Some 604800 else None).

Definition env : Env :=
  mkEnv (Some "access-secret") (Some "15m") (Some "refresh-secret") (Some "7d") None None.

Definition alice : Admin.t :=
  Admin.mk 1%nat "Alice" "a@x.com" (Some "$2a$12$Secr3t!") "admin" true
           None None None 1000000 1000000.

(** A deactivated account. *)
Definition bob : Admin.t :=
  Admin.mk 2%nat "Bob" "b@x.com" (Some "$2a$12$hunter22") "admin" false
           None None None 1000000 1000000.

(** The refresh token a login at clock 1000000 signed for [who]. *)
Definition issued (who : Admin.t) : Token :=
  Jwt "refresh-secret" (mkClaims (Admin._id who) None None) 1000 605800.

Definition row (who : Admin.t) (revoked : bool) : RefreshToken.t :=
  RefreshToken.mk (issued who) (Admin._id who) 605800000 revoked 1000000 1000000.

(** Both accounts, one unrevoked row each, a thousand seconds later. *)
Definition world : World :=
  mkWorld [alice; bob] [row alice false; row bob false] 2000000 [] 3%nat [].

Definition with_cookie (tok : Token) : Req.t :=
  Req.mk None (Some tok) None None None None None None None None.

Definition with_credentials (email password : string) : Req.t :=
  Req.mk None None None None (Some email) (Some password) None None None None.

Definition with_bearer (tok : Token) : Req.t :=
  Req.mk (Some [Opaque "Bearer"; tok]) None None None None None None None None None.

(** A registration for an address no account holds. *)
Definition carol : Req.t :=
  Req.mk None None None (Some "Carol") (Some "carol@x.com") (Some "pa55word") None
         None None None.

(** The request of [who] as [verifyRefreshToken] hands it on, the row
    unrevoked at the time of the lookup. *)
Definition verified (who : Admin.t) : Req.t :=
  Req.with_tokenDoc
    (RefreshToken.mkPopulated (row who false) (Some (Admin.with_password None who)))
    (Req.with_refreshToken (issued who)
       (Req.with_admin (Admin.with_password None who) (with_cookie (issued who)))).

End Fixture.

(* ================================================================== *)
(** ** The routing table and the footprint of its handlers *)
(* ================================================================== *)

Unset Implicit Arguments.

(** The four session routes of [routes/authRouter.js]. *)
Inductive Route := Register | Login | Refresh | Logout.

Definition route (ext : External) (env : Env) (x : Route) : Handler :=
  match x with
  | Register => route_register ext env
  | Login => route_login ext env
  | Refresh => route_refresh ext env
  | Logout => route_logout env
  end.

(** [authController.protect, authController.authorize(...roles)]: the
    guard in front of the form and blog administration routes, there
    with ['admin']. *)
Definition guarded (env : Env) (roles : list string) : Handler :=
  chain (protect env) (authorize roles).

(** Every effect a program can perform, on any of its paths, is one of
    [allowed]. *)
Inductive Uses (allowed : forall X, Eff X -> Prop) {A : Type} : Prog A -> Prop :=
| Uses_Ret (a : A) : Uses allowed (Ret a)
| Uses_Throw (e : Error) : Uses allowed (Throw e)
| Uses_Do (X : Type) (eff : Eff X) (k : Result X -> Prog A) :
    allowed X eff -> (forall x, Uses allowed (k x)) -> Uses allowed (Do eff k).

(** What the session routes do to the store: they look accounts and rows
    up, insert an account or a row, stamp a login on an account, and set
    the revoked flag of rows; they delete nothing. *)
Definition session_effect (X : Type) (eff : Eff X) : Prop :=
  match eff with
  | AdminSave _ modified => modified = [P_lastLogin]
  | TokenFindOneAndUpdate _ update => update = set_revoked
  | TokenUpdateMany _ update => update = set_revoked
  | TokenDeleteMany _ => False
  | _ => True
  end.

(** A ledger row at a later time: the same token value, owner, expiry
    and creation stamp, and revoked if it was. *)
Definition row_later (d d' : RefreshToken.t) : Prop :=
  same_token_row d d'
  /\ (RefreshToken.isRevoked d = true -> RefreshToken.isRevoked d' = true).

(** A later state of a collection: its documents in place, each a later
    state of itself, followed by the documents inserted since. *)
Definition later_list {D : Type} (later1 : D -> D -> Prop) (l l' : list D) : Prop :=
  exists kept added, l' = kept ++ added /\ Forall2 later1 l kept.

Definition ledger_later : list RefreshToken.t -> list RefreshToken.t -> Prop :=
  later_list row_later.

(** An account at a later time: everything but the last-login and update
    stamps is as it was. *)
Definition account_later (a a' : Admin.t) : Prop :=
  Admin._id a' = Admin._id a
  /\ Admin.name a' = Admin.name a
  /\ Admin.email a' = Admin.email a
  /\ Admin.password a' = Admin.password a
  /\ Admin.role a' = Admin.role a
  /\ Admin.isActive a' = Admin.isActive a
  /\ Admin.passwordResetToken a' = Admin.passwordResetToken a
  /\ Admin.passwordResetExpires a' = Admin.passwordResetExpires a
  /\ Admin.createdAt a' = Admin.createdAt a.

Definition accounts_later : list Admin.t -> list Admin.t -> Prop :=
  later_list account_later.

(** A later state of the store. *)
Definition store_later (w w' : World) : Prop :=
  ledger_later (refreshTokens w) (refreshTokens w')
  /\ accounts_later (admins w) (admins w').

(** What a guard decides: the error it hands to [next], or the account
    it attaches to the request. *)
Definition decision (ended : Result End) : option (Error + Admin.t) :=
  match ended with
  | inr (Next req) => option_map inr (Req.admin req)
  | inr (NextError e) => Some (inl e)
  | inl e => Some (inl e)
  | inr Sent => None
  end.

(** The access token [protect] reads from a request: the bearer token of
    the [Authorization] header, else the [accessToken] cookie. *)
Definition presented (req : Req.t) : option Token :=
  if negb (falsy (bearer (Req.authorization req))) then bearer (Req.authorization req)
  else if negb (falsy (Req.cookies_accessToken req)) then Req.cookies_accessToken req
  else None.

(** A decimal numeral, given by its digits (most significant first), and
    the number it denotes. *)
Fixpoint numeral (ds : list nat) : string :=
  match ds with
  | [] => EmptyString
  | d :: rest => String (ascii_of_nat (48 + d)) (numeral rest)
  end.

Definition numeral_value (ds : list nat) : Z :=
  List.fold_left (fun acc d => 10 * acc + Z.of_nat d) ds 0.

(** What may follow the count in a life-time setting: text that does not
    go on with a digit, nor with the [x] that makes [parseInt] read a
    leading zero as a hexadecimal prefix. *)
Definition unit_text (u : string) : Prop :=
  match u with
  | EmptyString => True
  | String c _ => JS.digit c = None /\ c <> "x"%char /\ c <> "X"%char
  end.

(** A text of ASCII characters: each is one character of the program's
    string, so lengths agree, and [trim] and [toLowerCase] are the
    program's. *)
Definition plain (s : string) : bool :=
  List.forallb (fun c => Nat.ltb (nat_of_ascii c) 128) (list_ascii_of_string s).

(** Every signed token of the ledger was signed at or before [now]. *)
Definition signed_by (now : Date) (rows : list RefreshToken.t) : Prop :=
  forall x key claims iat exp,
    In x rows -> RefreshToken.token x = Jwt key claims iat exp -> iat <= now / 1000.

(** A logout request in flight waits for the account lookup of
    [protect], then for the revocation of the presented value.  As for
    a refresh, each phase is described by what the pending turn does,
    here whether the store answers it or not. *)
Section LogoutPhases.
Variable tok : Token.

(** Waiting for the revocation: the turn ends the request, with an
    error and the ledger untouched, or with the response sent and the
    first row that carries the value revoked. *)
Definition Revoking (p : Prog End) : Prop :=
  finished p = false /\
  forall w r,
    exists p' w' r',
      step p w r = (p', w', r')
      /\ ((exists e, p' = Ret (NextError e) /\ refreshTokens w' = refreshTokens w)
          \/ (p' = Ret Sent
              /\ refreshTokens w'
                 = snd (Mongoose.findOneAndUpdate
                          (fun d => Token_eqb (RefreshToken.token d) tok)
                          (set_revoked (clock w)) (refreshTokens w)))).

(** Waiting for the account lookup: the turn leaves the ledger alone,
    and the request goes on to its revocation or ends with an error. *)
Definition Guarding (p : Prog End) : Prop :=
  finished p = false /\
  forall w r,
    exists p' w' r',
      step p w r = (p', w', r')
      /\ refreshTokens w' = refreshTokens w
      /\ (Revoking p' \/ exists e, p' = Ret (NextError e)).

(** Where a logout request for [tok] stands, the ledger being [rows]:
    once it has been answered, no unrevoked row carries the value. *)
Definition logging_out (rows : list RefreshToken.t) (p : Prog End) : Prop :=
  Guarding p \/ Revoking p \/ (exists e, p = Ret (NextError e))
  \/ (p = Ret Sent /\ consumed tok rows).

End LogoutPhases.

(** The presented value is in the ledger, under the unique index. *)
Definition present (tok : Token) (w : World) : Prop :=
  unique_tokens (refreshTokens w) /\ In tok (List.map RefreshToken.token (refreshTokens w)).

(** What a session effect cannot undo: that a value is in the ledger,
    and that it is there on revoked rows only. *)
Definition keeps_dead (tok : Token) (w w' : World) : Prop :=
  (present tok w -> present tok w')
  /\ (consumed tok (refreshTokens w) -> consumed tok (refreshTokens w')).

(** A registration in flight waits for the lookup of the address, then
    for the insert of the account, then for the insert of its first
    ledger row.  Each phase is described by what the pending turn does,
    whether the store answers it or not. *)
Section RegisterPhases.
Variable address : string.

(** An account holds the address. *)
Definition taken (accounts : list Admin.t) : Prop :=
  In address (List.map Admin.email accounts).

(** Waiting for the insert of the ledger row, the account stored: the
    turn ends the request and leaves the accounts alone. *)
Definition Enrolled (p : Prog End) : Prop :=
  finished p = false /\
  forall w r,
    exists p' w' r',
      step p w r = (p', w', r') /\ admins w' = admins w /\ finished p' = true.

(** Waiting for the insert of the account: the turn ends the request
    with an error and leaves the accounts alone, or -- no account
    holding the address -- it adds an account that holds it, and the
    request goes on to its ledger row or ends with an error. *)
Definition Enrolling (p : Prog End) : Prop :=
  finished p = false /\
  forall w r,
    exists p' w' r',
      step p w r = (p', w', r')
      /\ ((admins w' = admins w /\ exists e, p' = Ret (NextError e))
          \/ (~ taken (admins w)
              /\ (exists stored,
                    admins w' = admins w ++ [stored] /\ Admin.email stored = address)
              /\ (Enrolled p' \/ exists e, p' = Ret (NextError e)))).

(** Waiting for the lookup: the turn leaves the accounts alone, and the
    request goes on to its insert or ends with an error. *)
Definition Checking (p : Prog End) : Prop :=
  finished p = false /\
  forall w r,
    exists p' w' r',
      step p w r = (p', w', r')
      /\ admins w' = admins w
      /\ (Enrolling p' \/ exists e, p' = Ret (NextError e)).

End RegisterPhases.

Inductive Enrolment := EChecking | EEnrolling | EEnrolled | EEnded.

Definition at_enrolment (address : string) (ph : Enrolment) (p : Prog End) : Prop :=
  match ph with
  | EChecking => Checking address p
  | EEnrolling => Enrolling address p
  | EEnrolled => Enrolled p
  | EEnded => finished p = true
  end.

(** The registration has stored its account and has not failed since. *)
Definition enrolled (ph : Enrolment) (p : Prog End) : Prop :=
  ph = EEnrolled \/ (ph = EEnded /\ p = Ret Sent).

(** What holds of two registrations of one address at every turn: each
    is at its phase, at most one has stored its account, and once one
    has, an account holds the address. *)
Definition Enrol (address : string) (pa pb : Enrolment) (a b : Thread) (w : World) : Prop :=
  at_enrolment address pa (prog a)
  /\ at_enrolment address pb (prog b)
  /\ (enrolled pa (prog a) \/ enrolled pb (prog b) -> taken address (admins w))
  /\ ~ (enrolled pa (prog a) /\ enrolled pb (prog b)).

(* ================================================================== *)
(** ** The origins the server answers (app.js) *)
(* ================================================================== *)

Module Cors.

(** [process.env.FRONTEND_URLS] and [process.env.FRONTEND_URL]. *)
Record Origins := mkOrigins {
  FRONTEND_URLS : option string;
  FRONTEND_URL : option string
}.

(** [String.prototype.split] with a separator of one character. *)
Fixpoint split (sep : ascii) (s : string) : list string :=
  match s with
  | EmptyString => [EmptyString]
  | String c rest =>
      if Ascii.eqb c sep then EmptyString :: split sep rest
      else match split sep rest with
           | piece :: pieces => String c piece :: pieces
           | [] => [String c EmptyString]
           end
  end.

(** [FRONTEND_URLS.split(',').map((u) => u.trim()).filter(Boolean)],
    else [[FRONTEND_URL]], else the development default. *)
Definition frontendUrls (env : Origins) : list string :=
  let single :=
    match FRONTEND_URL env with
    | Some url => if JS.truthy url then [url] else ["http://localhost:3000"]
    | None => ["http://localhost:3000"]
    end in
  match FRONTEND_URLS env with
  | Some urls =>
      if JS.truthy urls
      then List.filter JS.truthy (List.map JS.trim (split "," urls))
      else single
  | None => single
  end.

(** [corsOptions.origin]: what the callback is called with. *)
Definition origin (env : Origins) (o : option string) : Error + bool :=
  match o with
  | Some o =>
      if negb (JS.truthy o) then inr true
      else if List.existsb (String.eqb o) (frontendUrls env) then inr true
      else inl (mkError "Error" "CORS policy: This origin is not allowed" None None)
  | None => inr true
  end.

End Cors.

(* ================================================================== *)
(** ** Basic facts: equality tests, programs, collections *)
(* ================================================================== *)

Unset Implicit Arguments.

Lemma option_eqb_eq {A} (eqb : A -> A -> bool)
    (eqb_eq : forall a b, eqb a b = true <-> a = b) (x y : option A) :
  option_eqb eqb x y = true <-> x = y.
Proof.
  destruct x as [a|], y as [b|]; simpl; try (split; congruence).
  rewrite eqb_eq. split; congruence.
Qed.

Lemma Claims_eqb_eq (a b : Claims) : Claims_eqb a b = true <-> a = b.
Proof.
  destruct a as [i e r], b as [i' e' r']. unfold Claims_eqb. simpl.
  rewrite !andb_true_iff, Nat.eqb_eq, !(option_eqb_eq String.eqb String.eqb_eq).
  split; [intros [[-> ->] ->]; reflexivity | intros H; inversion H; auto].
Qed.

Lemma Token_eqb_eq (a b : Token) : Token_eqb a b = true <-> a = b.
Proof.
  destruct a as [k c i e | s], b as [k' c' i' e' | s']; simpl;
    try (split; congruence).
  - rewrite !andb_true_iff, String.eqb_eq, Claims_eqb_eq, !Z.eqb_eq.
    split; [intros [[[-> ->] ->] ->]; reflexivity | intros H; inversion H; auto].
  - rewrite String.eqb_eq. split; congruence.
Qed.

Lemma Token_eqb_refl (a : Token) : Token_eqb a a = true.
Proof. apply Token_eqb_eq. reflexivity. Qed.

Lemma Token_eqb_neq (a b : Token) : Token_eqb a b = false <-> a <> b.
Proof.
  rewrite <- Token_eqb_eq. destruct (Token_eqb a b); split; congruence.
Qed.

Section Programs.
Context {A B : Type}.

Lemma run_bind (p : Prog A) (f : A -> Prog B) w r :
  run (bind p f) w r =
  match run p w r with
  | (inr a, w', r') => run (f a) w' r'
  | (inl e, w', r') => (inl e, w', r')
  end.
Proof.
  revert w r. induction p as [a | e | X eff k IH]; intros w r; simpl; try reflexivity.
  destruct (exec eff w r) as [[x w'] r']. apply IH.
Qed.

Lemma run_try_catch (p : Prog A) (handler : Error -> Prog A) w r :
  run (try_catch p handler) w r =
  match run p w r with
  | (inl e, w', r') => run (handler e) w' r'
  | done => done
  end.
Proof.
  revert w r. induction p as [a | e | X eff k IH]; intros w r; simpl; try reflexivity.
  destruct (exec eff w r) as [[x w'] r']. apply IH.
Qed.
End Programs.

Lemma run_perform {X} (eff : Eff X) w r :
  run (perform eff) w r = exec eff w r.
Proof.
  unfold perform. simpl. destruct (exec eff w r) as [[[e | x] w'] r']; reflexivity.
Qed.

(** The two ways of running a program agree: running it to completion
    is running its synchronous part, or its next turn, and then the
    rest. *)
Lemma run_settle {A} (p : Prog A) w r :
  run (fst (fst (settle p w r))) (snd (fst (settle p w r))) (snd (settle p w r))
  = run p w r.
Proof.
  revert w r. induction p as [a | e | X eff k IH]; intros w r; try reflexivity.
  cbn [settle]. destruct (is_round_trip eff); [reflexivity|].
  cbn [run]. destruct (exec eff w r) as [[x w'] r']. apply IH.
Qed.

Lemma run_step {A} (p : Prog A) w r :
  run (fst (fst (step p w r))) (snd (fst (step p w r))) (snd (step p w r))
  = run p w r.
Proof.
  destruct p as [a | e | X eff k]; try reflexivity.
  cbn [step run]. destruct (exec eff w r) as [[x w'] r']. apply run_settle.
Qed.

Lemma round_trip_up {X} (w : World) (answer : World -> Result X * World) :
  faults w = [] -> round_trip w answer = answer w.
Proof. unfold round_trip. intros ->. reflexivity. Qed.

Lemma round_trip_down {X} (w : World) (answer : World -> Result X * World) script :
  faults w = true :: script ->
  round_trip w answer = (inl MongoNetworkError, with_faults script w).
Proof. unfold round_trip. intros ->. reflexivity. Qed.

Section Collections.
Context {D : Type}.
Implicit Types (filter : D -> bool) (update : D -> D) (docs : list D).

Lemma findOne_None filter docs :
  Mongoose.findOne filter docs = None <-> (forall d, In d docs -> filter d = false).
Proof.
  unfold Mongoose.findOne. split.
  - intros H d Hd. exact (find_none filter docs H d Hd).
  - induction docs as [| d rest IH]; intros H; simpl; [reflexivity|].
    rewrite (H d (or_introl eq_refl)). apply IH. intros d' Hd'. apply H. right. exact Hd'.
Qed.

Lemma findOne_Some filter docs d :
  Mongoose.findOne filter docs = Some d -> In d docs /\ filter d = true.
Proof. apply find_some. Qed.

Lemma findOneAndUpdate_None filter update docs :
  Mongoose.findOne filter docs = None ->
  Mongoose.findOneAndUpdate filter update docs = (None, docs).
Proof.
  unfold Mongoose.findOne.
  induction docs as [| d rest IH]; simpl; [reflexivity|].
  destruct (filter d); [discriminate|]. intros H. rewrite (IH H). reflexivity.
Qed.

Lemma findOneAndUpdate_Some filter update docs d :
  Mongoose.findOne filter docs = Some d ->
  exists before after,
    docs = before ++ d :: after
    /\ (forall x, In x before -> filter x = false)
    /\ Mongoose.findOneAndUpdate filter update docs
       = (Some (update d), before ++ update d :: after).
Proof.
  unfold Mongoose.findOne.
  induction docs as [| x rest IH]; simpl; [discriminate|].
  destruct (filter x) eqn:Hx.
  - intros [= ->]. exists [], rest. simpl. repeat split; auto. intros ? [].
  - intros H. destruct (IH H) as (before & after & -> & Hb & ->).
    exists (x :: before), after. simpl. repeat split; auto.
    intros y [<- | Hy]; auto.
Qed.

Lemma findOneAndUpdate_fst filter update docs :
  fst (Mongoose.findOneAndUpdate filter update docs)
  = option_map update (Mongoose.findOne filter docs).
Proof.
  destruct (Mongoose.findOne filter docs) as [d|] eqn:H.
  - destruct (findOneAndUpdate_Some filter update docs d H) as (? & ? & _ & _ & ->).
    reflexivity.
  - rewrite (findOneAndUpdate_None filter update docs H). reflexivity.
Qed.
End Collections.

(* ================================================================== *)
(** ** Looking a refresh token up *)
(* ================================================================== *)

(** The rows [findValidToken] can return for [tok] are the ACTIVE ones. *)
Lemma no_active_row_not_found tok now rows :
  (forall d, In d rows -> RefreshToken.token d = tok -> active now d = false) ->
  Mongoose.findOne
    (fun d => (Token_eqb (RefreshToken.token d) tok
               && negb (RefreshToken.isRevoked d)
               && (now <? RefreshToken.expiresAt d))%bool) rows = None.
Proof.
  intros H. apply findOne_None. intros d Hd.
  destruct (Token_eqb (RefreshToken.token d) tok) eqn:E; [|reflexivity].
  apply Token_eqb_eq in E. specialize (H d Hd E). unfold active in H.
  rewrite <- andb_assoc. simpl. exact H.
Qed.

(** A lookup that finds no ACTIVE row ends in the generic 401, whatever
    the store does, and leaves both collections as they were. *)
Lemma verify_without_active_row req tok w r :
  Req.cookies_refreshToken req = Some tok ->
  Token_truthy tok = true ->
  (forall d, In d (refreshTokens w) -> RefreshToken.token d = tok ->
             active (clock w) d = false) ->
  exists w',
    run (verifyRefreshToken req) w r
    = (inr (NextError (AppError (if answers w then "Invalid or expired refresh token"
                                 else "Invalid refresh token") 401)), w', r)
    /\ refreshTokens w' = refreshTokens w
    /\ admins w' = admins w.
Proof.
  intros Hc Ht Hrows.
  unfold verifyRefreshToken, asyncHandler. rewrite Hc, Ht. simpl.
  unfold answers, round_trip.
  destruct (faults w) as [| [|] script] eqn:Hf; simpl.
  - rewrite (no_active_row_not_found tok (clock w) (refreshTokens w) Hrows). simpl.
    exists w. auto.
  - eexists. split; [reflexivity|]. simpl. auto.
  - rewrite (no_active_row_not_found tok (clock w) (refreshTokens w) Hrows). simpl.
    eexists. split; [reflexivity|]. simpl. auto.
Qed.

Lemma unique_tokens_same_row rows d d' :
  unique_tokens rows -> In d rows -> In d' rows ->
  RefreshToken.token d = RefreshToken.token d' -> d = d'.
Proof.
  unfold unique_tokens. induction rows as [| x rest IH]; simpl; [intros _ []|].
  intros Hnd Hd Hd' Heq. inversion Hnd as [| ? ? Hx Hrest]; subst.
  destruct Hd as [<- | Hd], Hd' as [<- | Hd']; auto.
  - exfalso. apply Hx. rewrite Heq. apply in_map. exact Hd'.
  - exfalso. apply Hx. rewrite <- Heq. apply in_map. exact Hd.
Qed.

Lemma run_chain (first second : Handler) req w r :
  run (chain first second req) w r =
  match run (first req) w r with
  | (inr (Next req'), w', r') => run (second req') w' r'
  | done => done
  end.
Proof.
  unfold chain. rewrite run_bind.
  destruct (run (first req) w r) as [[[e | [req' | e | ]] w'] r']; reflexivity.
Qed.

(* ================================================================== *)
(** ** C1: presenting a revoked refresh token *)
(* ================================================================== *)

(** C1 (the code does otherwise).  A refresh token whose ledger row is
    revoked -- consumed by an earlier rotation, or revoked by logout -- is
    answered by [POST /refresh] with the generic 401 of an invalid token,
    at any clock and whatever the store does: the lookup only returns
    unrevoked rows, so the reuse branch is never reached, the error is not
    [reuse_detected], and no row of the ledger is touched. *)
Theorem refresh_of_revoked_token ext env req tok w :
  Req.cookies_refreshToken req = Some tok ->
  Token_truthy tok = true ->
  unique_tokens (refreshTokens w) ->
  (exists d, In d (refreshTokens w)
             /\ RefreshToken.token d = tok /\ RefreshToken.isRevoked d = true) ->
  exists w' e,
    run (route_refresh ext env req) w Res.fresh = (inr (NextError e), w', Res.fresh)
    /\ err_statusCode e = Some 401
    /\ (err_message e = "Invalid or expired refresh token"
        \/ err_message e = "Invalid refresh token")
    /\ e <> reuse_detected
    /\ refreshTokens w' = refreshTokens w.
Proof.
  intros Hc Ht Hu (d & Hd & Htok & Hrev).
  destruct (verify_without_active_row req tok w Res.fresh Hc Ht) as (w' & Hrun & Hrows & _).
  { intros d' Hd' Htok'.
    rewrite <- (unique_tokens_same_row _ d d' Hu Hd Hd') by congruence.
    unfold active. rewrite Hrev. reflexivity. }
  exists w'. eexists. unfold route_refresh. rewrite run_chain, Hrun.
  split; [reflexivity|]. split; [reflexivity|].
  destruct (answers w); (split; [auto|]); (split; [discriminate | exact Hrows]).
Qed.

(** At clock 2000000 the ledger holds Alice's token, revoked; she (or a
    thief) presents it. *)
Lemma refresh_of_revoked_token_witness :
  exists w' e,
    run (route_refresh Fixture.ext Fixture.env (Fixture.with_cookie (Fixture.issued Fixture.alice)))
        (with_refreshTokens [Fixture.row Fixture.alice true; Fixture.row Fixture.bob false]
           Fixture.world) Res.fresh
    = (inr (NextError e), w', Res.fresh)
    /\ err_statusCode e = Some 401
    /\ (err_message e = "Invalid or expired refresh token"
        \/ err_message e = "Invalid refresh token")
    /\ e <> reuse_detected
    /\ refreshTokens w'
       = [Fixture.row Fixture.alice true; Fixture.row Fixture.bob false].
Proof.
  apply (refresh_of_revoked_token Fixture.ext Fixture.env _ (Fixture.issued Fixture.alice)).
  - reflexivity.
  - reflexivity.
  - repeat constructor; simpl; intuition discriminate.
  - exists (Fixture.row Fixture.alice true). simpl. auto.
Defined.

(* ================================================================== *)
(** ** C4: missing, unknown and expired refresh tokens *)
(* ================================================================== *)

(** C4 as stated fails: with no refresh cookie on the request the error
    carries status 400, not 401. *)
Lemma refresh_without_cookie_is_400 :
  exists e,
    run (route_refresh Fixture.ext Fixture.env Req.blank) Fixture.world Res.fresh
    = (inr (NextError e), Fixture.world, Res.fresh)
    /\ err_message e = "Refresh token is required"
    /\ err_statusCode e = Some 400
    /\ err_statusCode e <> Some 401.
Proof.
  eexists. split; [reflexivity|]. simpl. repeat split; discriminate.
Qed.

(** C4 (amended).  [POST /refresh] without a refresh cookie (absent or
    empty) fails with "Refresh token is required" and status 400.  With a
    token that no ledger row carries, or whose rows are all past their
    expiry with [isRevoked = false], it fails with status 401 and a
    message of the invalid-token kind, never [reuse_detected]; in both
    cases no row of the ledger is changed, so nothing is mass-revoked. *)
Theorem refresh_of_invalid_token ext env req w :
  (falsy (Req.cookies_refreshToken req) = true ->
   run (route_refresh ext env req) w Res.fresh
   = (inr (NextError (AppError "Refresh token is required" 400)), w, Res.fresh))
  /\
  (forall tok,
     Req.cookies_refreshToken req = Some tok ->
     Token_truthy tok = true ->
     (forall d, In d (refreshTokens w) -> RefreshToken.token d = tok ->
                RefreshToken.isRevoked d = false /\ RefreshToken.expiresAt d <= clock w) ->
     exists w' e,
       run (route_refresh ext env req) w Res.fresh = (inr (NextError e), w', Res.fresh)
       /\ err_statusCode e = Some 401
       /\ (err_message e = "Invalid or expired refresh token"
           \/ err_message e = "Invalid refresh token")
       /\ refreshTokens w' = refreshTokens w).
Proof.
  split.
  - intros Hmissing. unfold route_refresh. rewrite run_chain.
    unfold verifyRefreshToken, asyncHandler, falsy in *.
    destruct (Req.cookies_refreshToken req) as [tok|]; [|reflexivity].
    destruct (Token_truthy tok); [discriminate | reflexivity].
  - intros tok Hc Ht Hrows.
    destruct (verify_without_active_row req tok w Res.fresh Hc Ht) as (w' & Hrun & Hsame & _).
    { intros d Hd Htok. destruct (Hrows d Hd Htok) as [_ Hexp].
      unfold active. apply andb_false_iff. right. apply Z.ltb_ge. exact Hexp. }
    exists w'. eexists. unfold route_refresh. rewrite run_chain, Hrun.
    split; [reflexivity|]. split; [reflexivity|].
    destruct (answers w); auto.
Qed.

(** No cookie at all; and Alice's token presented after its expiry, its
    row never revoked. *)
Lemma refresh_of_invalid_token_witness :
  run (route_refresh Fixture.ext Fixture.env Req.blank) Fixture.world Res.fresh
  = (inr (NextError (AppError "Refresh token is required" 400)), Fixture.world, Res.fresh)
  /\
  exists w' e,
    run (route_refresh Fixture.ext Fixture.env (Fixture.with_cookie (Fixture.issued Fixture.alice)))
        (with_clock 605800000 Fixture.world) Res.fresh
    = (inr (NextError e), w', Res.fresh)
    /\ err_statusCode e = Some 401
    /\ (err_message e = "Invalid or expired refresh token"
        \/ err_message e = "Invalid refresh token")
    /\ refreshTokens w' = refreshTokens Fixture.world.
Proof.
  split.
  - apply (proj1 (refresh_of_invalid_token Fixture.ext Fixture.env Req.blank Fixture.world)).
    reflexivity.
  - apply (proj2 (refresh_of_invalid_token Fixture.ext Fixture.env
                    (Fixture.with_cookie (Fixture.issued Fixture.alice))
                    (with_clock 605800000 Fixture.world))
                 (Fixture.issued Fixture.alice)).
    + reflexivity.
    + reflexivity.
    + intros d [<- | [<- | []]]; simpl; intros H; [split; [reflexivity | lia] | discriminate H].
Defined.

(* ================================================================== *)
(** ** Signing and minting *)
(* ================================================================== *)

Lemma jwt_sign_inr ext payload secret expiresIn now tok :
  jwt_sign ext payload secret expiresIn now = inr tok ->
  exists k e ttl,
    secret = Some k /\ JS.truthy k = true /\ expiresIn = Some e
    /\ timespan ext e = Some ttl
    /\ tok = Jwt k payload (now / 1000) (now / 1000 + ttl).
Proof.
  unfold jwt_sign. intros H.
  destruct secret as [k|]; [|discriminate].
  destruct (JS.truthy k) eqn:Hk; [|discriminate].
  destruct expiresIn as [e|]; [|discriminate].
  destruct (timespan ext e) as [ttl|] eqn:Httl; [|discriminate].
  inversion H. exists k, e, ttl. auto.
Qed.

Lemma jwt_sign_truthy ext payload secret expiresIn now tok :
  jwt_sign ext payload secret expiresIn now = inr tok -> Token_truthy tok = true.
Proof.
  intros H. destruct (jwt_sign_inr _ _ _ _ _ _ H) as (k & e & ttl & _ & _ & _ & _ & ->).
  reflexivity.
Qed.

(** [generateRefreshToken], case by case. *)
Lemma run_generateRefreshToken ext env this w r :
  run (generateRefreshToken ext env this) w r =
  match jwt_sign ext (mkClaims (Admin._id this) None None)
          (JWT_REFRESH_SECRET env) (JWT_REFRESH_EXPIRE env) (clock w) with
  | inl e => (inl e, w, r)
  | inr tok =>
      match JWT_REFRESH_EXPIRE env with
      | None => (inl (TypeError "Cannot read properties of undefined (reading 'includes')"), w, r)
      | Some s =>
          match expiresInSeconds s with
          | None => (inl (ValidationError "Path `expiresAt` is required."), w, r)
          | Some secs =>
              let '(x, w') :=
                round_trip w (fun w =>
                  if List.existsb (fun d => Token_eqb (RefreshToken.token d) tok)
                       (refreshTokens w)
                  then (inl DuplicateKeyError, w)
                  else (inr (minted_row tok (Admin._id this) (clock w) secs),
                        with_refreshTokens
                          (refreshTokens w
                           ++ [minted_row tok (Admin._id this) (clock w) secs]) w)) in
              (match x with inl e => inl e | inr _ => inr tok end, w', r)
          end
      end
  end.
Proof.
  unfold generateRefreshToken. simpl.
  destruct (jwt_sign _ _ _ _ _) as [e | tok] eqn:Hsign; simpl; [reflexivity|].
  pose proof (jwt_sign_truthy _ _ _ _ _ _ Hsign) as Ht.
  destruct (JWT_REFRESH_EXPIRE env) as [s|]; simpl; [|reflexivity].
  destruct (expiresInSeconds s) as [secs|]; simpl; [|reflexivity].
  rewrite Ht. simpl. unfold round_trip, minted_row.
  destruct (faults w) as [| [|] script]; simpl; try reflexivity;
    destruct (existsb _ _); reflexivity.
Qed.

Lemma existsb_token_fresh tok rows :
  (forall d, In d rows -> RefreshToken.token d <> tok) ->
  List.existsb (fun d => Token_eqb (RefreshToken.token d) tok) rows = false.
Proof.
  intros Hfresh. destruct (existsb _ _) eqn:E; [|reflexivity].
  apply existsb_exists in E as (d & Hd & Heq). apply Token_eqb_eq in Heq.
  destruct (Hfresh d Hd Heq).
Qed.

(** A mint that meets no obstacle: the store answers, the deployment is
    configured, and the signed value is new to the ledger. *)
Lemma run_generateRefreshToken_ok ext env a w r newTok s secs :
  faults w = [] ->
  jwt_sign ext (mkClaims (Admin._id a) None None)
    (JWT_REFRESH_SECRET env) (JWT_REFRESH_EXPIRE env) (clock w) = inr newTok ->
  JWT_REFRESH_EXPIRE env = Some s ->
  expiresInSeconds s = Some secs ->
  (forall d, In d (refreshTokens w) -> RefreshToken.token d <> newTok) ->
  run (generateRefreshToken ext env a) w r
  = (inr newTok,
     with_refreshTokens (refreshTokens w ++ [minted_row newTok (Admin._id a) (clock w) secs]) w,
     r).
Proof.
  intros Hf Hsign Hs Hsecs Hfresh.
  rewrite run_generateRefreshToken, Hsign, Hs, Hsecs, (round_trip_up _ _ Hf).
  rewrite (existsb_token_fresh _ _ Hfresh). reflexivity.
Qed.

(* ================================================================== *)
(** ** C6: a refresh token is handed out only once it is recorded *)
(* ================================================================== *)

(** C6.  [generateRefreshToken] returns a token only after the ledger
    holds its row: whenever it returns [tok], the ledger is the old one
    with one more row, carrying [tok], owned by the account and
    unrevoked.  And when persisting the signed token fails --
    [createToken] throws, for an outage or a rejected insert -- the mint
    fails with that error and the caller receives no token. *)
Theorem minted_refresh_token_is_recorded ext env this w r :
  (forall tok w' r',
     run (generateRefreshToken ext env this) w r = (inr tok, w', r') ->
     exists row,
       refreshTokens w' = refreshTokens w ++ [row]
       /\ RefreshToken.token row = tok
       /\ RefreshToken.user row = Admin._id this
       /\ RefreshToken.isRevoked row = false)
  /\
  (forall tok s e w' r',
     jwt_sign ext (mkClaims (Admin._id this) None None)
       (JWT_REFRESH_SECRET env) (JWT_REFRESH_EXPIRE env) (clock w) = inr tok ->
     JWT_REFRESH_EXPIRE env = Some s ->
     run (createToken (Admin._id this) tok (expiresInSeconds s)) w r = (inl e, w', r') ->
     run (generateRefreshToken ext env this) w r = (inl e, w', r')).
Proof.
  split.
  - intros tok w' r'. rewrite run_generateRefreshToken.
    destruct (jwt_sign _ _ _ _ _) as [e | tok0]; [discriminate|].
    destruct (JWT_REFRESH_EXPIRE env) as [s|]; [|discriminate].
    destruct (expiresInSeconds s) as [secs|]; [|discriminate].
    unfold round_trip.
    destruct (faults w) as [| [|] script]; simpl; try discriminate;
      destruct (existsb _ _); simpl; try discriminate;
      intros H; inversion H; subst; simpl;
      eexists; split; try reflexivity; simpl; auto.
  - intros tok s e w' r' Hsign Hs Hcreate.
    unfold generateRefreshToken.
    rewrite run_bind, run_perform. cbn [exec].
    rewrite run_bind, Hsign. cbn [lift run].
    rewrite run_bind, Hs. cbn [run].
    rewrite run_bind, Hcreate. reflexivity.
Qed.

(** A mint for Alice that succeeds, and one during an outage. *)
Lemma minted_refresh_token_is_recorded_witness :
  (exists row,
     refreshTokens
       (snd (fst (run (generateRefreshToken Fixture.ext Fixture.env Fixture.alice)
                      Fixture.world Res.fresh)))
     = refreshTokens Fixture.world ++ [row]
     /\ RefreshToken.token row
        = Jwt "refresh-secret" (mkClaims 1%nat None None) 2000 606800
     /\ RefreshToken.user row = Admin._id Fixture.alice
     /\ RefreshToken.isRevoked row = false)
  /\
  run (generateRefreshToken Fixture.ext Fixture.env Fixture.alice)
      (with_faults [true] Fixture.world) Res.fresh
  = (inl MongoNetworkError, Fixture.world, Res.fresh).
Proof.
  split.
  - apply (proj1 (minted_refresh_token_is_recorded Fixture.ext Fixture.env Fixture.alice
                    Fixture.world Res.fresh)
                 (Jwt "refresh-secret" (mkClaims 1%nat None None) 2000 606800)
                 _ Res.fresh).
    reflexivity.
  - apply (proj2 (minted_refresh_token_is_recorded Fixture.ext Fixture.env Fixture.alice
                    (with_faults [true] Fixture.world) Res.fresh)
                 (Jwt "refresh-secret" (mkClaims 1%nat None None) 2000 606800) "7d");
      reflexivity.
Defined.

(* ================================================================== *)
(** ** C5: logout *)
(* ================================================================== *)

Lemma same_outside_refl tok rows : same_outside tok rows rows.
Proof.
  induction rows; constructor; auto. unfold same_token_row. auto.
Qed.

Lemma run_revokeToken tok w r :
  run (revokeToken tok) w r =
  let '(x, w') :=
    round_trip w (fun w =>
      let '(found, rows) :=
        Mongoose.findOneAndUpdate (fun d => Token_eqb (RefreshToken.token d) tok)
          (set_revoked (clock w)) (refreshTokens w) in
      (inr found, with_refreshTokens rows w)) in
  (x, w', r).
Proof.
  unfold revokeToken. rewrite run_perform. simpl.
  destruct (round_trip _ _). reflexivity.
Qed.

(** What [findOneAndUpdate({ token }, { isRevoked: true })] does to the
    ledger: rows with another token value are untouched, and under the
    unique index no unrevoked row with the value is left. *)
Lemma revoke_one_frame tok now rows :
  let rows' := snd (Mongoose.findOneAndUpdate
                      (fun d => Token_eqb (RefreshToken.token d) tok)
                      (set_revoked now) rows) in
  same_outside tok rows rows'
  /\ (unique_tokens rows ->
      forall d', In d' rows' -> RefreshToken.token d' = tok ->
                 RefreshToken.isRevoked d' = true).
Proof.
  induction rows as [| d rest [IHframe IHrev]]; simpl.
  - split; [constructor | intros _ d' []].
  - destruct (Token_eqb (RefreshToken.token d) tok) eqn:E; simpl.
    + split.
      * constructor; [|apply same_outside_refl].
        split; [unfold same_token_row; simpl; auto|].
        apply Token_eqb_eq in E. congruence.
      * intros Hu d' [<- | Hd'] Htok; [reflexivity|].
        apply Token_eqb_eq in E. exfalso.
        unfold unique_tokens in Hu. simpl in Hu. apply NoDup_cons_iff in Hu as [Hnotin _].
        apply Hnotin. rewrite E, <- Htok. apply in_map. exact Hd'.
    + destruct (Mongoose.findOneAndUpdate _ _ rest) as [found rest'] eqn:Hrest. simpl in *.
      split.
      * constructor; [|exact IHframe]. split; [unfold same_token_row; auto | auto].
      * intros Hu d' [<- | Hd'] Htok.
        -- apply Token_eqb_neq in E. contradiction.
        -- apply IHrev; auto. unfold unique_tokens in *. simpl in Hu.
           apply NoDup_cons_iff in Hu as [_ Hu]. exact Hu.
Qed.

(** C5 as stated fails: when the store does not answer the revocation,
    the error is forwarded and the handler never reaches the line that
    clears the cookie. *)
Lemma logout_during_outage_keeps_cookie :
  exists r',
    run (logout Fixture.env (Fixture.with_cookie (Fixture.issued Fixture.alice)))
        (with_faults [true] Fixture.world) Res.fresh
    = (inr (NextError MongoNetworkError), Fixture.world, r')
    /\ Res.cookies r' = []
    /\ Res.body r' = None.
Proof. eexists. split; [reflexivity|]. split; reflexivity. Qed.

(** C5 (amended).  [logout] with a refresh cookie [tok] changes no ledger
    row whose token value is not [tok], in any field, and no account.
    When the store answers the revocation, the handler succeeds whether
    or not a row matched and whether or not it was already revoked: it
    clears the refresh cookie, sends "Logged out successfully", and
    (the token index being unique) every row carrying [tok] is revoked.
    When the store does not answer, the error is forwarded to the
    boundary and the cookie is not cleared. *)
Theorem logout_revokes_presented_token env req tok w r :
  Req.cookies_refreshToken req = Some tok ->
  Token_truthy tok = true ->
  exists out w' r',
    run (logout env req) w r = (inr out, w', r')
    /\ same_outside tok (refreshTokens w) (refreshTokens w')
    /\ admins w' = admins w
    /\ (answers w = true ->
        out = Sent
        /\ Res.statusCode r' = Res.statusCode r
        /\ (exists opts, Res.cookies r' = Res.cookies r ++ [ClearCookie "refreshToken" opts])
        /\ Res.body r' = Some (mkBody true "Logged out successfully" None None)
        /\ (unique_tokens (refreshTokens w) ->
            forall d', In d' (refreshTokens w') -> RefreshToken.token d' = tok ->
                       RefreshToken.isRevoked d' = true))
    /\ (answers w = false ->
        out = NextError MongoNetworkError /\ r' = r).
Proof.
  intros Hc Ht.
  unfold logout, asyncHandler. rewrite Hc, Ht.
  rewrite run_try_catch, run_bind, run_bind, run_revokeToken.
  pose proof (revoke_one_frame tok (clock w) (refreshTokens w)) as [Hframe Hrev].
  unfold answers, round_trip.
  destruct (faults w) as [| [|] script]; simpl in *;
    try (destruct (Mongoose.findOneAndUpdate _ _ (refreshTokens w)) as [found rows'];
         simpl in *; do 3 eexists; split; [reflexivity|]; simpl;
         repeat split; eauto; discriminate).
  do 3 eexists. split; [reflexivity|]. simpl.
  repeat split; auto using same_outside_refl; discriminate.
Qed.

(** Bob logs out while Alice has a session of her own. *)
Lemma logout_revokes_presented_token_witness :
  exists out w' r',
    run (logout Fixture.env (Fixture.with_cookie (Fixture.issued Fixture.bob)))
        Fixture.world Res.fresh = (inr out, w', r')
    /\ same_outside (Fixture.issued Fixture.bob)
         (refreshTokens Fixture.world) (refreshTokens w')
    /\ admins w' = admins Fixture.world
    /\ (answers Fixture.world = true ->
        out = Sent
        /\ Res.statusCode r' = Res.statusCode Res.fresh
        /\ (exists opts,
              Res.cookies r' = Res.cookies Res.fresh ++ [ClearCookie "refreshToken" opts])
        /\ Res.body r' = Some (mkBody true "Logged out successfully" None None)
        /\ (unique_tokens (refreshTokens Fixture.world) ->
            forall d', In d' (refreshTokens w') ->
                       RefreshToken.token d' = Fixture.issued Fixture.bob ->
                       RefreshToken.isRevoked d' = true))
    /\ (answers Fixture.world = false ->
        out = NextError MongoNetworkError /\ r' = Res.fresh).
Proof.
  apply (logout_revokes_presented_token Fixture.env _ (Fixture.issued Fixture.bob));
    reflexivity.
Defined.

(* ================================================================== *)
(** ** C8: login *)
(* ================================================================== *)

Lemma run_generateAccessToken ext env this w r :
  run (generateAccessToken ext env this) w r =
  (jwt_sign ext (access_claims this) (JWT_SECRET env) (JWT_EXPIRE env) (clock w), w, r).
Proof.
  unfold generateAccessToken, access_claims. simpl.
  destruct (jwt_sign _ _ _ _ _); reflexivity.
Qed.

Lemma findOne_app_skip {D} (filter : D -> bool) before d after :
  (forall x, In x before -> filter x = false) ->
  filter d = true ->
  Mongoose.findOne filter (before ++ d :: after) = Some d.
Proof.
  unfold Mongoose.findOne. intros Hb Hd.
  induction before as [| x rest IH]; simpl.
  - rewrite Hd. reflexivity.
  - rewrite (Hb x (or_introl eq_refl)). apply IH. intros y Hy. apply Hb. right. exact Hy.
Qed.

(** [login] up to the activity check: the three failures. *)
Lemma run_login_rejected ext env req email password w r :
  Req.body_email req = Some email ->
  Req.body_password req = Some password ->
  JS.truthy email = true -> JS.truthy password = true ->
  faults w = [] ->
  (account_for email w = None
   \/ exists a hash, account_for email w = Some a /\ Admin.password a = Some hash
                      /\ bcrypt_compare ext password hash = false) ->
  run (login ext env req) w r = (inr (NextError (AppError "Invalid credentials" 401)), w, r).
Proof.
  intros He Hp Hte Htp Hf Hcase.
  unfold login, asyncHandler. rewrite He, Hp, Hte, Htp. cbn [andb negb].
  rewrite run_try_catch, run_bind.
  unfold Admin_findOne_email. rewrite run_perform. cbn [exec].
  rewrite (round_trip_up _ _ Hf). fold (account_for email w).
  destruct Hcase as [-> | (a & hash & -> & Hhash & Hcmp)]; [reflexivity|].
  cbn [option_map project]. rewrite run_bind. unfold comparePassword.
  rewrite Hhash. cbn [run]. rewrite Hcmp. reflexivity.
Qed.

Lemma run_login_deactivated ext env req email password w r a hash :
  Req.body_email req = Some email ->
  Req.body_password req = Some password ->
  JS.truthy email = true -> JS.truthy password = true ->
  faults w = [] ->
  account_for email w = Some a ->
  Admin.password a = Some hash ->
  bcrypt_compare ext password hash = true ->
  Admin.isActive a = false ->
  run (login ext env req) w r = (inr (NextError (AppError "Account is deactivated" 401)), w, r).
Proof.
  intros He Hp Hte Htp Hf Hfound Hhash Hcmp Hact.
  unfold login, asyncHandler. rewrite He, Hp, Hte, Htp. cbn [andb negb].
  rewrite run_try_catch, run_bind.
  unfold Admin_findOne_email. rewrite run_perform. cbn [exec].
  rewrite (round_trip_up _ _ Hf). fold (account_for email w). rewrite Hfound.
  cbn [option_map project]. rewrite run_bind. unfold comparePassword.
  rewrite Hhash. cbn [run]. rewrite Hcmp, Hact. reflexivity.
Qed.

(** [login] past the activity check: the account as saved, then the
    two mints. *)
Lemma run_login_authenticated ext env req email password w r a hash :
  Req.body_email req = Some email ->
  Req.body_password req = Some password ->
  JS.truthy email = true -> JS.truthy password = true ->
  faults w = [] ->
  account_for email w = Some a ->
  Admin.password a = Some hash ->
  bcrypt_compare ext password hash = true ->
  Admin.isActive a = true ->
  let seen := Admin.with_lastLogin (Some (clock w)) a in
  let saved := Admin.with_updatedAt (clock w) seen in
  run (login ext env req) w r =
  match Mongoose.findOneAndUpdate (fun x => Nat.eqb (Admin._id x) (Admin._id a))
          (apply_modified [P_lastLogin] seen (clock w)) (admins w) with
  | (None, _) => (inr (NextError DocumentNotFoundError), w, r)
  | (Some _, admins') =>
      match jwt_sign ext (access_claims saved) (JWT_SECRET env) (JWT_EXPIRE env) (clock w) with
      | inl e => (inr (NextError e), with_admins admins' w, r)
      | inr accessToken =>
          match run (generateRefreshToken ext env saved) (with_admins admins' w) r with
          | (inl e, w', r') => (inr (NextError e), w', r')
          | (inr refreshToken, w', r') =>
              (inr Sent, w',
               Res.mk (Res.statusCode r')
                 (Res.cookies r'
                  ++ [SetCookie "refreshToken" refreshToken
                        (mkCookieOptions true (isProd env)
                           (if isProd env then "none" else "lax")
                           (Some (7 * 24 * 60 * 60 * 1000)) "/" (cookieDomain env))])
                 (Some (mkBody true "Login successful"
                          (Some (Admin.with_password None saved)) (Some accessToken))))
          end
      end
  end.
Proof.
  intros He Hp Hte Htp Hf Hfound Hhash Hcmp Hact seen saved.
  unfold login, asyncHandler. rewrite He, Hp, Hte, Htp. cbn [andb negb].
  rewrite run_try_catch, run_bind.
  unfold Admin_findOne_email. rewrite run_perform. cbn [exec].
  rewrite (round_trip_up _ _ Hf). fold (account_for email w). rewrite Hfound.
  cbn [option_map project]. rewrite run_bind. unfold comparePassword.
  rewrite Hhash. cbn [run]. rewrite Hcmp, Hact. cbn [negb].
  rewrite run_bind, run_perform. cbn [exec].
  rewrite run_bind. unfold Admin_save. rewrite run_perform. cbn [exec].
  rewrite (round_trip_up _ _ Hf).
  change (pre_save ext [P_lastLogin] (Admin.with_lastLogin (Some (clock w)) a)) with seen.
  change (Admin._id seen) with (Admin._id a).
  destruct (Mongoose.findOneAndUpdate _ _ (admins w)) as [[stored|] admins']; [|reflexivity].
  fold saved.
  rewrite run_bind, run_generateAccessToken.
  destruct (jwt_sign _ _ _ _ _) as [e | accessToken]; [reflexivity|].
  rewrite run_bind.
  destruct (run (generateRefreshToken ext env saved) (with_admins admins' w) r)
    as [[[e | refreshToken] w'] r']; reflexivity.
Qed.

Lemma generateRefreshToken_frame ext env this w r x w' r' :
  run (generateRefreshToken ext env this) w r = (x, w', r') ->
  admins w' = admins w /\ clock w' = clock w /\ r' = r.
Proof.
  rewrite run_generateRefreshToken.
  destruct (jwt_sign _ _ _ _ _) as [e | tok]; [intros [= <- <- <-]; auto|].
  destruct (JWT_REFRESH_EXPIRE env) as [s|]; [|intros [= <- <- <-]; auto].
  destruct (expiresInSeconds s) as [secs|]; [|intros [= <- <- <-]; auto].
  unfold round_trip.
  destruct (faults w) as [| [|] script]; simpl;
    try destruct (existsb _ _); intros [= <- <- <-]; auto.
Qed.

(** C8.  [login] with an e-mail address and a password, the store
    answering: when no account exists for the address, and when the
    password does not match the stored hash, it fails with the same
    error, "Invalid credentials" with status 401; when the password
    matches and the account's active flag is false it fails with
    "Account is deactivated", status 401; and on success the stored
    account's last-login timestamp is the clock of the login, and the
    response carries the account without its password, with an access
    token signed over the account's id, e-mail and role.  And it does
    succeed: when the password matches and the account is active, the
    two tokens can be signed and the refresh token is new to the ledger,
    the response is sent with the account, password removed and
    last-login set, and the access token. *)
Theorem login_outcomes ext env req email password w r :
  Req.body_email req = Some email ->
  Req.body_password req = Some password ->
  JS.truthy email = true ->
  JS.truthy password = true ->
  faults w = [] ->
  (account_for email w = None ->
   run (login ext env req) w r
   = (inr (NextError (AppError "Invalid credentials" 401)), w, r))
  /\
  (forall a hash,
     account_for email w = Some a ->
     Admin.password a = Some hash ->
     (bcrypt_compare ext password hash = false ->
      run (login ext env req) w r
      = (inr (NextError (AppError "Invalid credentials" 401)), w, r))
     /\
     (bcrypt_compare ext password hash = true ->
      Admin.isActive a = false ->
      run (login ext env req) w r
      = (inr (NextError (AppError "Account is deactivated" 401)), w, r))
     /\
     (forall w' r',
        run (login ext env req) w r = (inr Sent, w', r') ->
        (exists stored,
           account_by_id (Admin._id a) w' = Some stored
           /\ Admin.lastLogin stored = Some (clock w))
        /\
        (exists account accessToken,
           Res.body r' = Some (mkBody true "Login successful" (Some account) (Some accessToken))
           /\ Admin.password account = None
           /\ Admin._id account = Admin._id a
           /\ Admin.email account = Admin.email a
           /\ Admin.role account = Admin.role a
           /\ Admin.lastLogin account = Some (clock w)
           /\ jwt_sign ext (access_claims a) (JWT_SECRET env) (JWT_EXPIRE env) (clock w)
              = inr accessToken)
        /\ Res.statusCode r' = Res.statusCode r)
     /\
     (bcrypt_compare ext password hash = true ->
      Admin.isActive a = true ->
      forall accessToken refreshTok s secs,
        jwt_sign ext (access_claims a) (JWT_SECRET env) (JWT_EXPIRE env) (clock w)
        = inr accessToken ->
        jwt_sign ext (mkClaims (Admin._id a) None None)
          (JWT_REFRESH_SECRET env) (JWT_REFRESH_EXPIRE env) (clock w) = inr refreshTok ->
        JWT_REFRESH_EXPIRE env = Some s ->
        expiresInSeconds s = Some secs ->
        (forall x, In x (refreshTokens w) -> RefreshToken.token x <> refreshTok) ->
        exists w' r' opts,
          run (login ext env req) w r = (inr Sent, w', r')
          /\ Res.body r'
             = Some (mkBody true "Login successful"
                       (Some (Admin.with_password None
                                (Admin.with_updatedAt (clock w)
                                   (Admin.with_lastLogin (Some (clock w)) a))))
                       (Some accessToken))
          /\ Res.cookies r' = Res.cookies r ++ [SetCookie "refreshToken" refreshTok opts]
          /\ refreshTokens w'
             = refreshTokens w ++ [minted_row refreshTok (Admin._id a) (clock w) secs])).
Proof.
  intros He Hp Hte Htp Hf. split.
  - intros Hnone. apply (run_login_rejected ext env req email password); auto.
  - intros a hash Hfound Hhash. split; [|split; [|split]].
    + intros Hcmp. apply (run_login_rejected ext env req email password); auto.
      right. exists a, hash. auto.
    + intros Hcmp Hact.
      apply (run_login_deactivated ext env req email password w r a hash); auto.
    + intros w' r' Hrun.
      destruct (bcrypt_compare ext password hash) eqn:Hcmp.
      2:{ rewrite (run_login_rejected ext env req email password w r) in Hrun; auto.
          - discriminate.
          - right. exists a, hash. auto. }
      destruct (Admin.isActive a) eqn:Hact.
      2:{ rewrite (run_login_deactivated ext env req email password w r a hash) in Hrun;
            auto. discriminate. }
      rewrite (run_login_authenticated ext env req email password w r a hash) in Hrun; auto.
      destruct (Mongoose.findOne (fun x => Nat.eqb (Admin._id x) (Admin._id a)) (admins w))
        as [d|] eqn:Hd.
      2:{ rewrite (findOneAndUpdate_None _ _ _ Hd) in Hrun. discriminate. }
      destruct (findOneAndUpdate_Some _
                  (apply_modified [P_lastLogin]
                     (Admin.with_lastLogin (Some (clock w)) a) (clock w)) _ _ Hd)
        as (before & after & Hadmins & Hbefore & Hupd).
      rewrite Hupd in Hrun.
      destruct (jwt_sign _ _ _ _ _) as [e | accessToken] eqn:Hsign; [discriminate|].
      destruct (run (generateRefreshToken _ _ _) _ _) as [[[e | refreshToken] w1] r1] eqn:Hmint;
        [discriminate|].
      destruct (generateRefreshToken_frame _ _ _ _ _ _ _ _ Hmint) as (Hadm & _ & ->).
      inversion Hrun; subst w' r'; clear Hrun.
      split; [|split].
      * eexists. unfold account_by_id. rewrite Hadm. cbn [admins with_admins].
        split.
        -- apply findOne_app_skip; [exact Hbefore|].
           cbn [apply_modified Admin._id]. apply (findOne_Some _ _ _ Hd).
        -- reflexivity.
      * do 2 eexists. cbn [Res.body]. split; [reflexivity|].
        cbn. repeat split; auto.
      * reflexivity.
    + intros Hcmp Hact accessToken refreshTok s secs Haccess Hsign Hs Hsecs Hfresh.
      rewrite (run_login_authenticated ext env req email password w r a hash); auto.
      destruct (Mongoose.findOne (fun x => Nat.eqb (Admin._id x) (Admin._id a)) (admins w))
        as [d|] eqn:Hd.
      2:{ exfalso. unfold account_for in Hfound.
          apply findOne_Some in Hfound as [Hin _].
          pose proof (proj1 (findOne_None _ _) Hd a Hin) as Hid.
          cbn beta in Hid. rewrite Nat.eqb_refl in Hid. discriminate. }
      destruct (findOneAndUpdate_Some _
                  (apply_modified [P_lastLogin]
                     (Admin.with_lastLogin (Some (clock w)) a) (clock w)) _ _ Hd)
        as (before & after & Hadmins & Hbefore & Hupd).
      rewrite Hupd.
      change (access_claims (Admin.with_updatedAt (clock w)
                               (Admin.with_lastLogin (Some (clock w)) a)))
        with (access_claims a).
      rewrite Haccess.
      rewrite (run_generateRefreshToken_ok ext env _ _ r refreshTok s secs); auto.
      do 3 eexists. split; [reflexivity|].
      cbn [Res.body Res.cookies refreshTokens with_refreshTokens with_admins Admin._id
           Admin.with_updatedAt Admin.with_lastLogin clock].
      repeat split; reflexivity.
Qed.

(** Five logins against the fixture: an unknown address, Alice with a
    wrong password, Bob (deactivated) with his password, and Alice with
    hers -- what a success has done, and that it is one. *)
Lemma login_outcomes_witness :
  run (login Fixture.ext Fixture.env (Fixture.with_credentials "nobody@x.com" "Secr3t!"))
      Fixture.world Res.fresh
  = (inr (NextError (AppError "Invalid credentials" 401)), Fixture.world, Res.fresh)
  /\
  run (login Fixture.ext Fixture.env (Fixture.with_credentials "a@x.com" "wrong"))
      Fixture.world Res.fresh
  = (inr (NextError (AppError "Invalid credentials" 401)), Fixture.world, Res.fresh)
  /\
  run (login Fixture.ext Fixture.env (Fixture.with_credentials "b@x.com" "hunter22"))
      Fixture.world Res.fresh
  = (inr (NextError (AppError "Account is deactivated" 401)), Fixture.world, Res.fresh)
  /\
  (exists stored,
     account_by_id 1%nat
       (snd (fst (run (login Fixture.ext Fixture.env
                         (Fixture.with_credentials "A@x.com" "Secr3t!"))
                      Fixture.world Res.fresh))) = Some stored
     /\ Admin.lastLogin stored = Some 2000000)
  /\
  (exists w' r' opts,
     run (login Fixture.ext Fixture.env (Fixture.with_credentials "A@x.com" "Secr3t!"))
         Fixture.world Res.fresh = (inr Sent, w', r')
     /\ Res.body r'
        = Some (mkBody true "Login successful"
                  (Some (Admin.with_password None
                           (Admin.with_updatedAt 2000000
                              (Admin.with_lastLogin (Some 2000000) Fixture.alice))))
                  (Some (Jwt "access-secret" (access_claims Fixture.alice) 2000 2900)))
     /\ Res.cookies r'
        = [] ++ [SetCookie "refreshToken"
                   (Jwt "refresh-secret" (mkClaims 1%nat None None) 2000 606800) opts]
     /\ refreshTokens w'
        = [Fixture.row Fixture.alice false; Fixture.row Fixture.bob false]
          ++ [minted_row (Jwt "refresh-secret" (mkClaims 1%nat None None) 2000 606800)
                         1%nat 2000000 604800]).
Proof.
  pose (ok := fun email password =>
          login_outcomes Fixture.ext Fixture.env (Fixture.with_credentials email password)
            email password Fixture.world Res.fresh
            eq_refl eq_refl).
  split; [|split; [|split; [|split]]].
  - apply (proj1 (ok "nobody@x.com" "Secr3t!" eq_refl eq_refl eq_refl)). reflexivity.
  - apply (proj1 (proj2 (ok "a@x.com" "wrong" eq_refl eq_refl eq_refl)
                    Fixture.alice "$2a$12$Secr3t!" eq_refl eq_refl)).
    reflexivity.
  - apply (proj1 (proj2 (proj2 (ok "b@x.com" "hunter22" eq_refl eq_refl eq_refl)
                           Fixture.bob "$2a$12$hunter22" eq_refl eq_refl)));
      reflexivity.
  - apply (proj1 (proj1 (proj2 (proj2 (proj2 (ok "A@x.com" "Secr3t!" eq_refl eq_refl eq_refl)
                                         Fixture.alice "$2a$12$Secr3t!" eq_refl eq_refl)))
                    _ _ eq_refl)).
  - apply (proj2 (proj2 (proj2 (proj2 (ok "A@x.com" "Secr3t!" eq_refl eq_refl eq_refl)
                                  Fixture.alice "$2a$12$Secr3t!" eq_refl eq_refl)))
             eq_refl eq_refl
             (Jwt "access-secret" (access_claims Fixture.alice) 2000 2900)
             (Jwt "refresh-secret" (mkClaims 1%nat None None) 2000 606800)
             "7d" 604800); try reflexivity.
    intros x [<- | [<- | []]]; discriminate.
Defined.

(* ================================================================== *)
(** ** C9: an access token and the guard *)
(* ================================================================== *)

(** [protect] on a request whose header is ["<scheme> <tok> ..."], with
    the scheme reading "bearer" and [tok] a signed token. *)
Lemma run_protect_bearer env req scheme key claims iat exp more w r :
  Req.authorization req = Some (Opaque scheme :: Jwt key claims iat exp :: more) ->
  JS.toLowerCase scheme = "bearer" ->
  run (protect env req) w r =
  match jwt_verify (Jwt key claims iat exp) (JWT_SECRET env) (clock w) with
  | inl e =>
      (inr (NextError (AppError (if String.eqb (err_name e) "TokenExpiredError"
                                 then "Token expired" else "Token is not valid") 401)), w, r)
  | inr decoded =>
      let looked_up (w : World) :=
        match account_by_id (claim_id decoded) w with
        | None => (inr (NextError (AppError "Token is not valid" 401)), w, r)
        | Some account =>
            if Admin.isActive account
            then (inr (Next (Req.with_admin (Admin.with_password None account) req)), w, r)
            else (inr (NextError (AppError "Account is deactivated" 401)), w, r)
        end in
      match faults w with
      | true :: script =>
          (inr (NextError (AppError "Token is not valid" 401)), with_faults script w, r)
      | false :: script => looked_up (with_faults script w)
      | [] => looked_up w
      end
  end.
Proof.
  intros Hh Hs. unfold protect, asyncHandler, bearer. rewrite Hh, Hs.
  cbn [String.eqb Ascii.eqb Bool.eqb falsy Token_truthy negb andb].
  rewrite !run_try_catch, run_bind, run_perform. cbn [exec].
  rewrite run_bind.
  destruct (jwt_verify _ _ _) as [e | decoded]; cbn [lift run].
  - destruct (String.eqb (err_name e) "TokenExpiredError"); reflexivity.
  - rewrite run_bind. unfold Admin_findById. rewrite run_perform. cbn [exec].
    unfold account_by_id, round_trip.
    destruct (faults w) as [| [|] script]; cbn [admins with_faults];
      try reflexivity;
      destruct (Mongoose.findOne _ (admins w)) as [account|];
      cbn [option_map project run]; try reflexivity;
      change (Admin.isActive (Admin.with_password None account))
        with (Admin.isActive account);
      destruct (Admin.isActive account); reflexivity.
Qed.

(** C9.  A token minted by [generateAccessToken] for an account, when
    presented as a bearer token to [protect], is accepted for as long as
    its time to live has not elapsed on the token's clock (whole
    seconds), provided the store still holds the account and it is
    active; from the second the time to live has elapsed it is rejected
    with "Token expired", which is not the message of an invalid token;
    within its life it is rejected with "Token is not valid" when the
    account no longer exists and with "Account is deactivated" when the
    account is inactive. *)
Theorem access_token_round_trip ext env a w0 r0 tok w0' r0' e ttl :
  run (generateAccessToken ext env a) w0 r0 = (inr tok, w0', r0') ->
  JWT_EXPIRE env = Some e ->
  timespan ext e = Some ttl ->
  forall req scheme more w r,
    Req.authorization req = Some (Opaque scheme :: tok :: more) ->
    JS.toLowerCase scheme = "bearer" ->
    (clock w0 / 1000 + ttl <= clock w / 1000 ->
     run (protect env req) w r
     = (inr (NextError (AppError "Token expired" 401)), w, r))
    /\
    (clock w / 1000 < clock w0 / 1000 + ttl ->
     faults w = [] ->
     (forall account,
        account_by_id (Admin._id a) w = Some account ->
        Admin.isActive account = true ->
        run (protect env req) w r
        = (inr (Next (Req.with_admin (Admin.with_password None account) req)), w, r))
     /\
     (account_by_id (Admin._id a) w = None ->
      run (protect env req) w r
      = (inr (NextError (AppError "Token is not valid" 401)), w, r))
     /\
     (forall account,
        account_by_id (Admin._id a) w = Some account ->
        Admin.isActive account = false ->
        run (protect env req) w r
        = (inr (NextError (AppError "Account is deactivated" 401)), w, r))).
Proof.
  intros Hmint He Httl req scheme more w r Hh Hs.
  rewrite run_generateAccessToken in Hmint. injection Hmint as Hsign Hw Hr.
  destruct (jwt_sign_inr _ _ _ _ _ _ Hsign) as (k & e' & ttl' & Hk & Hkt & He' & Httl' & ->).
  assert (ttl' = ttl) as -> by congruence.
  rewrite (run_protect_bearer env req scheme _ _ _ _ more w r Hh Hs).
  unfold jwt_verify. rewrite Hk, Hkt, String.eqb_refl.
  split.
  - intros Hexp. apply Z.leb_le in Hexp. rewrite Hexp. reflexivity.
  - intros Hlive Hf. apply Z.leb_gt in Hlive. rewrite Hlive.
    rewrite Hf. cbn [access_claims claim_id].
    split; [|split].
    + intros account -> ->. reflexivity.
    + intros ->. reflexivity.
    + intros account -> ->. reflexivity.
Qed.

(** Alice's access token, minted at clock 2000000 with 900 seconds to
    live: expired at clock 2900000, accepted at clock 2899999. *)
Lemma access_token_round_trip_witness :
  run (protect Fixture.env
         (Fixture.with_bearer (Jwt "access-secret" (access_claims Fixture.alice) 2000 2900)))
      (with_clock 2900000 Fixture.world) Res.fresh
  = (inr (NextError (AppError "Token expired" 401)), with_clock 2900000 Fixture.world, Res.fresh)
  /\
  run (protect Fixture.env
         (Fixture.with_bearer (Jwt "access-secret" (access_claims Fixture.alice) 2000 2900)))
      (with_clock 2899999 Fixture.world) Res.fresh
  = (inr (Next (Req.with_admin (Admin.with_password None Fixture.alice)
                  (Fixture.with_bearer
                     (Jwt "access-secret" (access_claims Fixture.alice) 2000 2900)))),
     with_clock 2899999 Fixture.world, Res.fresh).
Proof.
  pose (minted := fun w =>
          access_token_round_trip Fixture.ext Fixture.env Fixture.alice
            Fixture.world Res.fresh
            (Jwt "access-secret" (access_claims Fixture.alice) 2000 2900)
            Fixture.world Res.fresh "15m" 900 eq_refl eq_refl eq_refl
            (Fixture.with_bearer (Jwt "access-secret" (access_claims Fixture.alice) 2000 2900))
            "Bearer" [] w Res.fresh eq_refl eq_refl).
  split.
  - apply (proj1 (minted (with_clock 2900000 Fixture.world))). vm_compute. discriminate.
  - apply (proj1 (proj2 (minted (with_clock 2899999 Fixture.world)) eq_refl eq_refl)
             Fixture.alice); reflexivity.
Defined.

(* ================================================================== *)
(** ** C7: register *)
(* ================================================================== *)

Lemma validate_admin_password ext name email password role :
  validate_admin ext name email password role = [] ->
  exists p, password = Some p.
Proof.
  unfold validate_admin. intros H.
  apply app_eq_nil in H as [_ H]. apply app_eq_nil in H as [_ H].
  apply app_eq_nil in H as [H _].
  destruct password as [p|]; [exists p; reflexivity | discriminate].
Qed.

Lemma existsb_email_account_for e w :
  account_for e w = None ->
  List.existsb (fun a => String.eqb (Admin.email a) (JS.toLowerCase e)) (admins w) = false.
Proof.
  unfold account_for. intros H.
  destruct (existsb _ _) eqn:E; [|reflexivity].
  apply existsb_exists in E as (a & Ha & Hm).
  rewrite (proj1 (findOne_None _ _) H a Ha) in Hm. discriminate.
Qed.

(** The account [Admin.create] stores and returns. *)
Lemma run_Admin_create ext name email password role w r :
  faults w = [] ->
  run (Admin_create ext name email password role) w r =
  match validate_admin ext (option_map JS.trim name) (option_map JS.toLowerCase email)
          password role, name, email with
  | [], Some n, Some e =>
      if List.existsb (fun a => String.eqb (Admin.email a) (JS.toLowerCase e)) (admins w)
      then (inl DuplicateKeyError, w, r)
      else
        let stored :=
          Admin.mk (nextId w) (JS.trim n) (JS.toLowerCase e)
            (option_map (bcrypt_hash ext) password) role true None None None
            (clock w) (clock w) in
        (inr stored, with_nextId (S (nextId w)) (with_admins (admins w ++ [stored]) w), r)
  | failed, _, _ => (inl (ValidationError (validation_failed failed)), w, r)
  end.
Proof.
  intros Hf. unfold Admin_create.
  destruct name as [n|], email as [e|]; cbn [option_map];
    destruct (validate_admin _ _ _ _ _) as [| m failed]; try reflexivity.
  rewrite run_perform. cbn [exec]. rewrite (round_trip_up _ _ Hf).
  cbn [pre_save isModified existsb AdminPath_eqb orb negb Admin.with_password
       Admin.email Admin.name Admin.password Admin.role Admin.isActive Admin.lastLogin
       Admin.passwordResetToken Admin.passwordResetExpires].
  destruct (existsb _ (admins w)); reflexivity.
Qed.

(** [register] for an address no account holds yet. *)
Lemma run_register_new ext env req w r :
  faults w = [] ->
  match Req.body_email req with Some e => account_for e w | None => None end = None ->
  run (register ext env req) w r =
  match run (Admin_create ext (Req.body_name req) (Req.body_email req) (Req.body_password req)
               (match Req.body_role req with Some role => role | None => "admin" end)) w r with
  | (inl e, w1, r1) => (inr (NextError e), w1, r1)
  | (inr admin, w1, r1) =>
      match jwt_sign ext (access_claims admin) (JWT_SECRET env) (JWT_EXPIRE env) (clock w1) with
      | inl e => (inr (NextError e), w1, r1)
      | inr accessToken =>
          match run (generateRefreshToken ext env admin) w1 r1 with
          | (inl e, w2, r2) => (inr (NextError e), w2, r2)
          | (inr refreshToken, w2, r2) =>
              (inr Sent, w2,
               Res.mk 201
                 (Res.cookies r2
                  ++ [SetCookie "refreshToken" refreshToken
                        (mkCookieOptions true (isProd env)
                           (if isProd env then "none" else "lax")
                           (Some (7 * 24 * 60 * 60 * 1000)) "/" (cookieDomain env))])
                 (Some (mkBody true "Admin registered successfully"
                          (Some admin) (Some accessToken))))
          end
      end
  end.
Proof.
  intros Hf Hnew. unfold register, asyncHandler.
  rewrite run_try_catch, run_bind.
  unfold Admin_findOne_email. rewrite run_perform. cbn [exec].
  rewrite (round_trip_up _ _ Hf).
  replace (Mongoose.findOne _ (admins w)) with (@None Admin.t).
  2:{ destruct (Req.body_email req) as [e|].
      - symmetry. exact Hnew.
      - symmetry. apply findOne_None. reflexivity. }
  cbn [option_map]. rewrite run_bind.
  destruct (run (Admin_create _ _ _ _ _) w r) as [[[e | admin] w1] r1]; [reflexivity|].
  rewrite run_bind, run_generateAccessToken.
  destruct (jwt_sign _ _ _ _ _) as [e | accessToken]; [reflexivity|].
  rewrite run_bind.
  destruct (run (generateRefreshToken ext env admin) w1 r1) as [[[e | refreshToken] w2] r2];
    reflexivity.
Qed.

(** C7 (the code does otherwise on one point).  With the store
    answering, [register] fails with "Admin with this email already
    exists" and status 400 when an account holds the address; on success
    it has stored the account with the hash of the password, answers 201
    with an access token for the account and sets the refresh cookie --
    but the account in the response is the stored document as it is, so
    its password field is present and holds the hash: the field is not
    stripped. *)
Theorem register_outcomes ext env req w r :
  faults w = [] ->
  (forall email existing,
     Req.body_email req = Some email ->
     account_for email w = Some existing ->
     run (register ext env req) w r
     = (inr (NextError (AppError "Admin with this email already exists" 400)), w, r))
  /\
  (forall w' r',
     run (register ext env req) w r = (inr Sent, w', r') ->
     exists email password account accessToken refreshToken opts,
       Req.body_email req = Some email
       /\ Req.body_password req = Some password
       /\ account_for email w = None
       /\ account_for email w' = Some account
       /\ Admin.password account = Some (bcrypt_hash ext password)
       /\ Res.statusCode r' = 201
       /\ Res.body r' = Some (mkBody true "Admin registered successfully"
                                (Some account) (Some accessToken))
       /\ jwt_sign ext (access_claims account) (JWT_SECRET env) (JWT_EXPIRE env) (clock w)
          = inr accessToken
       /\ Res.cookies r' = Res.cookies r ++ [SetCookie "refreshToken" refreshToken opts]).
Proof.
  intros Hf. split.
  - intros email existing He Hex. unfold register, asyncHandler.
    rewrite run_try_catch, run_bind.
    unfold Admin_findOne_email. rewrite run_perform. cbn [exec].
    rewrite (round_trip_up _ _ Hf), He. fold (account_for email w). rewrite Hex. reflexivity.
  - intros w' r' Hrun.
    destruct (match Req.body_email req with Some e => account_for e w | None => None end)
      as [existing|] eqn:Hnew.
    { destruct (Req.body_email req) as [e|] eqn:He; [|discriminate].
      unfold register, asyncHandler in Hrun.
      rewrite run_try_catch, run_bind in Hrun.
      unfold Admin_findOne_email in Hrun. rewrite run_perform in Hrun. cbn [exec] in Hrun.
      rewrite (round_trip_up _ _ Hf), He in Hrun. fold (account_for e w) in Hrun.
      rewrite Hnew in Hrun. discriminate. }
    rewrite (run_register_new ext env req w r Hf Hnew) in Hrun.
    rewrite (run_Admin_create ext _ _ _ _ w r Hf) in Hrun.
    destruct (validate_admin _ _ _ _ _) as [| m failed] eqn:Hvalid.
    2:{ destruct (Req.body_name req), (Req.body_email req); discriminate. }
    destruct (validate_admin_password _ _ _ _ _ Hvalid) as (password & Hp).
    destruct (Req.body_name req) as [n|]; [|discriminate].
    destruct (Req.body_email req) as [e|] eqn:He; [|discriminate].
    destruct (existsb _ (admins w)) eqn:Hdup; [discriminate|].
    cbv zeta in Hrun. cbn [clock with_nextId with_admins] in Hrun.
    destruct (jwt_sign _ _ _ _ _) as [err | accessToken] eqn:Hsign; [discriminate|].
    destruct (run (generateRefreshToken _ _ _) _ _) as [[[err | refreshToken] w2] r2] eqn:Hmint;
      [discriminate|].
    destruct (generateRefreshToken_frame _ _ _ _ _ _ _ _ Hmint) as (Hadm & _ & ->).
    injection Hrun as <- <-.
    eexists e, password, _, accessToken, refreshToken, _.
    split; [reflexivity|]. split; [exact Hp|]. split; [exact Hnew|].
    split; [|split; [|split; [reflexivity | split; [reflexivity | split; [exact Hsign | reflexivity]]]]].
    + unfold account_for. rewrite Hadm. cbn [admins with_nextId with_admins].
      apply findOne_app_skip.
      * apply findOne_None. exact Hnew.
      * cbn [Admin.email]. apply String.eqb_refl.
    + rewrite Hp. reflexivity.
Qed.

(** A second registration of Alice's address; and Carol, whose response
    carries the hash of her password. *)
Lemma register_outcomes_witness :
  run (register Fixture.ext Fixture.env
         (Req.mk None None None (Some "Alice") (Some "A@x.com") (Some "Secr3t!") None
                 None None None))
      Fixture.world Res.fresh
  = (inr (NextError (AppError "Admin with this email already exists" 400)),
     Fixture.world, Res.fresh)
  /\
  exists account accessToken,
    Res.body (snd (run (register Fixture.ext Fixture.env Fixture.carol)
                       Fixture.world Res.fresh))
    = Some (mkBody true "Admin registered successfully" (Some account) (Some accessToken))
    /\ Admin.password account = Some "$2a$12$pa55word".
Proof.
  split.
  - apply (proj1 (register_outcomes Fixture.ext Fixture.env _ Fixture.world Res.fresh eq_refl)
             "A@x.com" Fixture.alice); reflexivity.
  - destruct (proj2 (register_outcomes Fixture.ext Fixture.env Fixture.carol
                       Fixture.world Res.fresh eq_refl)
                    (snd (fst (run (register Fixture.ext Fixture.env Fixture.carol)
                                   Fixture.world Res.fresh)))
                    (snd (run (register Fixture.ext Fixture.env Fixture.carol)
                              Fixture.world Res.fresh))
                    eq_refl)
      as (email & password & account & accessToken & refreshToken & opts
          & He & Hp & _ & _ & Hhash & _ & Hbody & _).
    exists account, accessToken. split; [exact Hbody|].
    injection Hp as <-. exact Hhash.
Defined.

(* ================================================================== *)
(** ** The rotation handler *)
(* ================================================================== *)

Lemma run_revoke_all_logged a label w r :
  run (revoke_all_logged (Some a) label) w r =
  match faults w with
  | true :: script =>
      (inr tt,
       with_console (console w ++ [(label ++ " " ++ err_message MongoNetworkError)%string])
         (with_faults script w), r)
  | false :: script =>
      (inr tt,
       with_refreshTokens
         (Mongoose.updateMany
            (fun d => (Nat.eqb (RefreshToken.user d) (Admin._id a)
                       && negb (RefreshToken.isRevoked d))%bool)
            (set_revoked (clock w)) (refreshTokens w))
         (with_faults script w), r)
  | [] =>
      (inr tt,
       with_refreshTokens
         (Mongoose.updateMany
            (fun d => (Nat.eqb (RefreshToken.user d) (Admin._id a)
                       && negb (RefreshToken.isRevoked d))%bool)
            (set_revoked (clock w)) (refreshTokens w))
         w, r)
  end.
Proof.
  unfold revoke_all_logged, revokeAllForUser, id_of.
  rewrite run_try_catch. cbn [bind]. rewrite run_bind, run_perform. cbn [exec].
  unfold round_trip. destruct (faults w) as [| [|] script]; reflexivity.
Qed.

(** What is left of [refreshToken] once the presented row is consumed:
    mint the new refresh token, set the cookie, sign the access token,
    answer. *)
Lemma run_refreshToken ext env req d a w r :
  Req.tokenDoc req = Some d ->
  Req.admin req = Some a ->
  RefreshToken.isRevoked (RefreshToken.doc d) = false ->
  Token_truthy (RefreshToken.token (RefreshToken.doc d)) = true ->
  let unrevoked row :=
    (Token_eqb (RefreshToken.token row) (RefreshToken.token (RefreshToken.doc d))
     && negb (RefreshToken.isRevoked row))%bool in
  let cookie t :=
    SetCookie "refreshToken" t
      (mkCookieOptions true (isProd env) (if isProd env then "none" else "lax")
         (Some (7 * 24 * 60 * 60 * 1000)) "/" (cookieDomain env)) in
  let mint (w1 : World) :=
    match run (generateRefreshToken ext env a) w1 r with
    | (inl e, w2, r2) => (inr (NextError e), w2, r2)
    | (inr newRefreshToken, w2, r2) =>
        match jwt_sign ext (access_claims a) (JWT_SECRET env) (JWT_EXPIRE env) (clock w2) with
        | inl e =>
            (inr (NextError e), w2,
             Res.mk (Res.statusCode r2) (Res.cookies r2 ++ [cookie newRefreshToken])
                    (Res.body r2))
        | inr accessToken =>
            (inr Sent, w2,
             Res.mk (Res.statusCode r2) (Res.cookies r2 ++ [cookie newRefreshToken])
                    (Some (mkBody true "Token refreshed successfully" None (Some accessToken))))
        end
    end in
  let consume (w0 : World) :=
    match Mongoose.findOneAndUpdate unrevoked (set_revoked (clock w0)) (refreshTokens w0) with
    | (None, rows) =>
        let '(_, w1, r1) :=
          run (revoke_all_logged (Some a)
                 "Error revoking all tokens after atomic consume failure:")
              (with_refreshTokens rows w0) r in
        (inr (NextError reuse_detected), w1, r1)
    | (Some _, rows) => mint (with_refreshTokens rows w0)
    end in
  run (refreshToken ext env req) w r =
  match faults w with
  | true :: script =>
      mint (with_console
              (console w ++ [("Error consuming old refresh token during rotation: "
                              ++ err_message MongoNetworkError)%string])
              (with_faults script w))
  | false :: script => consume (with_faults script w)
  | [] => consume w
  end.
Proof.
  intros Hd Ha Hrev Htok unrevoked cookie mint consume.
  assert (Hmint : forall w1,
    run (try_catch
           (newRefreshToken <- generateRefreshToken ext env a ;;
            setRefreshTokenCookie env newRefreshToken ;;
            accessToken <- generateAccessToken ext env a ;;
            perform (ResJson (mkBody true "Token refreshed successfully" None
                                (Some accessToken))) ;;
            Ret Sent)
           (fun err => Ret (NextError err))) w1 r = mint w1).
  { intros w1. unfold mint. rewrite run_try_catch, run_bind.
    destruct (run (generateRefreshToken ext env a) w1 r) as [[[e | t] w2] r2]; [reflexivity|].
    rewrite run_bind. unfold setRefreshTokenCookie. rewrite run_perform. cbn [exec].
    rewrite run_bind, run_generateAccessToken.
    destruct (jwt_sign _ _ _ _ _) as [e | accessToken]; reflexivity. }
  unfold refreshToken, asyncHandler. rewrite Hd, Ha, Hrev, Htok.
  cbn [bind try_catch perform run exec].
  unfold round_trip, consume.
  destruct (faults w) as [| [|] script] eqn:Hf.
  - destruct (Mongoose.findOneAndUpdate _ _ (refreshTokens w)) as [[row|] rows].
    + cbn [run bind try_catch]. apply Hmint.
    + cbn [run bind try_catch].
      rewrite run_try_catch, run_bind, run_try_catch, run_bind, run_revoke_all_logged.
      cbn [faults with_refreshTokens]. rewrite Hf. reflexivity.
  - cbn [run bind try_catch exec]. apply Hmint.
  - cbn [faults with_faults refreshTokens clock].
    destruct (Mongoose.findOneAndUpdate _ _ (refreshTokens w)) as [[row|] rows].
    + cbn [run bind try_catch]. apply Hmint.
    + cbn [run bind try_catch].
      rewrite run_try_catch, run_bind, run_try_catch, run_bind, run_revoke_all_logged.
      cbn [faults with_refreshTokens with_faults].
      destruct script as [| [|] ?]; reflexivity.
Qed.

Lemma findOne_unique_row (filter : RefreshToken.t -> bool) rows row :
  unique_tokens rows ->
  In row rows ->
  filter row = true ->
  (forall d, In d rows -> filter d = true -> RefreshToken.token d = RefreshToken.token row) ->
  Mongoose.findOne filter rows = Some row.
Proof.
  intros Hu Hin Hrow Hsame.
  destruct (Mongoose.findOne filter rows) as [d|] eqn:Hfind.
  - destruct (findOne_Some _ _ _ Hfind) as [Hd Hfd].
    rewrite (unique_tokens_same_row rows d row Hu Hd Hin (Hsame d Hd Hfd)). reflexivity.
  - rewrite (proj1 (findOne_None _ _) Hfind row Hin) in Hrow. discriminate.
Qed.

(** The lookup of an ACTIVE row, the store answering. *)
Lemma run_verifyRefreshToken_ok req tok row account w r :
  Req.cookies_refreshToken req = Some tok ->
  Token_truthy tok = true ->
  faults w = [] ->
  unique_tokens (refreshTokens w) ->
  In row (refreshTokens w) ->
  RefreshToken.token row = tok ->
  active (clock w) row = true ->
  account_by_id (RefreshToken.user row) w = Some account ->
  run (verifyRefreshToken req) w r
  = (inr (Next (Req.with_tokenDoc
                  (RefreshToken.mkPopulated row (Some (Admin.with_password None account)))
                  (Req.with_refreshToken tok
                     (Req.with_admin (Admin.with_password None account) req)))), w, r).
Proof.
  intros Hc Ht Hf Hu Hin Htok Hact Hacc.
  unfold verifyRefreshToken, asyncHandler. rewrite Hc, Ht. cbn [negb].
  rewrite !run_try_catch, run_bind. unfold findValidToken.
  rewrite run_bind, run_perform. cbn [exec]. rewrite run_perform. cbn [exec].
  rewrite (round_trip_up _ _ Hf).
  rewrite (findOne_unique_row _ (refreshTokens w) row Hu Hin).
  - cbn [option_map]. fold (account_by_id (RefreshToken.user row) w). rewrite Hacc.
    reflexivity.
  - unfold active in Hact. rewrite Htok, Token_eqb_refl. exact Hact.
  - intros d _ Hd. apply andb_true_iff in Hd as [Hd _]. apply andb_true_iff in Hd as [Hd _].
    apply Token_eqb_eq in Hd. congruence.
Qed.

Lemma set_revoked_token now d :
  RefreshToken.token (set_revoked now d) = RefreshToken.token d.
Proof. reflexivity. Qed.

Lemma updateMany_tokens (filter : RefreshToken.t -> bool) now rows :
  List.map RefreshToken.token (Mongoose.updateMany filter (set_revoked now) rows)
  = List.map RefreshToken.token rows.
Proof.
  unfold Mongoose.updateMany. rewrite map_map. apply map_ext.
  intros d. destruct (filter d); reflexivity.
Qed.

(** After [revokeAllForUser(id)] every row of the account is revoked. *)
Lemma updateMany_revokes_account id now rows row :
  In row (Mongoose.updateMany
            (fun d => (Nat.eqb (RefreshToken.user d) id
                       && negb (RefreshToken.isRevoked d))%bool)
            (set_revoked now) rows) ->
  RefreshToken.user row = id ->
  RefreshToken.isRevoked row = true.
Proof.
  unfold Mongoose.updateMany. intros Hin Huser.
  apply in_map_iff in Hin as (d & <- & _).
  destruct (Nat.eqb (RefreshToken.user d) id) eqn:E;
    destruct (RefreshToken.isRevoked d) eqn:Hr; cbn [andb negb] in *; auto.
  apply Nat.eqb_neq in E. contradiction.
Qed.

(** The handler when its conditional update finds the row and nothing
    stands in the way of the mint. *)
Lemma run_refreshToken_rotates ext env req d a w r row newTok accessTok s secs :
  Req.tokenDoc req = Some d ->
  Req.admin req = Some a ->
  RefreshToken.isRevoked (RefreshToken.doc d) = false ->
  Token_truthy (RefreshToken.token (RefreshToken.doc d)) = true ->
  faults w = [] ->
  Mongoose.findOne
    (fun x => (Token_eqb (RefreshToken.token x) (RefreshToken.token (RefreshToken.doc d))
               && negb (RefreshToken.isRevoked x))%bool) (refreshTokens w) = Some row ->
  jwt_sign ext (mkClaims (Admin._id a) None None)
    (JWT_REFRESH_SECRET env) (JWT_REFRESH_EXPIRE env) (clock w) = inr newTok ->
  JWT_REFRESH_EXPIRE env = Some s ->
  expiresInSeconds s = Some secs ->
  jwt_sign ext (access_claims a) (JWT_SECRET env) (JWT_EXPIRE env) (clock w) = inr accessTok ->
  (forall x, In x (refreshTokens w) -> RefreshToken.token x <> newTok) ->
  exists before after,
    refreshTokens w = before ++ row :: after
    /\ run (refreshToken ext env req) w r
       = (inr Sent,
          with_refreshTokens
            ((before ++ set_revoked (clock w) row :: after)
             ++ [minted_row newTok (Admin._id a) (clock w) secs]) w,
          Res.mk (Res.statusCode r)
            (Res.cookies r
             ++ [SetCookie "refreshToken" newTok
                   (mkCookieOptions true (isProd env) (if isProd env then "none" else "lax")
                      (Some (7 * 24 * 60 * 60 * 1000)) "/" (cookieDomain env))])
            (Some (mkBody true "Token refreshed successfully" None (Some accessTok)))).
Proof.
  intros Hd Ha Hrev Htok Hf Hfind Hsign Hs Hsecs Haccess Hfresh.
  destruct (findOneAndUpdate_Some _ (set_revoked (clock w)) _ _ Hfind)
    as (before & after & Hrows & _ & Hupd).
  exists before, after. split; [exact Hrows|].
  rewrite (run_refreshToken ext env req d a w r Hd Ha Hrev Htok), Hf, Hupd.
  rewrite (run_generateRefreshToken_ok ext env a _ r newTok s secs); auto.
  - cbn [clock with_refreshTokens refreshTokens]. rewrite Haccess. reflexivity.
  - cbn [refreshTokens with_refreshTokens]. intros x Hx.
    apply in_app_or in Hx as [Hx | [<- | Hx]].
    + apply Hfresh. rewrite Hrows. apply in_or_app. left. exact Hx.
    + rewrite set_revoked_token. apply Hfresh. rewrite Hrows.
      apply in_or_app. right. left. reflexivity.
    + apply Hfresh. rewrite Hrows. apply in_or_app. right. right. exact Hx.
Qed.

(* ================================================================== *)
(** ** C2: the consume step of a refresh *)
(* ================================================================== *)

(** C2 as stated fails: the store misses the conditional update of Alice's
    refresh (it answers the lookup before and the insert after), the
    handler logs the error and goes on: the presented row is still
    unrevoked, and a new refresh token row and an access token are
    created and returned all the same. *)
Lemma refresh_mints_when_consume_throws :
  exists r',
    run (route_refresh Fixture.ext Fixture.env (Fixture.with_cookie (Fixture.issued Fixture.alice)))
        (with_faults [false; true] Fixture.world) Res.fresh
    = (inr Sent,
       with_console ["Error consuming old refresh token during rotation: connection to the store failed"]
         (with_refreshTokens
            [Fixture.row Fixture.alice false; Fixture.row Fixture.bob false;
             minted_row (Jwt "refresh-secret" (mkClaims 1%nat None None) 2000 606800)
                        1%nat 2000000 604800]
            Fixture.world),
       r')
    /\ Res.body r'
       = Some (mkBody true "Token refreshed successfully" None
                 (Some (Jwt "access-secret" (access_claims Fixture.alice) 2000 2900)))
    /\ Res.cookies r'
       = [SetCookie "refreshToken" (Jwt "refresh-secret" (mkClaims 1%nat None None) 2000 606800)
            (mkCookieOptions true false "lax" (Some 604800000) "/" None)].
Proof. eexists. split; [reflexivity|]. split; reflexivity. Qed.

(** C2 (amended).  [refreshToken], handed a row that was unrevoked when
    looked up, consumes it by a conditional update: revoked is set only
    on a row with that token value that is still unrevoked.  (a) When the
    store answers the update and it returns no row, the handler rejects
    with [reuse_detected] (401), writes nothing to the response and
    inserts no row, and -- the store still answering -- every row of the
    account is revoked.  (b) A new token pair is sent only when the
    update returned a row, or when the update itself failed in the
    store: that error is logged and does not block the rotation.  (c)
    When the update returns a row and nothing fails, the row is revoked,
    a new row is inserted for the account, and the new refresh token
    (cookie) and access token (body) are returned.  (d) When the update
    itself fails in the store, the error is logged, no row of the ledger
    is changed -- the presented row stays unrevoked -- and, the store
    answering the insert, a new row is inserted for the account and the
    new refresh token (cookie) and access token (body) are returned all
    the same. *)
Theorem refresh_consumes_by_compare_and_set ext env req d a w r :
  Req.tokenDoc req = Some d ->
  Req.admin req = Some a ->
  RefreshToken.isRevoked (RefreshToken.doc d) = false ->
  Token_truthy (RefreshToken.token (RefreshToken.doc d)) = true ->
  let consumable := unrevoked (RefreshToken.token (RefreshToken.doc d)) in
  (answers w = true ->
   Mongoose.findOne consumable (refreshTokens w) = None ->
   exists w',
     run (refreshToken ext env req) w r = (inr (NextError reuse_detected), w', r)
     /\ List.map RefreshToken.token (refreshTokens w')
        = List.map RefreshToken.token (refreshTokens w)
     /\ (faults w = [] ->
         forall x, In x (refreshTokens w') -> RefreshToken.user x = Admin._id a ->
                   RefreshToken.isRevoked x = true))
  /\
  (forall w' r',
     run (refreshToken ext env req) w r = (inr Sent, w', r') ->
     (answers w = true /\ exists row, Mongoose.findOne consumable (refreshTokens w) = Some row)
     \/ answers w = false)
  /\
  (forall row newTok accessTok s secs,
     faults w = [] ->
     Mongoose.findOne consumable (refreshTokens w) = Some row ->
     jwt_sign ext (mkClaims (Admin._id a) None None)
       (JWT_REFRESH_SECRET env) (JWT_REFRESH_EXPIRE env) (clock w) = inr newTok ->
     JWT_REFRESH_EXPIRE env = Some s ->
     expiresInSeconds s = Some secs ->
     jwt_sign ext (access_claims a) (JWT_SECRET env) (JWT_EXPIRE env) (clock w)
     = inr accessTok ->
     (forall x, In x (refreshTokens w) -> RefreshToken.token x <> newTok) ->
     exists w' r' opts,
       run (refreshToken ext env req) w r = (inr Sent, w', r')
       /\ In (set_revoked (clock w) row) (refreshTokens w')
       /\ In (minted_row newTok (Admin._id a) (clock w) secs) (refreshTokens w')
       /\ Res.cookies r' = Res.cookies r ++ [SetCookie "refreshToken" newTok opts]
       /\ Res.body r'
          = Some (mkBody true "Token refreshed successfully" None (Some accessTok)))
  /\
  (forall script newTok accessTok s secs,
     faults w = true :: script ->
     answers (with_faults script w) = true ->
     jwt_sign ext (mkClaims (Admin._id a) None None)
       (JWT_REFRESH_SECRET env) (JWT_REFRESH_EXPIRE env) (clock w) = inr newTok ->
     JWT_REFRESH_EXPIRE env = Some s ->
     expiresInSeconds s = Some secs ->
     jwt_sign ext (access_claims a) (JWT_SECRET env) (JWT_EXPIRE env) (clock w)
     = inr accessTok ->
     (forall x, In x (refreshTokens w) -> RefreshToken.token x <> newTok) ->
     exists w' r' opts,
       run (refreshToken ext env req) w r = (inr Sent, w', r')
       /\ console w'
          = console w
            ++ [("Error consuming old refresh token during rotation: "
                 ++ err_message MongoNetworkError)%string]
       /\ refreshTokens w'
          = refreshTokens w ++ [minted_row newTok (Admin._id a) (clock w) secs]
       /\ Res.cookies r' = Res.cookies r ++ [SetCookie "refreshToken" newTok opts]
       /\ Res.body r'
          = Some (mkBody true "Token refreshed successfully" None (Some accessTok))).
Proof.
  intros Hd Ha Hrev Htok consumable. split; [|split; [|split]].
  - intros Hans Hnone.
    rewrite (run_refreshToken ext env req d a w r Hd Ha Hrev Htok).
    unfold answers in Hans.
    change (fun row => (Token_eqb (RefreshToken.token row)
                          (RefreshToken.token (RefreshToken.doc d))
                        && negb (RefreshToken.isRevoked row))%bool) with consumable.
    destruct (faults w) as [| [|] script] eqn:Hf; [|discriminate|].
    + rewrite (findOneAndUpdate_None _ _ _ Hnone), run_revoke_all_logged.
      cbn [faults with_refreshTokens]. rewrite Hf.
      eexists. split; [reflexivity|]. cbn [refreshTokens with_refreshTokens].
      split; [apply updateMany_tokens|].
      intros _ x Hx Hu. exact (updateMany_revokes_account _ _ _ _ Hx Hu).
    + cbn [refreshTokens with_faults clock].
      rewrite (findOneAndUpdate_None _ _ _ Hnone), run_revoke_all_logged.
      cbn [faults with_refreshTokens with_faults].
      destruct script as [| [|] rest]; eexists; (split; [reflexivity|]);
        cbn [refreshTokens with_refreshTokens with_faults with_console];
        (split; [try apply updateMany_tokens; reflexivity | discriminate]).
  - intros w' r' Hrun. unfold answers.
    destruct (faults w) as [| [|] script] eqn:Hf; [left | right; reflexivity | left];
      (split; [reflexivity|]);
      (destruct (Mongoose.findOne consumable (refreshTokens w)) as [row|] eqn:Hfind;
       [exists row; reflexivity | exfalso]);
      rewrite (run_refreshToken ext env req d a w r Hd Ha Hrev Htok), Hf in Hrun;
      change (fun row => (Token_eqb (RefreshToken.token row)
                            (RefreshToken.token (RefreshToken.doc d))
                          && negb (RefreshToken.isRevoked row))%bool) with consumable in Hrun;
      cbn [refreshTokens with_faults clock] in Hrun;
      rewrite (findOneAndUpdate_None _ _ _ Hfind) in Hrun;
      destruct (run (revoke_all_logged _ _) _ _) as [[? ?] ?]; discriminate.
  - intros row newTok accessTok s secs Hf Hfind Hsign Hs Hsecs Haccess Hfresh.
    destruct (run_refreshToken_rotates ext env req d a w r row newTok accessTok s secs
                Hd Ha Hrev Htok Hf Hfind Hsign Hs Hsecs Haccess Hfresh)
      as (before & after & Hrows & Hrun).
    do 3 eexists. split; [exact Hrun|].
    cbn [refreshTokens with_refreshTokens Res.cookies Res.body].
    split; [|split; [|split; reflexivity]].
    + apply in_or_app. left. apply in_or_app. right. left. reflexivity.
    + apply in_or_app. right. left. reflexivity.
  - intros script newTok accessTok s secs Hf Hans Hsign Hs Hsecs Haccess Hfresh.
    rewrite (run_refreshToken ext env req d a w r Hd Ha Hrev Htok), Hf.
    rewrite run_generateRefreshToken.
    cbn [clock with_console with_faults]. rewrite Hsign, Hs, Hsecs.
    unfold round_trip, answers in *.
    cbn [faults with_console with_faults refreshTokens clock] in *.
    rewrite (existsb_token_fresh _ _ Hfresh).
    destruct script as [| [|] rest]; [|discriminate|];
      cbn [clock with_refreshTokens with_console with_faults]; rewrite Haccess;
      do 3 eexists; (split; [reflexivity|]);
      cbn [console refreshTokens with_refreshTokens with_console with_faults
           Res.cookies Res.body];
      repeat split; reflexivity.
Qed.

(** Alice's refresh when another request has consumed her row since the
    lookup; her refresh when nothing interferes; and her refresh when
    the store fails the conditional update. *)
Lemma refresh_consumes_by_compare_and_set_witness :
  (exists w',
     run (refreshToken Fixture.ext Fixture.env (Fixture.verified Fixture.alice))
         (with_refreshTokens [Fixture.row Fixture.alice true; Fixture.row Fixture.bob false]
            Fixture.world) Res.fresh
     = (inr (NextError reuse_detected), w', Res.fresh)
     /\ List.map RefreshToken.token (refreshTokens w')
        = [Fixture.issued Fixture.alice; Fixture.issued Fixture.bob]
     /\ (faults Fixture.world = [] ->
         forall x, In x (refreshTokens w') -> RefreshToken.user x = 1%nat ->
                   RefreshToken.isRevoked x = true))
  /\
  (exists w' r' opts,
     run (refreshToken Fixture.ext Fixture.env (Fixture.verified Fixture.alice))
         Fixture.world Res.fresh = (inr Sent, w', r')
     /\ In (set_revoked 2000000 (Fixture.row Fixture.alice false)) (refreshTokens w')
     /\ In (minted_row (Jwt "refresh-secret" (mkClaims 1%nat None None) 2000 606800)
                       1%nat 2000000 604800) (refreshTokens w')
     /\ Res.cookies r'
        = [] ++ [SetCookie "refreshToken"
                   (Jwt "refresh-secret" (mkClaims 1%nat None None) 2000 606800) opts]
     /\ Res.body r'
        = Some (mkBody true "Token refreshed successfully" None
                  (Some (Jwt "access-secret" (access_claims Fixture.alice) 2000 2900))))
  /\
  (exists w' r' opts,
     run (refreshToken Fixture.ext Fixture.env (Fixture.verified Fixture.alice))
         (with_faults [true] Fixture.world) Res.fresh = (inr Sent, w', r')
     /\ console w'
        = [] ++ ["Error consuming old refresh token during rotation: connection to the store failed"]
     /\ refreshTokens w'
        = [Fixture.row Fixture.alice false; Fixture.row Fixture.bob false]
          ++ [minted_row (Jwt "refresh-secret" (mkClaims 1%nat None None) 2000 606800)
                         1%nat 2000000 604800]
     /\ Res.cookies r'
        = [] ++ [SetCookie "refreshToken"
                   (Jwt "refresh-secret" (mkClaims 1%nat None None) 2000 606800) opts]
     /\ Res.body r'
        = Some (mkBody true "Token refreshed successfully" None
                  (Some (Jwt "access-secret" (access_claims Fixture.alice) 2000 2900)))).
Proof.
  pose (at_ := fun w =>
          refresh_consumes_by_compare_and_set Fixture.ext Fixture.env
            (Fixture.verified Fixture.alice)
            (RefreshToken.mkPopulated (Fixture.row Fixture.alice false)
               (Some (Admin.with_password None Fixture.alice)))
            (Admin.with_password None Fixture.alice) w Res.fresh
            eq_refl eq_refl eq_refl eq_refl).
  split; [|split].
  - apply (proj1 (at_ (with_refreshTokens
                         [Fixture.row Fixture.alice true; Fixture.row Fixture.bob false]
                         Fixture.world))); reflexivity.
  - apply (proj1 (proj2 (proj2 (at_ Fixture.world)))
             (Fixture.row Fixture.alice false)
             (Jwt "refresh-secret" (mkClaims 1%nat None None) 2000 606800)
             (Jwt "access-secret" (access_claims Fixture.alice) 2000 2900)
             "7d" 604800); try reflexivity.
    intros x [<- | [<- | []]]; discriminate.
  - apply (proj2 (proj2 (proj2 (at_ (with_faults [true] Fixture.world))))
             []
             (Jwt "refresh-secret" (mkClaims 1%nat None None) 2000 606800)
             (Jwt "access-secret" (access_claims Fixture.alice) 2000 2900)
             "7d" 604800); try reflexivity.
    intros x [<- | [<- | []]]; discriminate.
Defined.

(* ================================================================== *)
(** ** C10: a deactivated account can still refresh *)
(* ================================================================== *)

(** C10 as stated fails: Bob's active flag is false and he holds an
    unrevoked, unexpired refresh token, signed in clock second 1000.
    His refresh within that second signs the same value again: the
    insert is rejected by the unique index, the request fails with the
    store's duplicate-key error, no token is returned, and the presented
    row is spent. *)
Lemma deactivated_refresh_in_the_signing_second :
  Admin.isActive Fixture.bob = false
  /\ active_rows 2%nat (with_clock 1000999 Fixture.world) = [Fixture.row Fixture.bob false]
  /\ RefreshToken.token (Fixture.row Fixture.bob false) = Fixture.issued Fixture.bob
  /\ exists w',
       run (route_refresh Fixture.ext Fixture.env
              (Fixture.with_cookie (Fixture.issued Fixture.bob)))
           (with_clock 1000999 Fixture.world) Res.fresh
       = (inr (NextError DuplicateKeyError), w', Res.fresh)
       /\ active_rows 2%nat w' = [].
Proof.
  split; [reflexivity|]. split; [reflexivity|]. split; [reflexivity|].
  eexists. split; reflexivity.
Qed.

(** C10 (amended).  [POST /refresh] never looks at the account's active
    flag.  For an account whose flag is false and that holds an unrevoked,
    unexpired refresh token, a refresh with that token succeeds -- the
    store answering, the deployment configured, and the newly signed
    value not yet in the ledger -- with a fresh access token in the body,
    a fresh refresh token in the cookie and its row in the ledger; while
    a login to the same account, with the right password, fails with
    "Account is deactivated". *)
Theorem refresh_ignores_active_flag ext env req tok row a w newTok accessTok s secs :
  Req.cookies_refreshToken req = Some tok ->
  Token_truthy tok = true ->
  faults w = [] ->
  unique_tokens (refreshTokens w) ->
  In row (refreshTokens w) ->
  RefreshToken.token row = tok ->
  active (clock w) row = true ->
  account_by_id (RefreshToken.user row) w = Some a ->
  Admin.isActive a = false ->
  jwt_sign ext (mkClaims (Admin._id a) None None)
    (JWT_REFRESH_SECRET env) (JWT_REFRESH_EXPIRE env) (clock w) = inr newTok ->
  JWT_REFRESH_EXPIRE env = Some s ->
  expiresInSeconds s = Some secs ->
  jwt_sign ext (access_claims a) (JWT_SECRET env) (JWT_EXPIRE env) (clock w) = inr accessTok ->
  (forall x, In x (refreshTokens w) -> RefreshToken.token x <> newTok) ->
  (exists w' r' opts,
     run (route_refresh ext env req) w Res.fresh = (inr Sent, w', r')
     /\ Res.statusCode r' = 200
     /\ Res.body r' = Some (mkBody true "Token refreshed successfully" None (Some accessTok))
     /\ Res.cookies r' = [SetCookie "refreshToken" newTok opts]
     /\ In (minted_row newTok (Admin._id a) (clock w) secs) (refreshTokens w')
     /\ newTok <> tok)
  /\
  (forall credentials email password hash,
     Req.body_email credentials = Some email ->
     Req.body_password credentials = Some password ->
     JS.truthy email = true ->
     JS.truthy password = true ->
     account_for email w = Some a ->
     Admin.password a = Some hash ->
     bcrypt_compare ext password hash = true ->
     run (login ext env credentials) w Res.fresh
     = (inr (NextError (AppError "Account is deactivated" 401)), w, Res.fresh)).
Proof.
  intros Hc Ht Hf Hu Hin Htok Hact Hacc Hoff Hsign Hs Hsecs Haccess Hfresh.
  split.
  - unfold route_refresh.
    rewrite run_chain,
      (run_verifyRefreshToken_ok req tok row a w Res.fresh Hc Ht Hf Hu Hin Htok Hact Hacc).
    assert (Hcas : Mongoose.findOne
                     (fun x => (Token_eqb (RefreshToken.token x) (RefreshToken.token row)
                                && negb (RefreshToken.isRevoked x))%bool)
                     (refreshTokens w) = Some row).
    { apply (findOne_unique_row _ _ row Hu Hin).
      - rewrite Token_eqb_refl. unfold active in Hact.
        apply andb_true_iff in Hact as [-> _]. reflexivity.
      - intros x _ Hx. apply andb_true_iff in Hx as [Hx _]. apply Token_eqb_eq. exact Hx. }
    assert (Hlive : RefreshToken.isRevoked row = false).
    { unfold active in Hact. apply andb_true_iff in Hact as [Hact _].
      destruct (RefreshToken.isRevoked row); [discriminate | reflexivity]. }
    destruct (run_refreshToken_rotates ext env
                (Req.with_tokenDoc
                   (RefreshToken.mkPopulated row (Some (Admin.with_password None a)))
                   (Req.with_refreshToken tok
                      (Req.with_admin (Admin.with_password None a) req)))
                (RefreshToken.mkPopulated row (Some (Admin.with_password None a)))
                (Admin.with_password None a) w Res.fresh row newTok accessTok s secs)
      as (before & after & Hrows & Hrun); auto.
    { cbn [RefreshToken.doc]. rewrite Htok. exact Ht. }
    do 3 eexists. split; [exact Hrun|].
    cbn [Res.statusCode Res.body Res.cookies Res.fresh refreshTokens with_refreshTokens app].
    repeat split.
    + apply in_or_app. right. left. reflexivity.
    + intros ->. exact (Hfresh row Hin Htok).
  - intros credentials email password hash He Hp Hte Htp Hfound Hhash Hcmp.
    apply (run_login_deactivated ext env credentials email password w Res.fresh a hash); auto.
Qed.

(** Bob is deactivated and holds an unrevoked token, issued a thousand
    seconds ago. *)
Lemma refresh_ignores_active_flag_witness :
  (exists w' r' opts,
     run (route_refresh Fixture.ext Fixture.env (Fixture.with_cookie (Fixture.issued Fixture.bob)))
         Fixture.world Res.fresh = (inr Sent, w', r')
     /\ Res.statusCode r' = 200
     /\ Res.body r'
        = Some (mkBody true "Token refreshed successfully" None
                  (Some (Jwt "access-secret" (access_claims Fixture.bob) 2000 2900)))
     /\ Res.cookies r'
        = [SetCookie "refreshToken"
             (Jwt "refresh-secret" (mkClaims 2%nat None None) 2000 606800) opts]
     /\ In (minted_row (Jwt "refresh-secret" (mkClaims 2%nat None None) 2000 606800)
                       2%nat 2000000 604800) (refreshTokens w')
     /\ Jwt "refresh-secret" (mkClaims 2%nat None None) 2000 606800
        <> Fixture.issued Fixture.bob)
  /\
  run (login Fixture.ext Fixture.env (Fixture.with_credentials "b@x.com" "hunter22"))
      Fixture.world Res.fresh
  = (inr (NextError (AppError "Account is deactivated" 401)), Fixture.world, Res.fresh).
Proof.
  assert (H := refresh_ignores_active_flag Fixture.ext Fixture.env
                 (Fixture.with_cookie (Fixture.issued Fixture.bob))
                 (Fixture.issued Fixture.bob) (Fixture.row Fixture.bob false) Fixture.bob
                 Fixture.world
                 (Jwt "refresh-secret" (mkClaims 2%nat None None) 2000 606800)
                 (Jwt "access-secret" (access_claims Fixture.bob) 2000 2900)
                 "7d" 604800).
  destruct H as [Hrefresh Hlogin]; try reflexivity.
  - repeat constructor; simpl; intuition discriminate.
  - simpl. auto.
  - intros x [<- | [<- | []]]; discriminate.
  - split; [exact Hrefresh|].
    apply (Hlogin (Fixture.with_credentials "b@x.com" "hunter22") "b@x.com" "hunter22"
             "$2a$12$hunter22"); reflexivity.
Defined.

(* ================================================================== *)
(** ** C3: two refreshes with the same token, interleaved *)
(* ================================================================== *)

(** C3 (the code does otherwise).  Two [POST /refresh] requests present
    Alice's unrevoked token.  The store answers, in this order: the
    lookup of the first, the lookup of the second, the conditional update
    of the first (it wins), the conditional update of the second (no
    row), the mass revocation of the second, the insert of the first.
    The first request is answered with a new pair and the second with
    [reuse_detected] -- but the row minted by the first is inserted after
    the mass revocation, so the account is left with an ACTIVE row. *)
Theorem concurrent_refresh_leaves_an_active_row :
  let request :=
    route_refresh Fixture.ext Fixture.env (Fixture.with_cookie (Fixture.issued Fixture.alice)) in
  let '(a, b, w') :=
    concurrently [First; Second; First; Second; Second; First] request request Fixture.world in
  outcome a = Some (inr Sent)
  /\ outcome b = Some (inr (NextError reuse_detected))
  /\ Res.cookies (res a)
     = [SetCookie "refreshToken" (Jwt "refresh-secret" (mkClaims 1%nat None None) 2000 606800)
          (mkCookieOptions true false "lax" (Some 604800000) "/" None)]
  /\ active_rows 1%nat w'
     = [minted_row (Jwt "refresh-secret" (mkClaims 1%nat None None) 2000 606800)
                   1%nat 2000000 604800].
Proof. vm_compute. repeat split; reflexivity. Qed.

(** The same two requests when the second is looked up only after the
    first has consumed the row: the second gets the generic 401, nothing
    is mass-revoked, and the new row is ACTIVE as well. *)
Lemma late_refresh_is_not_detected :
  let request :=
    route_refresh Fixture.ext Fixture.env (Fixture.with_cookie (Fixture.issued Fixture.alice)) in
  let '(a, b, w') := concurrently [First; First; Second; First] request request Fixture.world in
  outcome a = Some (inr Sent)
  /\ outcome b = Some (inr (NextError (AppError "Invalid or expired refresh token" 401)))
  /\ active_rows 1%nat w'
     = [minted_row (Jwt "refresh-secret" (mkClaims 1%nat None None) 2000 606800)
                   1%nat 2000000 604800].
Proof. vm_compute. repeat split; reflexivity. Qed.

(** And when the first request has inserted its row before the second
    loses the conditional update, the mass revocation covers it: no
    ACTIVE row is left. *)
Lemma early_insert_is_revoked :
  let request :=
    route_refresh Fixture.ext Fixture.env (Fixture.with_cookie (Fixture.issued Fixture.alice)) in
  let '(a, b, w') :=
    concurrently [First; Second; First; First; Second; Second] request request Fixture.world in
  outcome a = Some (inr Sent)
  /\ outcome b = Some (inr (NextError reuse_detected))
  /\ active_rows 1%nat w' = [].
Proof. vm_compute. repeat split; reflexivity. Qed.

(* ================================================================== *)
(** ** Two refreshes with the same token: at most one wins *)
(* ================================================================== *)



(** After a won conditional update: the mint stops at its insert. *)
Lemma settle_mint ext env a w r :
  exists p',
    settle
      (try_catch
         (newRefreshToken <- generateRefreshToken ext env a ;;
          setRefreshTokenCookie env newRefreshToken ;;
          accessToken <- generateAccessToken ext env a ;;
          perform (ResJson (mkBody true "Token refreshed successfully" None
                              (Some accessToken))) ;;
          Ret Sent)
         (fun err => Ret (NextError err))) w r
    = (p', w, r)
    /\ (Won p' \/ exists e, p' = Ret (NextError e)).
Proof.
  unfold generateRefreshToken, createToken, RefreshToken_create.
  cbn [bind try_catch perform settle is_round_trip exec].
  destruct (jwt_sign ext _ (JWT_REFRESH_SECRET env) _ _) as [e | newTok] eqn:Hsign.
  { cbn. eexists. split; [reflexivity|]. right. eexists. reflexivity. }
  cbn [lift bind try_catch settle].
  destruct (JWT_REFRESH_EXPIRE env) as [s|].
  2:{ cbn. eexists. split; [reflexivity|]. right. eexists. reflexivity. }
  cbn [bind try_catch perform settle is_round_trip exec].
  destruct (expiresInSeconds s) as [secs|].
  2:{ cbn. eexists. split; [reflexivity|]. right. eexists. reflexivity. }
  cbn [option_map]. rewrite (jwt_sign_truthy _ _ _ _ _ _ Hsign).
  cbn [bind try_catch perform settle is_round_trip exec].
  eexists. split; [reflexivity|]. left.
  split; [reflexivity|].
  exists (RefreshToken.mk newTok (Admin._id a) (clock w + secs * 1000) false (clock w) (clock w)).
  intros w1 r1 Hf1. cbn [step exec]. rewrite (round_trip_up _ _ Hf1).
  cbn [RefreshToken.token].
  destruct (existsb _ (refreshTokens w1)).
  { cbn. do 2 eexists. reflexivity. }
  unfold setRefreshTokenCookie, generateAccessToken.
  cbn [bind try_catch perform settle is_round_trip exec].
  destruct (jwt_sign ext _ (JWT_SECRET env) _ _) as [e | accessTok].
  - cbn. do 2 eexists. reflexivity.
  - cbn. do 2 eexists. reflexivity.
Qed.

(** After a lost conditional update: the mass revocation is pending. *)
Lemma settle_lost ext env a w r :
  exists p',
    settle
      (try_catch
         (returned <-
            try_catch
              (revoke_all_logged (Some a)
                 "Error revoking all tokens after atomic consume failure:" ;;
               Ret (Some (NextError reuse_detected)))
              (fun err =>
                 perform (ConsoleError ("Error consuming old refresh token during rotation: "
                                        ++ err_message err)) ;;
                 Ret None) ;;
          match returned with
          | Some ended => Ret ended
          | None =>
              newRefreshToken <- generateRefreshToken ext env a ;;
              setRefreshTokenCookie env newRefreshToken ;;
              accessToken <- generateAccessToken ext env a ;;
              perform (ResJson (mkBody true "Token refreshed successfully" None
                                  (Some accessToken))) ;;
              Ret Sent
          end)
         (fun err => Ret (NextError err))) w r
    = (p', w, r)
    /\ Lost p'.
Proof.
  unfold revoke_all_logged, revokeAllForUser, id_of.
  cbn [bind try_catch perform settle is_round_trip exec].
  eexists. split; [reflexivity|].
  split; [reflexivity|]. exists (Admin._id a).
  intros w1 r1 Hf1. cbn [step exec]. rewrite (round_trip_up _ _ Hf1).
  cbn. do 2 eexists. reflexivity.
Qed.

(** The rotation handler, handed an unrevoked row, stops at its
    conditional update. *)
Lemma settle_refreshToken ext env req d a w r :
  Req.tokenDoc req = Some d ->
  Req.admin req = Some a ->
  RefreshToken.isRevoked (RefreshToken.doc d) = false ->
  Token_truthy (RefreshToken.token (RefreshToken.doc d)) = true ->
  exists p',
    settle (refreshToken ext env req) w r = (p', w, r)
    /\ Verified (RefreshToken.token (RefreshToken.doc d)) p'.
Proof.
  intros Hd Ha Hrev Htok.
  unfold refreshToken, asyncHandler. rewrite Hd, Ha, Hrev, Htok.
  cbn [bind try_catch perform settle is_round_trip].
  eexists. split; [reflexivity|].
  split; [reflexivity|].
  intros w1 r1 Hf1. cbn [step exec]. rewrite (round_trip_up _ _ Hf1).
  fold (unrevoked (RefreshToken.token (RefreshToken.doc d))).
  pose proof (findOneAndUpdate_fst (unrevoked (RefreshToken.token (RefreshToken.doc d)))
                (set_revoked (clock w1)) (refreshTokens w1)) as Hfst.
  destruct (Mongoose.findOneAndUpdate _ _ (refreshTokens w1)) as [found rows].
  cbn [fst snd] in *. subst found.
  destruct (Mongoose.findOne _ (refreshTokens w1)) as [row|]; cbn [option_map].
  - cbn [bind try_catch].
    destruct (settle_mint ext env a (with_refreshTokens rows w1) r1) as (p' & Hp' & Hwon).
    exists p', r1. split; [exact Hp'|]. split; [discriminate|]. intros _. exact Hwon.
  - cbn [bind try_catch].
    destruct (settle_lost ext env a (with_refreshTokens rows w1) r1) as (p' & Hp' & Hlost).
    exists p', r1. split; [exact Hp'|]. split; [intros _; exact Hlost|].
    intros H. contradiction.
Qed.

(** A refresh request that carries a token stops at its lookup. *)
Lemma arrive_refresh ext env req tok w :
  Req.cookies_refreshToken req = Some tok ->
  Token_truthy tok = true ->
  exists p,
    arrive (route_refresh ext env req) w = (mkThread p Res.fresh, w)
    /\ Arrived tok p.
Proof.
  intros Hc Ht. unfold arrive, route_refresh, chain, verifyRefreshToken, asyncHandler.
  rewrite Hc, Ht. cbn [negb].
  unfold findValidToken. cbn [bind try_catch perform settle is_round_trip exec].
  eexists. split; [reflexivity|].
  split; [reflexivity|].
  intros w1 r1 Hf1.
  cbn [step exec]. rewrite (round_trip_up _ _ Hf1).
  destruct (Mongoose.findOne _ (refreshTokens w1)) as [row|] eqn:Hrow; cbn [option_map].
  2:{ cbn. do 2 eexists. split; [reflexivity|]. right. eexists. reflexivity. }
  destruct (Mongoose.findOne _ (admins w1)) as [account|]; cbn [option_map].
  2:{ cbn. do 2 eexists. split; [reflexivity|]. right. eexists. reflexivity. }
  cbn [bind try_catch RefreshToken.populatedUser].
  apply findOne_Some in Hrow as [_ Hrow].
  apply andb_true_iff in Hrow as [Hrow _]. apply andb_true_iff in Hrow as [Heq Hlive].
  apply Token_eqb_eq in Heq. apply negb_true_iff in Hlive.
  destruct (settle_refreshToken ext env
              (Req.with_tokenDoc
                 (RefreshToken.mkPopulated row (Some (project false account)))
                 (Req.with_refreshToken tok (Req.with_admin (project false account) req)))
              (RefreshToken.mkPopulated row (Some (project false account)))
              (project false account) w1 r1 eq_refl eq_refl Hlive)
    as (p' & Hp' & Hver).
  { cbn [RefreshToken.doc]. rewrite Heq. exact Ht. }
  exists p', r1. split; [exact Hp'|]. left.
  cbn [RefreshToken.doc] in Hver. rewrite Heq in Hver. exact Hver.
Qed.

Lemma findOneAndUpdate_tokens (filter : RefreshToken.t -> bool) now rows :
  List.map RefreshToken.token
    (snd (Mongoose.findOneAndUpdate filter (set_revoked now) rows))
  = List.map RefreshToken.token rows.
Proof.
  induction rows as [| d rest IH]; cbn [Mongoose.findOneAndUpdate]; [reflexivity|].
  destruct (filter d); [reflexivity|].
  destruct (Mongoose.findOneAndUpdate filter (set_revoked now) rest) as [found rest'].
  cbn [snd map] in *. rewrite IH. reflexivity.
Qed.

Lemma compare_and_set_consumes tok now rows row :
  unique_tokens rows ->
  Mongoose.findOne (unrevoked tok) rows = Some row ->
  consumed tok (snd (Mongoose.findOneAndUpdate (unrevoked tok) (set_revoked now) rows)).
Proof.
  intros Hu Hfind.
  destruct (findOneAndUpdate_Some _ (set_revoked now) _ _ Hfind)
    as (before & after & Hrows & _ & Hupd).
  apply findOne_Some in Hfind as [_ Hrow]. unfold unrevoked in Hrow.
  apply andb_true_iff in Hrow as [Htok _]. apply Token_eqb_eq in Htok.
  rewrite Hupd. cbn [snd]. split.
  - rewrite map_app. apply in_or_app. right. left. exact Htok.
  - intros d Hd Hdtok.
    unfold unique_tokens in Hu. rewrite Hrows, map_app in Hu. cbn [map] in Hu.
    apply NoDup_remove_2 in Hu.
    apply in_app_or in Hd as [Hd | [<- | Hd]].
    + exfalso. apply Hu. apply in_or_app. left. rewrite Htok, <- Hdtok.
      apply in_map. exact Hd.
    + reflexivity.
    + exfalso. apply Hu. apply in_or_app. right. rewrite Htok, <- Hdtok.
      apply in_map. exact Hd.
Qed.

Lemma updateMany_consumed tok (filter : RefreshToken.t -> bool) now rows :
  consumed tok rows ->
  consumed tok (Mongoose.updateMany filter (set_revoked now) rows).
Proof.
  intros [Hin Hrev]. split.
  - rewrite updateMany_tokens. exact Hin.
  - unfold Mongoose.updateMany. intros row Hrow Htok.
    apply in_map_iff in Hrow as (d & <- & Hd).
    destruct (filter d); [reflexivity|]. apply Hrev; assumption.
Qed.

Lemma insert_consumed tok rows row0 :
  consumed tok rows ->
  List.existsb (fun d => Token_eqb (RefreshToken.token d) (RefreshToken.token row0)) rows
  = false ->
  consumed tok (rows ++ [row0]).
Proof.
  intros [Hin Hrev] Hnew. split.
  - rewrite map_app. apply in_or_app. left. exact Hin.
  - intros row Hrow Htok. apply in_app_or in Hrow as [Hrow | [<- | []]].
    + apply Hrev; assumption.
    + exfalso. apply in_map_iff in Hin as (d & Hd & Hdin).
      assert (existsb (fun d => Token_eqb (RefreshToken.token d) (RefreshToken.token row0))
                rows = true) as Habs.
      { apply existsb_exists. exists d. split; [exact Hdin|].
        apply Token_eqb_eq. congruence. }
      rewrite Habs in Hnew. discriminate.
Qed.

Lemma insert_unique rows row0 :
  unique_tokens rows ->
  List.existsb (fun d => Token_eqb (RefreshToken.token d) (RefreshToken.token row0)) rows
  = false ->
  unique_tokens (rows ++ [row0]).
Proof.
  unfold unique_tokens. intros Hu Hnew. rewrite map_app. cbn [map].
  apply NoDup_app.
  - exact Hu.
  - repeat constructor. intros [].
  - intros t Ht [<- | []].
    apply in_map_iff in Ht as (d & Hd & Hdin).
    assert (existsb (fun d => Token_eqb (RefreshToken.token d) (RefreshToken.token row0))
              rows = true) as Habs.
    { apply existsb_exists. exists d. split; [exact Hdin|]. apply Token_eqb_eq. exact Hd. }
    rewrite Habs in Hnew. discriminate.
Qed.

Lemma not_claimed_ended e : ~ claimed PEnded (Ret (NextError e)).
Proof. intros [H | [_ H]]; discriminate. Qed.

(** One turn of a request keeps the ledger well formed, moves the
    request to its next phase, and never lets it consume the presented
    row when the other request has ([other]). *)
Lemma turn_keeps tok ph t w (other : Prop) :
  faults w = [] ->
  unique_tokens (refreshTokens w) ->
  at_phase tok ph (prog t) ->
  (claimed ph (prog t) \/ other -> consumed tok (refreshTokens w)) ->
  ~ (claimed ph (prog t) /\ other) ->
  exists ph',
    faults (snd (turn t w)) = []
    /\ unique_tokens (refreshTokens (snd (turn t w)))
    /\ at_phase tok ph' (prog (fst (turn t w)))
    /\ (claimed ph' (prog (fst (turn t w))) \/ other ->
        consumed tok (refreshTokens (snd (turn t w))))
    /\ ~ (claimed ph' (prog (fst (turn t w))) /\ other).
Proof.
  intros Hf Hu Hph Hcons Hexcl. unfold turn.
  destruct ph; cbn [at_phase] in Hph.
  - (* the lookup *)
    destruct Hph as [_ Hstep]. destruct (Hstep w (res t) Hf) as (p' & r' & -> & Hnext).
    cbn [fst snd prog].
    destruct Hnext as [Hver | [e ->]].
    + exists PVerified. five.
      * unfold claimed. intros [[H | [H _]] | H]; try discriminate. apply Hcons. right. exact H.
      * unfold claimed. intros [[H | [H _]] _]; discriminate.
    + exists PEnded. five.
      * intros [H | H]; [destruct (not_claimed_ended e H)|]. apply Hcons. right. exact H.
      * intros [H _]. exact (not_claimed_ended e H).
  - (* the conditional update *)
    destruct Hph as [_ Hstep].
    destruct (Hstep w (res t) Hf) as (p' & r' & -> & Hnone & Hsome).
    cbn [fst snd prog refreshTokens with_refreshTokens faults].
    destruct (Mongoose.findOne (unrevoked tok) (refreshTokens w)) as [row|] eqn:Hfind.
    + assert (Hfree : ~ other).
      { intros Hother. destruct (Hcons (or_intror Hother)) as [_ Hrev].
        apply findOne_Some in Hfind as [Hin Hrow]. unfold unrevoked in Hrow.
        apply andb_true_iff in Hrow as [Htok Hlive]. apply Token_eqb_eq in Htok.
        rewrite (Hrev row Hin Htok) in Hlive. discriminate. }
      assert (Hnow : consumed tok
                       (snd (Mongoose.findOneAndUpdate (unrevoked tok)
                               (set_revoked (clock w)) (refreshTokens w)))).
      { apply (compare_and_set_consumes tok (clock w) _ row Hu Hfind). }
      assert (Hu' : unique_tokens
                      (snd (Mongoose.findOneAndUpdate (unrevoked tok)
                              (set_revoked (clock w)) (refreshTokens w)))).
      { unfold unique_tokens. rewrite findOneAndUpdate_tokens. exact Hu. }
      destruct (Hsome ltac:(discriminate)) as [Hwon | [e ->]].
      * exists PWon. five. intros [_ H]. exact (Hfree H).
      * exists PEnded. five. intros [_ H]. exact (Hfree H).
    + rewrite (findOneAndUpdate_None _ _ _ Hfind). cbn [snd].
      specialize (Hnone eq_refl).
      exists PLost. five.
      * unfold claimed. intros [[H | [H _]] | H]; try discriminate. apply Hcons. right. exact H.
      * unfold claimed. intros [[H | [H _]] _]; discriminate.
  - (* the mass revocation *)
    destruct Hph as [_ (id & Hstep)]. destruct (Hstep w (res t) Hf) as (e & r' & ->).
    cbn [fst snd prog refreshTokens with_refreshTokens faults].
    exists PEnded. five.
    + unfold unique_tokens. rewrite updateMany_tokens. exact Hu.
    + intros [H | H]; [destruct (not_claimed_ended e H)|].
      apply updateMany_consumed. apply Hcons. right. exact H.
    + intros [H _]. exact (not_claimed_ended e H).
  - (* the insert *)
    destruct Hph as [_ (row0 & Hstep)]. destruct (Hstep w (res t) Hf) as (out & r' & ->).
    cbn [fst snd prog].
    assert (Hmine : claimed PWon (prog t)) by (left; reflexivity).
    assert (Hfree : ~ other) by (intros H; apply Hexcl; split; assumption).
    exists PEnded.
    destruct (existsb _ (refreshTokens w)) eqn:Hdup;
      cbn [refreshTokens with_refreshTokens faults].
    + five. intros [_ H]. exact (Hfree H).
    + five.
      * apply insert_unique; assumption.
      * intros _. apply insert_consumed; auto.
      * intros [_ H]. exact (Hfree H).
  - (* ended *)
    destruct t as [p r]. cbn [prog res] in *.
    destruct p as [e | e | X eff k]; [| |discriminate];
      cbn [step fst snd prog]; exists PEnded; five.
Qed.

Lemma interleave_keeps tok schedule :
  forall a b w pa pb,
    Race tok pa pb a b w ->
    exists pa' pb',
      Race tok pa' pb'
        (fst (fst (interleave schedule a b w)))
        (snd (fst (interleave schedule a b w)))
        (snd (interleave schedule a b w)).
Proof.
  induction schedule as [| [| | ms] rest IH]; intros a b w pa pb Hrace;
    cbn [interleave].
  - exists pa, pb. exact Hrace.
  - destruct Hrace as (Hf & Hu & Ha & Hb & Hcons & Hexcl).
    destruct (turn_keeps tok pa a w (claimed pb (prog b)) Hf Hu Ha Hcons Hexcl)
      as (pa' & Hf' & Hu' & Ha' & Hcons' & Hexcl').
    destruct (turn a w) as [a' w']. cbn [fst snd] in *.
    apply (IH a' b w' pa' pb). unfold Race. auto 10.
  - destruct Hrace as (Hf & Hu & Ha & Hb & Hcons & Hexcl).
    destruct (turn_keeps tok pb b w (claimed pa (prog a)) Hf Hu Hb)
      as (pb' & Hf' & Hu' & Hb' & Hcons' & Hexcl').
    { intros [H | H]; apply Hcons; auto. }
    { intros [H1 H2]. apply Hexcl. auto. }
    destruct (turn b w) as [b' w']. cbn [fst snd] in *.
    apply (IH a b' w' pa pb'). unfold Race.
    split; [exact Hf'|]. split; [exact Hu'|]. split; [exact Ha|]. split; [exact Hb'|].
    split.
    + intros [H | H]; apply Hcons'; auto.
    + intros [H1 H2]. apply Hexcl'. auto.
  - apply (IH a b (with_clock (clock w + ms) w) pa pb).
    destruct Hrace as (Hf & Hu & Ha & Hb & Hcons & Hexcl). unfold Race. auto 10.
Qed.

Lemma arrive_refresh_phase ext env req tok w :
  Req.cookies_refreshToken req = Some tok ->
  exists p ph,
    arrive (route_refresh ext env req) w = (mkThread p Res.fresh, w)
    /\ at_phase tok ph p
    /\ ~ claimed ph p.
Proof.
  intros Hc. destruct (Token_truthy tok) eqn:Ht.
  - destruct (arrive_refresh ext env req tok w Hc Ht) as (p & Hp & Harr).
    exists p, PArrived. split; [exact Hp|]. split; [exact Harr|].
    unfold claimed. intros [H | [H _]]; discriminate.
  - unfold arrive, route_refresh, chain, verifyRefreshToken, asyncHandler.
    rewrite Hc, Ht. cbn.
    do 2 eexists. split; [reflexivity|]. instantiate (1 := PEnded).
    split; [reflexivity|]. apply not_claimed_ended.
Qed.

Lemma ended_with_Sent tok ph t :
  at_phase tok ph (prog t) ->
  outcome t = Some (inr Sent) ->
  claimed ph (prog t).
Proof.
  unfold outcome. intros Hph Hout.
  destruct (prog t) as [e | e | X eff k] eqn:Hp; try discriminate.
  injection Hout as ->.
  destruct ph; cbn [at_phase] in Hph;
    [apply proj1 in Hph; discriminate ..| right; auto].
Qed.

(** Two refresh requests that present the same token, interleaved in any
    order and at any pace, the store answering: they are never both
    answered with a new pair, and when one is, the ledger holds the
    presented value on revoked rows only. *)
Theorem at_most_one_refresh_wins ext env first second tok w schedule :
  Req.cookies_refreshToken first = Some tok ->
  Req.cookies_refreshToken second = Some tok ->
  faults w = [] ->
  unique_tokens (refreshTokens w) ->
  let '(a, b, w') :=
    concurrently schedule (route_refresh ext env first) (route_refresh ext env second) w in
  ~ (outcome a = Some (inr Sent) /\ outcome b = Some (inr Sent))
  /\ (outcome a = Some (inr Sent) \/ outcome b = Some (inr Sent) ->
      forall row, In row (refreshTokens w') -> RefreshToken.token row = tok ->
                  RefreshToken.isRevoked row = true).
Proof.
  intros Hfirst Hsecond Hf Hu. unfold concurrently.
  destruct (arrive_refresh_phase ext env first tok w Hfirst) as (pa & pha & -> & Ha & Hna).
  destruct (arrive_refresh_phase ext env second tok w Hsecond) as (pb & phb & -> & Hb & Hnb).
  destruct (interleave_keeps tok schedule (mkThread pa Res.fresh) (mkThread pb Res.fresh) w
              pha phb) as (pha' & phb' & Hrace).
  { unfold Race. cbn [prog]. repeat (split; [assumption|]). split.
    - intros [H | H]; contradiction.
    - intros [H _]. contradiction. }
  destruct (interleave schedule _ _ w) as [[a b] w']. cbn [fst snd] in Hrace.
  destruct Hrace as (_ & _ & Ha' & Hb' & Hcons & Hexcl).
  split.
  - intros [Hsa Hsb]. apply Hexcl. split.
    + exact (ended_with_Sent tok pha' a Ha' Hsa).
    + exact (ended_with_Sent tok phb' b Hb' Hsb).
  - intros Hsent. apply Hcons.
    destruct Hsent as [H | H];
      [left; exact (ended_with_Sent tok pha' a Ha' H)
      | right; exact (ended_with_Sent tok phb' b Hb' H)].
Qed.

(** Alice's token presented twice, in the order that leaves a live row. *)
Lemma at_most_one_refresh_wins_witness :
  let request :=
    route_refresh Fixture.ext Fixture.env (Fixture.with_cookie (Fixture.issued Fixture.alice)) in
  let '(a, b, w') :=
    concurrently [First; Second; Tick 1500; First; Second; Second; First]
      request request Fixture.world in
  ~ (outcome a = Some (inr Sent) /\ outcome b = Some (inr Sent))
  /\ (outcome a = Some (inr Sent) \/ outcome b = Some (inr Sent) ->
      forall row, In row (refreshTokens w') ->
                  RefreshToken.token row = Fixture.issued Fixture.alice ->
                  RefreshToken.isRevoked row = true).
Proof.
  apply (at_most_one_refresh_wins Fixture.ext Fixture.env
           (Fixture.with_cookie (Fixture.issued Fixture.alice))
           (Fixture.with_cookie (Fixture.issued Fixture.alice))
           (Fixture.issued Fixture.alice) Fixture.world
           [First; Second; Tick 1500; First; Second; Second; First]);
    try reflexivity.
  repeat constructor; simpl; intuition discriminate.
Defined.

(* ================================================================== *)
(** ** A refresh in the second the token was signed *)
(* ================================================================== *)

(** Signing is deterministic and stamps are whole seconds: a refresh in
    the very second its token was signed, for the same account, signs
    the presented value again.  The conditional update has revoked the
    row by then, the insert of the same value is rejected by the unique
    index, and the request fails with the store's duplicate-key error: no
    new pair, and the presented token is spent. *)
Theorem refresh_in_the_signing_second ext env req tok row a w s secs :
  Req.cookies_refreshToken req = Some tok ->
  faults w = [] ->
  unique_tokens (refreshTokens w) ->
  In row (refreshTokens w) ->
  RefreshToken.token row = tok ->
  active (clock w) row = true ->
  account_by_id (RefreshToken.user row) w = Some a ->
  jwt_sign ext (mkClaims (Admin._id a) None None)
    (JWT_REFRESH_SECRET env) (JWT_REFRESH_EXPIRE env) (clock w) = inr tok ->
  JWT_REFRESH_EXPIRE env = Some s ->
  expiresInSeconds s = Some secs ->
  exists w',
    run (route_refresh ext env req) w Res.fresh
    = (inr (NextError DuplicateKeyError), w', Res.fresh)
    /\ consumed tok (refreshTokens w')
    /\ List.map RefreshToken.token (refreshTokens w')
       = List.map RefreshToken.token (refreshTokens w).
Proof.
  intros Hc Hf Hu Hin Htok Hact Hacc Hsign Hs Hsecs.
  pose proof (jwt_sign_truthy _ _ _ _ _ _ Hsign) as Ht.
  assert (Hlive : RefreshToken.isRevoked row = false).
  { unfold active in Hact. apply andb_true_iff in Hact as [Hact _].
    destruct (RefreshToken.isRevoked row); [discriminate | reflexivity]. }
  assert (Hcas : Mongoose.findOne (unrevoked tok) (refreshTokens w) = Some row).
  { apply (findOne_unique_row _ _ row Hu Hin).
    - unfold unrevoked. rewrite Htok, Token_eqb_refl, Hlive. reflexivity.
    - intros x _ Hx. unfold unrevoked in Hx. apply andb_true_iff in Hx as [Hx _].
      apply Token_eqb_eq in Hx. congruence. }
  unfold route_refresh.
  rewrite run_chain,
    (run_verifyRefreshToken_ok req tok row a w Res.fresh Hc Ht Hf Hu Hin Htok Hact Hacc).
  rewrite (run_refreshToken ext env
             (Req.with_tokenDoc
                (RefreshToken.mkPopulated row (Some (Admin.with_password None a)))
                (Req.with_refreshToken tok
                   (Req.with_admin (Admin.with_password None a) req)))
             (RefreshToken.mkPopulated row (Some (Admin.with_password None a)))
             (Admin.with_password None a) w Res.fresh eq_refl eq_refl Hlive).
  2:{ cbn [RefreshToken.doc]. rewrite Htok. exact Ht. }
  rewrite Hf. cbn [RefreshToken.doc]. rewrite Htok.
  change (fun x => (Token_eqb (RefreshToken.token x) tok
                    && negb (RefreshToken.isRevoked x))%bool) with (unrevoked tok).
  pose proof (compare_and_set_consumes tok (clock w) _ row Hu Hcas) as Hcons.
  pose proof (findOneAndUpdate_tokens (unrevoked tok) (clock w) (refreshTokens w)) as Htoks.
  pose proof (findOneAndUpdate_fst (unrevoked tok) (set_revoked (clock w)) (refreshTokens w))
    as Hfst.
  destruct (Mongoose.findOneAndUpdate _ _ (refreshTokens w)) as [found rows].
  cbn [fst snd] in *. rewrite Hcas in Hfst. subst found. cbn [option_map].
  rewrite run_generateRefreshToken.
  cbn [clock with_refreshTokens Admin._id Admin.with_password]. rewrite Hsign, Hs, Hsecs.
  rewrite round_trip_up by exact Hf.
  cbn [refreshTokens with_refreshTokens].
  assert (Hdup : existsb (fun d => Token_eqb (RefreshToken.token d) tok) rows = true).
  { destruct Hcons as [Hthere _]. apply in_map_iff in Hthere as (x & Hx & Hxin).
    apply existsb_exists. exists x. split; [exact Hxin|]. apply Token_eqb_eq. exact Hx. }
  rewrite Hdup.
  eexists. split; [reflexivity|]. cbn [refreshTokens with_refreshTokens]. auto.
Qed.

(** Alice refreshes in the second of her login. *)
Lemma refresh_in_the_signing_second_witness :
  exists w',
    run (route_refresh Fixture.ext Fixture.env (Fixture.with_cookie (Fixture.issued Fixture.alice)))
        (with_clock 1000999 Fixture.world) Res.fresh
    = (inr (NextError DuplicateKeyError), w', Res.fresh)
    /\ consumed (Fixture.issued Fixture.alice) (refreshTokens w')
    /\ List.map RefreshToken.token (refreshTokens w')
       = List.map RefreshToken.token (refreshTokens (with_clock 1000999 Fixture.world)).
Proof.
  apply (refresh_in_the_signing_second Fixture.ext Fixture.env _
           (Fixture.issued Fixture.alice) (Fixture.row Fixture.alice false)
           Fixture.alice (with_clock 1000999 Fixture.world) "7d" 604800);
    try reflexivity.
  - repeat constructor; simpl; intuition discriminate.
  - simpl. auto.
Defined.

(* ================================================================== *)
(** ** The session routes never delete and never un-revoke *)
(* ================================================================== *)

Section Footprint.
Variable allowed : forall X, Eff X -> Prop.

Lemma Uses_bind {A B} (p : Prog A) (f : A -> Prog B) :
  Uses allowed p -> (forall a, Uses allowed (f a)) -> Uses allowed (bind p f).
Proof.
  intros Hp Hf. induction Hp; simpl; auto using Uses_Throw.
  constructor; auto.
Qed.

Lemma Uses_try_catch {A} (p : Prog A) (handler : Error -> Prog A) :
  Uses allowed p -> (forall e, Uses allowed (handler e)) ->
  Uses allowed (try_catch p handler).
Proof.
  intros Hp Hh. induction Hp; simpl; auto using Uses_Ret.
  constructor; auto.
Qed.

Lemma Uses_perform {X} (eff : Eff X) : allowed X eff -> Uses allowed (perform eff).
Proof.
  intros H. unfold perform. constructor; [exact H|].
  intros [e | v]; constructor.
Qed.

Lemma Uses_lift {A} (x : Result A) : Uses allowed (lift x).
Proof. destruct x; constructor. Qed.

Lemma Uses_settle {A} (p : Prog A) w r :
  Uses allowed p -> Uses allowed (fst (fst (settle p w r))).
Proof.
  intros Hp. revert w r.
  induction Hp as [a | e | X eff k Heff Hk IH]; intros w r; try (constructor; fail).
  cbn [settle]. destruct (is_round_trip eff).
  - constructor; auto.
  - destruct (exec eff w r) as [[x w'] r']. apply IH.
Qed.

Lemma Uses_step {A} (p : Prog A) w r :
  Uses allowed p -> Uses allowed (fst (fst (step p w r))).
Proof.
  intros Hp. destruct Hp as [a | e | X eff k Heff Hk]; try (constructor; fail).
  cbn [step]. destruct (exec eff w r) as [[x w'] r']. apply Uses_settle, Hk.
Qed.

(** A relation on worlds that every allowed effect respects is respected
    by every program made of allowed effects, run to completion or turn
    by turn. *)
Variable later : World -> World -> Prop.
Hypothesis later_refl : forall w, later w w.
Hypothesis later_trans : forall w1 w2 w3, later w1 w2 -> later w2 w3 -> later w1 w3.
Hypothesis later_exec :
  forall X (eff : Eff X) w r, allowed X eff -> later w (snd (fst (exec eff w r))).

Lemma run_later {A} (p : Prog A) w r :
  Uses allowed p -> later w (snd (fst (run p w r))).
Proof.
  intros Hp. revert w r.
  induction Hp as [a | e | X eff k Heff Hk IH]; intros w r; simpl; auto.
  pose proof (later_exec X eff w r Heff) as H1.
  destruct (exec eff w r) as [[x w'] r']. simpl in H1.
  eapply later_trans; [exact H1 | apply IH].
Qed.

Lemma settle_later {A} (p : Prog A) w r :
  Uses allowed p -> later w (snd (fst (settle p w r))).
Proof.
  intros Hp. revert w r.
  induction Hp as [a | e | X eff k Heff Hk IH]; intros w r; simpl; auto.
  destruct (is_round_trip eff); simpl; auto.
  pose proof (later_exec X eff w r Heff) as H1.
  destruct (exec eff w r) as [[x w'] r']. simpl in H1.
  eapply later_trans; [exact H1 | apply IH].
Qed.

Lemma step_later {A} (p : Prog A) w r :
  Uses allowed p -> later w (snd (fst (step p w r))).
Proof.
  intros Hp. destruct Hp as [a | e | X eff k Heff Hk]; simpl; auto.
  pose proof (later_exec X eff w r Heff) as H1.
  destruct (exec eff w r) as [[x w'] r']. simpl in H1.
  eapply later_trans; [exact H1 | apply settle_later, Hk].
Qed.

Hypothesis later_clock : forall w c, later w (with_clock c w).

Lemma interleave_later schedule (a b : Thread) w :
  Uses allowed (prog a) -> Uses allowed (prog b) ->
  later w (snd (interleave schedule a b w)).
Proof.
  revert a b w. induction schedule as [| [| | ms] rest IH]; intros a b w Ha Hb; simpl; auto.
  - unfold turn.
    pose proof (Uses_step (prog a) w (res a) Ha) as Ha'.
    pose proof (step_later (prog a) w (res a) Ha) as H1.
    destruct (step (prog a) w (res a)) as [[p' w'] r']. simpl in *.
    eapply later_trans; [exact H1 | apply IH; auto].
  - unfold turn.
    pose proof (Uses_step (prog b) w (res b) Hb) as Hb'.
    pose proof (step_later (prog b) w (res b) Hb) as H1.
    destruct (step (prog b) w (res b)) as [[p' w'] r']. simpl in *.
    eapply later_trans; [exact H1 | apply IH; auto].
  - eapply later_trans; [apply later_clock | apply IH; auto].
Qed.

Lemma concurrently_later schedule (a b : Prog End) w :
  Uses allowed a -> Uses allowed b ->
  later w (snd (concurrently schedule a b w)).
Proof.
  intros Ha Hb. unfold concurrently, arrive.
  pose proof (Uses_settle a w Res.fresh Ha) as Ha'.
  pose proof (settle_later a w Res.fresh Ha) as H1.
  destruct (settle a w Res.fresh) as [[pa w1] ra]. simpl in *.
  pose proof (Uses_settle b w1 Res.fresh Hb) as Hb'.
  pose proof (settle_later b w1 Res.fresh Hb) as H2.
  destruct (settle b w1 Res.fresh) as [[pb w2] rb]. simpl in *.
  eapply later_trans; [exact H1|]. eapply later_trans; [exact H2|].
  apply interleave_later; auto.
Qed.
End Footprint.

(** The models and the handlers of the session routes perform session
    effects only. *)
Create HintDb footprint.
#[local] Hint Constructors Uses : footprint.
#[local] Hint Resolve Uses_lift Uses_perform Uses_bind Uses_try_catch : footprint.
#[local] Hint Extern 1 (session_effect _ _) => exact I || reflexivity : footprint.
#[local] Hint Extern 2 (Uses _ (match ?x with _ => _ end)) => destruct x : footprint.

Lemma Uses_generateAccessToken ext env this :
  Uses session_effect (generateAccessToken ext env this).
Proof. unfold generateAccessToken. auto with footprint. Qed.

Lemma Uses_generateRefreshToken ext env this :
  Uses session_effect (generateRefreshToken ext env this).
Proof.
  unfold generateRefreshToken, createToken, RefreshToken_create.
  auto 12 with footprint.
Qed.

Lemma Uses_revokeToken tok : Uses session_effect (revokeToken tok).
Proof. unfold revokeToken. auto with footprint. Qed.

Lemma Uses_revoke_all_logged a label : Uses session_effect (revoke_all_logged a label).
Proof. unfold revoke_all_logged, id_of, revokeAllForUser. auto 8 with footprint. Qed.

#[local] Hint Resolve Uses_generateAccessToken Uses_generateRefreshToken
  Uses_revokeToken Uses_revoke_all_logged : footprint.

Lemma Uses_protect env req : Uses session_effect (protect env req).
Proof. unfold protect, asyncHandler, Admin_findById. auto 12 with footprint. Qed.

Lemma Uses_verifyRefreshToken req : Uses session_effect (verifyRefreshToken req).
Proof. unfold verifyRefreshToken, asyncHandler, findValidToken. auto 12 with footprint. Qed.

Lemma Uses_register ext env req : Uses session_effect (register ext env req).
Proof.
  unfold register, asyncHandler, Admin_findOne_email, Admin_create, setRefreshTokenCookie.
  auto 20 with footprint.
Qed.

Lemma Uses_login ext env req : Uses session_effect (login ext env req).
Proof.
  unfold login, asyncHandler, Admin_findOne_email, Admin_save, comparePassword,
    setRefreshTokenCookie.
  auto 20 with footprint.
Qed.

Lemma Uses_refreshToken ext env req : Uses session_effect (refreshToken ext env req).
Proof.
  unfold refreshToken, asyncHandler, setRefreshTokenCookie.
  auto 20 with footprint.
Qed.

Lemma Uses_logout env req : Uses session_effect (logout env req).
Proof.
  unfold logout, asyncHandler, clearRefreshTokenCookie.
  auto 12 with footprint.
Qed.

Lemma Uses_chain allowed (first second : Handler) req :
  Uses allowed (first req) -> (forall req', Uses allowed (second req')) ->
  Uses allowed (chain first second req).
Proof.
  intros H1 H2. unfold chain. apply Uses_bind; [exact H1|].
  intros [req' | e |]; auto using Uses_Ret.
Qed.

Lemma Uses_route ext env x req : Uses session_effect (route ext env x req).
Proof.
  destruct x; simpl.
  - apply Uses_register.
  - apply Uses_login.
  - apply Uses_chain; auto using Uses_verifyRefreshToken, Uses_refreshToken.
  - apply Uses_chain; auto using Uses_protect, Uses_logout.
Qed.

Lemma row_later_refl d : row_later d d.
Proof. unfold row_later, same_token_row. auto. Qed.

Lemma row_later_trans d1 d2 d3 : row_later d1 d2 -> row_later d2 d3 -> row_later d1 d3.
Proof.
  unfold row_later, same_token_row.
  intros [(? & ? & ? & ?) ?] [(? & ? & ? & ?) ?]. repeat split; try congruence; auto.
Qed.

Lemma row_later_set_revoked now d : row_later d (set_revoked now d).
Proof. unfold row_later, same_token_row. simpl. auto. Qed.

Lemma account_later_refl a : account_later a a.
Proof. unfold account_later. repeat split. Qed.

Lemma account_later_trans a1 a2 a3 :
  account_later a1 a2 -> account_later a2 a3 -> account_later a1 a3.
Proof.
  unfold account_later. intros H1 H2.
  decompose [and] H1. decompose [and] H2. repeat split; congruence.
Qed.

Lemma account_later_login doc now stored :
  account_later stored (apply_modified [P_lastLogin] doc now stored).
Proof. unfold account_later. simpl. repeat split. Qed.

Section Later.
Context {D : Type} (later1 : D -> D -> Prop).
Hypothesis later1_refl : forall d, later1 d d.
Hypothesis later1_trans : forall d1 d2 d3, later1 d1 d2 -> later1 d2 d3 -> later1 d1 d3.

Lemma Forall2_later_refl (l : list D) : Forall2 later1 l l.
Proof. induction l; constructor; auto. Qed.

Lemma Forall2_later_trans (l1 l2 l3 : list D) :
  Forall2 later1 l1 l2 -> Forall2 later1 l2 l3 -> Forall2 later1 l1 l3.
Proof.
  intros H. revert l3. induction H; intros l3 H3; inversion H3; subst; constructor; eauto.
Qed.

Lemma later_list_refl (l : list D) : later_list later1 l l.
Proof. exists l, []. rewrite app_nil_r. auto using Forall2_later_refl. Qed.

Lemma later_list_trans (l1 l2 l3 : list D) :
  later_list later1 l1 l2 -> later_list later1 l2 l3 -> later_list later1 l1 l3.
Proof.
  intros (kept & added & -> & H12) (kept' & added' & -> & H23).
  apply Forall2_app_inv_l in H23 as (k1 & k2 & Hk1 & _ & ->).
  exists k1, (k2 ++ added'). rewrite app_assoc. split; [reflexivity|].
  eapply Forall2_later_trans; eauto.
Qed.

Lemma later_list_insert (l : list D) d : later_list later1 l (l ++ [d]).
Proof. exists l, [d]. auto using Forall2_later_refl. Qed.

Lemma later_list_updateMany filter update (l : list D) :
  (forall d, later1 d (update d)) ->
  later_list later1 l (Mongoose.updateMany filter update l).
Proof.
  intros Hu. exists (Mongoose.updateMany filter update l), []. rewrite app_nil_r.
  split; [reflexivity|]. unfold Mongoose.updateMany.
  induction l as [| d rest IH]; simpl; constructor; auto.
  destruct (filter d); auto.
Qed.

Lemma later_list_findOneAndUpdate filter update (l : list D) :
  (forall d, later1 d (update d)) ->
  later_list later1 l (snd (Mongoose.findOneAndUpdate filter update l)).
Proof.
  intros Hu. exists (snd (Mongoose.findOneAndUpdate filter update l)), [].
  rewrite app_nil_r. split; [reflexivity|].
  induction l as [| d rest IH]; simpl; [constructor|].
  destruct (filter d); simpl.
  - constructor; auto using Forall2_later_refl.
  - destruct (Mongoose.findOneAndUpdate filter update rest). simpl in *.
    constructor; auto.
Qed.
End Later.

Lemma store_later_refl w : store_later w w.
Proof.
  split; apply later_list_refl; auto using row_later_refl, account_later_refl.
Qed.

Lemma store_later_trans w1 w2 w3 : store_later w1 w2 -> store_later w2 w3 -> store_later w1 w3.
Proof.
  intros [L1 A1] [L2 A2]. split.
  - exact (later_list_trans _ row_later_trans _ _ _ L1 L2).
  - exact (later_list_trans _ account_later_trans _ _ _ A1 A2).
Qed.

(** Neither an outage nor the passing of time touches the store. *)
Lemma store_later_same w w' :
  refreshTokens w' = refreshTokens w -> admins w' = admins w -> store_later w w'.
Proof.
  intros Hl Ha. unfold store_later. rewrite Hl, Ha. apply store_later_refl.
Qed.

Lemma round_trip_later {X} w (answer : World -> Result X * World) :
  (forall w0, refreshTokens w0 = refreshTokens w -> admins w0 = admins w ->
              store_later w (snd (answer w0))) ->
  store_later w (snd (round_trip w answer)).
Proof.
  intros H. unfold round_trip.
  destruct (faults w) as [| [|] script]; simpl.
  - apply H; reflexivity.
  - apply store_later_same; reflexivity.
  - apply H; reflexivity.
Qed.

Lemma exec_later {X} (eff : Eff X) w r :
  session_effect X eff -> store_later w (snd (fst (exec eff w r))).
Proof.
  destruct eff; simpl; intros Heff;
    try (apply store_later_same; reflexivity);
    try (apply round_trip_later; intros w0 Hl Ha; simpl;
         apply store_later_same; assumption).
  - (* AdminInsert *)
    apply round_trip_later. intros w0 Hl Ha.
    destruct (existsb _ _); simpl; [apply store_later_same; assumption|].
    split; simpl.
    + rewrite Hl. apply later_list_refl, row_later_refl.
    + rewrite Ha. apply later_list_insert, account_later_refl.
  - (* AdminSave *)
    subst modified. apply round_trip_later. intros w0 Hl Ha.
    pose proof (later_list_findOneAndUpdate account_later account_later_refl
                  (fun a => Nat.eqb (Admin._id a) (Admin._id doc))
                  (apply_modified [P_lastLogin] doc (clock w0)) (admins w0)
                  (account_later_login doc (clock w0))) as H.
    destruct (Mongoose.findOneAndUpdate _ _ (admins w0)) as [[found|] admins'];
      simpl in *; [|apply store_later_same; assumption].
    split; simpl.
    + rewrite Hl. apply later_list_refl, row_later_refl.
    + rewrite <- Ha. exact H.
  - (* TokenInsert *)
    apply round_trip_later. intros w0 Hl Ha.
    destruct (existsb _ _); simpl; [apply store_later_same; assumption|].
    split; simpl.
    + rewrite Hl. apply later_list_insert, row_later_refl.
    + rewrite Ha. apply later_list_refl, account_later_refl.
  - (* TokenFindOneAndUpdate *)
    subst update. apply round_trip_later. intros w0 Hl Ha.
    pose proof (later_list_findOneAndUpdate row_later row_later_refl filter
                  (set_revoked (clock w0)) (refreshTokens w0)
                  (row_later_set_revoked (clock w0))) as H.
    destruct (Mongoose.findOneAndUpdate _ _ (refreshTokens w0)) as [found rows].
    split; simpl in *.
    + rewrite <- Hl. exact H.
    + rewrite Ha. apply later_list_refl, account_later_refl.
  - (* TokenUpdateMany *)
    subst update. apply round_trip_later. intros w0 Hl Ha.
    split; simpl.
    + rewrite <- Hl.
      apply (later_list_updateMany row_later row_later_refl), row_later_set_revoked.
    + rewrite Ha. apply later_list_refl, account_later_refl.
  - (* TokenDeleteMany *)
    contradiction.
Qed.

(* ================================================================== *)
(** ** The access guard *)
(* ================================================================== *)

(** [protect], whatever the request carries. *)
Lemma run_protect env req w r :
  run (protect env req) w r =
  match presented req with
  | None => (inr (NextError (AppError "Not authorized to access this route" 401)), w, r)
  | Some token =>
      match jwt_verify token (JWT_SECRET env) (clock w) with
      | inl e =>
          (inr (NextError (AppError (if String.eqb (err_name e) "TokenExpiredError"
                                     then "Token expired" else "Token is not valid") 401)),
           w, r)
      | inr decoded =>
          let looked_up (w : World) :=
            match account_by_id (claim_id decoded) w with
            | None => (inr (NextError (AppError "Token is not valid" 401)), w, r)
            | Some account =>
                if Admin.isActive account
                then (inr (Next (Req.with_admin (Admin.with_password None account) req)), w, r)
                else (inr (NextError (AppError "Account is deactivated" 401)), w, r)
            end in
          match faults w with
          | true :: script =>
              (inr (NextError (AppError "Token is not valid" 401)), with_faults script w, r)
          | false :: script => looked_up (with_faults script w)
          | [] => looked_up w
          end
      end
  end.
Proof.
  unfold protect, asyncHandler, presented.
  assert (Hinner : forall token, Token_truthy token = true ->
    run (try_catch
           (try_catch
              (now <- perform DateNow ;;
               decoded <- lift (jwt_verify token (JWT_SECRET env) now) ;;
               admin <- Admin_findById (claim_id decoded) ;;
               match admin with
               | None => Ret (NextError (AppError "Token is not valid" 401))
               | Some admin =>
                   if negb (Admin.isActive admin)
                   then Ret (NextError (AppError "Account is deactivated" 401))
                   else Ret (Next (Req.with_admin admin req))
               end)
              (fun error =>
                 if String.eqb (err_name error) "TokenExpiredError"
                 then Ret (NextError (AppError "Token expired" 401))
                 else Ret (NextError (AppError "Token is not valid" 401))))
           (fun err => Ret (NextError err))) w r
    = match jwt_verify token (JWT_SECRET env) (clock w) with
      | inl e =>
          (inr (NextError (AppError (if String.eqb (err_name e) "TokenExpiredError"
                                     then "Token expired" else "Token is not valid") 401)),
           w, r)
      | inr decoded =>
          let looked_up (w : World) :=
            match account_by_id (claim_id decoded) w with
            | None => (inr (NextError (AppError "Token is not valid" 401)), w, r)
            | Some account =>
                if Admin.isActive account
                then (inr (Next (Req.with_admin (Admin.with_password None account) req)), w, r)
                else (inr (NextError (AppError "Account is deactivated" 401)), w, r)
            end in
          match faults w with
          | true :: script =>
              (inr (NextError (AppError "Token is not valid" 401)), with_faults script w, r)
          | false :: script => looked_up (with_faults script w)
          | [] => looked_up w
          end
      end).
  { intros token _.
    rewrite !run_try_catch, run_bind, run_perform. cbn [exec].
    rewrite run_bind.
    destruct (jwt_verify _ _ _) as [e | decoded]; cbn [lift run].
    - destruct (String.eqb (err_name e) "TokenExpiredError"); reflexivity.
    - rewrite run_bind. unfold Admin_findById. rewrite run_perform. cbn [exec].
      unfold account_by_id, round_trip.
      destruct (faults w) as [| [|] script]; cbn [admins with_faults];
        try reflexivity;
        destruct (Mongoose.findOne _ (admins w)) as [account|];
        cbn [option_map project run]; try reflexivity;
        change (Admin.isActive (Admin.with_password None account))
          with (Admin.isActive account);
        destruct (Admin.isActive account); reflexivity. }
  unfold falsy.
  destruct (bearer (Req.authorization req)) as [t|];
    [destruct (Token_truthy t) eqn:Ht|];
    cbn [negb andb];
    try (destruct (Req.cookies_accessToken req) as [c|];
         [destruct (Token_truthy c) eqn:Hc|]; cbn [negb andb]);
    try rewrite Ht; try rewrite Hc; cbn [negb];
    try reflexivity; apply Hinner; assumption.
Qed.

(** The outcomes of [protect] and what it leaves alone. *)
Lemma protect_cases env req w r :
  exists out w',
    run (protect env req) w r = (inr out, w', r)
    /\ admins w' = admins w
    /\ refreshTokens w' = refreshTokens w
    /\ console w' = console w
    /\ clock w' = clock w
    /\ ((exists stored,
           out = Next (Req.with_admin (Admin.with_password None stored) req)
           /\ In stored (admins w)
           /\ Admin.isActive stored = true)
        \/
        (exists message,
           out = NextError (AppError message 401)
           /\ In message ["Not authorized to access this route"; "Token expired";
                          "Token is not valid"; "Account is deactivated"])).
Proof.
  rewrite run_protect.
  assert (Hlook : forall id w0,
    admins w0 = admins w -> refreshTokens w0 = refreshTokens w ->
    console w0 = console w -> clock w0 = clock w ->
    exists out w',
      match account_by_id id w0 return Result End * World * Res.t with
      | None => (inr (NextError (AppError "Token is not valid" 401)), w0, r)
      | Some account =>
          if Admin.isActive account
          then (inr (Next (Req.with_admin (Admin.with_password None account) req)), w0, r)
          else (inr (NextError (AppError "Account is deactivated" 401)), w0, r)
      end = (inr out, w', r)
      /\ admins w' = admins w /\ refreshTokens w' = refreshTokens w
      /\ console w' = console w /\ clock w' = clock w
      /\ ((exists stored,
             out = Next (Req.with_admin (Admin.with_password None stored) req)
             /\ In stored (admins w) /\ Admin.isActive stored = true)
          \/ (exists message,
                out = NextError (AppError message 401)
                /\ In message ["Not authorized to access this route"; "Token expired";
                               "Token is not valid"; "Account is deactivated"]))).
  { intros id w0 Ha Hl Hc Hk. unfold account_by_id.
    destruct (Mongoose.findOne _ (admins w0)) as [account|] eqn:Hfind.
    - apply findOne_Some in Hfind as [Hin _]. rewrite Ha in Hin.
      destruct (Admin.isActive account) eqn:Hact; do 2 eexists;
        (split; [reflexivity|]); repeat (split; [assumption|]).
      + left. exists account. auto.
      + right. eexists. split; [reflexivity|]. simpl. auto.
    - do 2 eexists. split; [reflexivity|]. repeat (split; [assumption|]).
      right. eexists. split; [reflexivity|]. simpl. auto. }
  destruct (presented req) as [token|].
  2:{ do 2 eexists. split; [reflexivity|]. repeat (split; [reflexivity|]).
      right. eexists. split; [reflexivity|]. simpl. auto. }
  destruct (jwt_verify _ _ _) as [e | decoded].
  { do 2 eexists. split; [reflexivity|]. repeat (split; [reflexivity|]).
    right. eexists. split; [reflexivity|].
    destruct (String.eqb _ _); simpl; auto. }
  cbv zeta. destruct (faults w) as [| [|] script].
  - apply Hlook; reflexivity.
  - do 2 eexists. split; [reflexivity|]. repeat (split; [reflexivity|]).
    right. eexists. split; [reflexivity|]. simpl. auto.
  - apply Hlook; reflexivity.
Qed.

(** [protect] only reads.  Whatever the request carries and
    whatever the store does, it ends by calling [next]: either with no
    error, the request then carrying an account of the store that is
    active, its password left out; or with an error of status 401 and
    one of four messages -- an outage of the store during the lookup
    included, which is reported as an invalid token.  It never throws,
    never writes to the response, never logs, and leaves both
    collections as they are.  It answers "Not authorized to access this
    route" exactly when the request presents no access token, in the
    header or in the cookie, and then without a round trip to the
    store. *)
Theorem protect_only_reads env req w r :
  exists out w',
    run (protect env req) w r = (inr out, w', r)
    /\ admins w' = admins w
    /\ refreshTokens w' = refreshTokens w
    /\ console w' = console w
    /\ clock w' = clock w
    /\ ((exists stored,
           out = Next (Req.with_admin (Admin.with_password None stored) req)
           /\ In stored (admins w)
           /\ Admin.isActive stored = true)
        \/
        (exists message,
           out = NextError (AppError message 401)
           /\ In message ["Not authorized to access this route"; "Token expired";
                          "Token is not valid"; "Account is deactivated"]))
    /\ (presented req = None
        <-> out = NextError (AppError "Not authorized to access this route" 401))
    /\ (presented req = None -> w' = w).
Proof.
  destruct (protect_cases env req w r) as (out & w' & Hrun & Ha & Hl & Hc & Hk & Hout).
  exists out, w'. repeat (split; [assumption|]).
  rewrite run_protect in Hrun.
  destruct (presented req) as [token|].
  2:{ injection Hrun as <- <-. repeat split; auto. }
  split; [|discriminate]. split; [discriminate|]. intros ->. exfalso.
  destruct (jwt_verify _ _ _) as [e | decoded].
  { destruct (String.eqb _ _); discriminate. }
  cbv zeta in Hrun. destruct (faults w) as [| [|] script]; try discriminate;
    destruct (account_by_id _ _) as [account|]; try discriminate;
    destruct (Admin.isActive account); discriminate.
Qed.

(** An access token in the [accessToken] cookie is honoured as one
    in the [Authorization] header is, and the header wins: a request
    whose header carries the bearer token [t] (whatever its cookies) and
    a request with no usable header and [t] in the cookie get the same
    decision, in every world. *)
Theorem protect_cookie_fallback env t by_header by_cookie w r :
  bearer (Req.authorization by_header) = Some t ->
  Token_truthy t = true ->
  falsy (bearer (Req.authorization by_cookie)) = true ->
  Req.cookies_accessToken by_cookie = Some t ->
  decision (fst (fst (run (protect env by_header) w r)))
  = decision (fst (fst (run (protect env by_cookie) w r)))
  /\ snd (fst (run (protect env by_header) w r))
     = snd (fst (run (protect env by_cookie) w r)).
Proof.
  intros Hh Ht Hnone Hc. rewrite !run_protect.
  assert (presented by_header = Some t) as ->.
  { unfold presented, falsy. rewrite Hh, Ht. reflexivity. }
  assert (presented by_cookie = Some t) as ->.
  { unfold presented. rewrite Hnone, Hc. unfold falsy. rewrite Ht. reflexivity. }
  destruct (jwt_verify _ _ _) as [e | decoded]; [split; reflexivity|].
  cbv zeta. unfold account_by_id.
  destruct (faults w) as [| [|] script]; cbn [admins with_faults];
    try (split; reflexivity);
    destruct (Mongoose.findOne _ (admins w)) as [account|];
    try (split; reflexivity);
    destruct (Admin.isActive account); split; reflexivity.
Qed.

(** Alice's token in the header of one request (with a stale cookie
    beside it) and in the cookie of another. *)
Lemma protect_cookie_fallback_witness :
  let t := Jwt "access-secret" (access_claims Fixture.alice) 2000 2900 in
  let by_header :=
    Req.mk (Some [Opaque "bearer"; t]) None (Some (Opaque "stale")) None None None None
           None None None in
  let by_cookie :=
    Req.mk (Some [Opaque "Basic"; Opaque "dXNlcg=="]) None (Some t) None None None None
           None None None in
  decision (fst (fst (run (protect Fixture.env by_header) Fixture.world Res.fresh)))
  = decision (fst (fst (run (protect Fixture.env by_cookie) Fixture.world Res.fresh)))
  /\ snd (fst (run (protect Fixture.env by_header) Fixture.world Res.fresh))
     = snd (fst (run (protect Fixture.env by_cookie) Fixture.world Res.fresh)).
Proof.
  apply (protect_cookie_fallback Fixture.env
           (Jwt "access-secret" (access_claims Fixture.alice) 2000 2900));
    reflexivity.
Defined.

(** [protect] tells an access token from a refresh token by the
    signing secret alone.  A token minted by [generateRefreshToken] for
    an active account, presented as a bearer token within its signed
    life, is accepted as an access token when [JWT_SECRET] and
    [JWT_REFRESH_SECRET] are the same string, and rejected with "Token
    is not valid" when they differ. *)
Theorem refresh_token_as_access_token ext env a w0 r0 tok w0' r0' e ttl :
  run (generateRefreshToken ext env a) w0 r0 = (inr tok, w0', r0') ->
  JWT_REFRESH_EXPIRE env = Some e ->
  timespan ext e = Some ttl ->
  forall req w r account,
    presented req = Some tok ->
    clock w / 1000 < clock w0 / 1000 + ttl ->
    faults w = [] ->
    account_by_id (Admin._id a) w = Some account ->
    Admin.isActive account = true ->
    (JWT_SECRET env = JWT_REFRESH_SECRET env ->
     run (protect env req) w r
     = (inr (Next (Req.with_admin (Admin.with_password None account) req)), w, r))
    /\
    (JWT_SECRET env <> JWT_REFRESH_SECRET env ->
     run (protect env req) w r
     = (inr (NextError (AppError "Token is not valid" 401)), w, r)).
Proof.
  intros Hmint He Httl req w r account Hp Hlive Hf Hacc Hact.
  assert (Hsign : jwt_sign ext (mkClaims (Admin._id a) None None)
                    (JWT_REFRESH_SECRET env) (JWT_REFRESH_EXPIRE env) (clock w0) = inr tok).
  { rewrite run_generateRefreshToken in Hmint.
    destruct (jwt_sign _ _ _ _ _) as [err | tok0]; [discriminate|].
    destruct (JWT_REFRESH_EXPIRE env) as [s|]; [|discriminate].
    destruct (expiresInSeconds s) as [secs|]; [|discriminate].
    destruct (round_trip _ _) as [[err | row] w1]; [discriminate|].
    injection Hmint as -> _ _. reflexivity. }
  destruct (jwt_sign_inr _ _ _ _ _ _ Hsign) as (k & e' & ttl' & Hk & Hkt & He' & Httl' & ->).
  assert (ttl' = ttl) as -> by congruence.
  rewrite run_protect, Hp. unfold jwt_verify.
  split.
  - intros ->. rewrite Hk, Hkt, String.eqb_refl.
    apply Z.leb_gt in Hlive. rewrite Hlive, Hf. cbn [claim_id]. rewrite Hacc, Hact.
    reflexivity.
  - intros Hne. destruct (JWT_SECRET env) as [s|]; [|reflexivity].
    destruct (JS.truthy s); [|reflexivity].
    destruct (String.eqb k s) eqn:Hks; [|reflexivity].
    apply String.eqb_eq in Hks. congruence.
Qed.

(** Alice's refresh token as a bearer token: accepted by a deployment
    that signs both kinds with one secret, rejected by the fixture. *)
Lemma refresh_token_as_access_token_witness :
  run (protect (mkEnv (Some "one-secret") (Some "15m") (Some "one-secret") (Some "7d") None None)
         (Fixture.with_bearer (Jwt "one-secret" (mkClaims 1%nat None None) 2000 606800)))
      Fixture.world Res.fresh
  = (inr (Next (Req.with_admin (Admin.with_password None Fixture.alice)
                  (Fixture.with_bearer
                     (Jwt "one-secret" (mkClaims 1%nat None None) 2000 606800)))),
     Fixture.world, Res.fresh)
  /\
  run (protect Fixture.env
         (Fixture.with_bearer (Jwt "refresh-secret" (mkClaims 1%nat None None) 2000 606800)))
      Fixture.world Res.fresh
  = (inr (NextError (AppError "Token is not valid" 401)), Fixture.world, Res.fresh).
Proof.
  split.
  - apply (proj1 (refresh_token_as_access_token Fixture.ext
                    (mkEnv (Some "one-secret") (Some "15m") (Some "one-secret") (Some "7d")
                           None None)
                    Fixture.alice Fixture.world Res.fresh
                    (Jwt "one-secret" (mkClaims 1%nat None None) 2000 606800)
                    _ Res.fresh "7d" 604800 eq_refl eq_refl eq_refl
                    (Fixture.with_bearer
                       (Jwt "one-secret" (mkClaims 1%nat None None) 2000 606800))
                    Fixture.world Res.fresh Fixture.alice
                    eq_refl eq_refl eq_refl eq_refl eq_refl)).
    reflexivity.
  - apply (proj2 (refresh_token_as_access_token Fixture.ext Fixture.env
                    Fixture.alice Fixture.world Res.fresh
                    (Jwt "refresh-secret" (mkClaims 1%nat None None) 2000 606800)
                    _ Res.fresh "7d" 604800 eq_refl eq_refl eq_refl
                    (Fixture.with_bearer
                       (Jwt "refresh-secret" (mkClaims 1%nat None None) 2000 606800))
                    Fixture.world Res.fresh Fixture.alice
                    eq_refl eq_refl eq_refl eq_refl eq_refl)).
    discriminate.
Defined.

(** Behind [protect], [authorize] decides on the role the store
    holds for the account at the time of the request, not on the role
    claim of the token: with a token that [protect] accepts, the request
    passes when the stored role is one of [roles], and is otherwise
    refused with status 403 and a message naming the stored role.  So
    the routes guarded with ['admin'] refuse a super-admin. *)
Theorem guard_decides_on_the_stored_role env roles req key claims iat exp account w r :
  presented req = Some (Jwt key claims iat exp) ->
  JWT_SECRET env = Some key ->
  JS.truthy key = true ->
  clock w / 1000 < exp ->
  faults w = [] ->
  account_by_id (claim_id claims) w = Some account ->
  Admin.isActive account = true ->
  (In (Admin.role account) roles ->
   run (guarded env roles req) w r
   = (inr (Next (Req.with_admin (Admin.with_password None account) req)), w, r))
  /\
  (~ In (Admin.role account) roles ->
   run (guarded env roles req) w r
   = (inr (NextError (AppError ("Role " ++ Admin.role account
                                ++ " is not authorized to access this route") 403)), w, r)).
Proof.
  intros Hp Hk Hkt Hlive Hf Hacc Hact.
  assert (Hrun : run (protect env req) w r
                 = (inr (Next (Req.with_admin (Admin.with_password None account) req)), w, r)).
  { rewrite run_protect, Hp. unfold jwt_verify. rewrite Hk, Hkt, String.eqb_refl.
    apply Z.leb_gt in Hlive. rewrite Hlive, Hf. cbv zeta. rewrite Hacc, Hact. reflexivity. }
  unfold guarded. rewrite run_chain, Hrun. unfold authorize.
  cbn [Req.admin Req.with_admin Admin.role Admin.with_password].
  destruct (existsb (String.eqb (Admin.role account)) roles) eqn:Hin; cbn [negb run].
  - split; [reflexivity|]. intros Hnot. exfalso. apply Hnot.
    apply existsb_exists in Hin as (x & Hx & Heq). apply String.eqb_eq in Heq. congruence.
  - split; [|reflexivity]. intros Hyes. exfalso.
    assert (existsb (String.eqb (Admin.role account)) roles = true); [|congruence].
    apply existsb_exists. exists (Admin.role account). split; [exact Hyes|].
    apply String.eqb_refl.
Qed.

(** A super-admin whose token still carries the role claim "admin" is
    refused by a route guarded with ['admin']; Alice, an admin, passes. *)
Lemma guard_decides_on_the_stored_role_witness :
  let root := Admin.mk 3%nat "Root" "root@x.com" (Some "$2a$12$t0psecret") "super-admin" true
                       None None None 1000000 1000000 in
  let w := with_admins [Fixture.alice; Fixture.bob; root] Fixture.world in
  let stale := Jwt "access-secret" (mkClaims 3%nat (Some "root@x.com") (Some "admin"))
                   2000 2900 in
  run (guarded Fixture.env ["admin"] (Fixture.with_bearer stale)) w Res.fresh
  = (inr (NextError (AppError "Role super-admin is not authorized to access this route" 403)),
     w, Res.fresh)
  /\
  run (guarded Fixture.env ["admin"]
         (Fixture.with_bearer (Jwt "access-secret" (access_claims Fixture.alice) 2000 2900)))
      w Res.fresh
  = (inr (Next (Req.with_admin (Admin.with_password None Fixture.alice)
                  (Fixture.with_bearer
                     (Jwt "access-secret" (access_claims Fixture.alice) 2000 2900)))),
     w, Res.fresh).
Proof.
  cbv zeta. split.
  - apply (proj2 (guard_decides_on_the_stored_role Fixture.env ["admin"]
                    (Fixture.with_bearer
                       (Jwt "access-secret" (mkClaims 3%nat (Some "root@x.com") (Some "admin"))
                            2000 2900))
                    "access-secret" (mkClaims 3%nat (Some "root@x.com") (Some "admin"))
                    2000 2900
                    (Admin.mk 3%nat "Root" "root@x.com" (Some "$2a$12$t0psecret")
                       "super-admin" true None None None 1000000 1000000)
                    (with_admins
                       [Fixture.alice; Fixture.bob;
                        Admin.mk 3%nat "Root" "root@x.com" (Some "$2a$12$t0psecret")
                          "super-admin" true None None None 1000000 1000000]
                       Fixture.world)
                    Res.fresh eq_refl eq_refl eq_refl eq_refl eq_refl eq_refl eq_refl)).
    simpl. intros [H | []]. discriminate H.
  - apply (proj1 (guard_decides_on_the_stored_role Fixture.env ["admin"]
                    (Fixture.with_bearer
                       (Jwt "access-secret" (access_claims Fixture.alice) 2000 2900))
                    "access-secret" (access_claims Fixture.alice) 2000 2900 Fixture.alice
                    (with_admins
                       [Fixture.alice; Fixture.bob;
                        Admin.mk 3%nat "Root" "root@x.com" (Some "$2a$12$t0psecret")
                          "super-admin" true None None None 1000000 1000000]
                       Fixture.world)
                    Res.fresh eq_refl eq_refl eq_refl eq_refl eq_refl eq_refl eq_refl)).
    simpl. auto.
Defined.

(* ================================================================== *)
(** ** The refresh cookie *)
(* ================================================================== *)

(** The cookie that is cleared is the cookie that was set.  In
    every deployment, [setRefreshTokenCookie] sets and
    [clearRefreshTokenCookie] clears a cookie of the same name, path and
    domain, with the same [secure] and [sameSite] attributes; the cookie
    is always [httpOnly], lives seven days, and is [sameSite=none] only
    together with [secure] (both exactly in production). *)
Theorem cleared_cookie_is_the_set_cookie env tok w r :
  exists set_opts clear_opts,
    run (setRefreshTokenCookie env tok) w r
    = (inr tt, w, Res.mk (Res.statusCode r)
                    (Res.cookies r ++ [SetCookie "refreshToken" tok set_opts]) (Res.body r))
    /\ run (clearRefreshTokenCookie env) w r
       = (inr tt, w, Res.mk (Res.statusCode r)
                       (Res.cookies r ++ [ClearCookie "refreshToken" clear_opts]) (Res.body r))
    /\ path clear_opts = path set_opts
    /\ domain clear_opts = domain set_opts
    /\ secure clear_opts = secure set_opts
    /\ sameSite clear_opts = sameSite set_opts
    /\ httpOnly set_opts = true /\ httpOnly clear_opts = true
    /\ maxAge set_opts = Some 604800000
    /\ (secure set_opts = true <-> NODE_ENV env = Some "production")
    /\ (sameSite set_opts = "none" <-> secure set_opts = true)
    /\ (domain set_opts <> None <-> exists d, COOKIE_DOMAIN env = Some d /\ d <> "").
Proof.
  do 2 eexists. split; [reflexivity|]. split; [reflexivity|].
  cbn [path domain secure sameSite httpOnly maxAge].
  repeat (split; [reflexivity|]).
  split; [|split].
  - unfold isProd. apply (option_eqb_eq String.eqb String.eqb_eq).
  - destruct (isProd env); split; auto; discriminate.
  - unfold cookieDomain, JS.truthy_opt, JS.truthy.
    destruct (COOKIE_DOMAIN env) as [d|]; [destruct (String.eqb d "") eqn:Hd|]; cbn [negb].
    + apply String.eqb_eq in Hd. subst d. split; [congruence|].
      intros (d & [= <-] & Hne). congruence.
    + apply String.eqb_neq in Hd. split; [|discriminate]. intros _. exists d. auto.
    + split; [congruence|]. intros (d & H & _). discriminate H.
Qed.

(* ================================================================== *)
(** ** Expiry: the clean-up job and the lookup *)
(* ================================================================== *)

Lemma findOne_deleteMany {D} (wanted deleted : D -> bool) docs :
  (forall d, wanted d = true -> deleted d = false) ->
  Mongoose.findOne wanted (Mongoose.deleteMany deleted docs) = Mongoose.findOne wanted docs.
Proof.
  intros H. unfold Mongoose.findOne, Mongoose.deleteMany.
  induction docs as [| d rest IH]; simpl; [reflexivity|].
  destruct (wanted d) eqn:Hw.
  - rewrite (H d Hw). simpl. rewrite Hw. reflexivity.
  - destruct (deleted d); simpl; [|rewrite Hw]; exact IH.
Qed.

Lemma count_deleteMany {D} (deleted : D -> bool) docs :
  (Mongoose.count deleted docs + List.length (Mongoose.deleteMany deleted docs))%nat
  = List.length docs.
Proof.
  unfold Mongoose.count, Mongoose.deleteMany.
  induction docs as [| d rest IH]; simpl; [reflexivity|].
  destruct (deleted d); simpl; lia.
Qed.

Lemma run_cleanupExpired w r :
  run cleanupExpired w r =
  let '(x, w') :=
    round_trip w (fun w =>
      (inr (Mongoose.count (fun d => RefreshToken.expiresAt d <? clock w) (refreshTokens w)),
       with_refreshTokens
         (Mongoose.deleteMany (fun d => RefreshToken.expiresAt d <? clock w)
            (refreshTokens w)) w)) in
  (x, w', r).
Proof.
  unfold cleanupExpired. rewrite run_bind, run_perform. cbn [exec].
  rewrite run_perform. cbn [exec]. destruct (round_trip _ _). reflexivity.
Qed.

Lemma run_findValidToken tok w r :
  run (findValidToken tok) w r =
  let '(x, w') :=
    round_trip w (fun w =>
      (inr (option_map
              (fun d => RefreshToken.mkPopulated d
                 (option_map (project false) (account_by_id (RefreshToken.user d) w)))
              (Mongoose.findOne
                 (fun d => (Token_eqb (RefreshToken.token d) tok
                            && negb (RefreshToken.isRevoked d)
                            && (clock w <? RefreshToken.expiresAt d))%bool)
                 (refreshTokens w))), w)) in
  (x, w', r).
Proof.
  unfold findValidToken. rewrite run_bind, run_perform. cbn [exec].
  rewrite run_perform. cbn [exec]. unfold round_trip, account_by_id.
  destruct (faults w) as [| [|] script]; reflexivity.
Qed.

(** The hourly clean-up, [cleanupExpired], removes the rows whose
    expiry lies strictly before the clock and no other (a row that
    expires at this very instant stays), reports how many it removed,
    and is invisible to the session protocol: every row that is still
    ACTIVE is kept as it is, and at the same or any later clock
    [findValidToken] answers for every token value what it would have
    answered without the clean-up.  When the store does not answer,
    nothing is removed. *)
Theorem cleanup_removes_only_expired_rows w r :
  (faults w = [] ->
   exists removed w',
     run cleanupExpired w r = (inr removed, w', r)
     /\ (forall d, In d (refreshTokens w')
                   <-> In d (refreshTokens w) /\ clock w <= RefreshToken.expiresAt d)
     /\ (removed + List.length (refreshTokens w'))%nat = List.length (refreshTokens w)
     /\ admins w' = admins w
     /\ (forall d, In d (refreshTokens w) -> active (clock w) d = true ->
                   In d (refreshTokens w'))
     /\ (forall tok later,
           clock w <= later ->
           fst (fst (run (findValidToken tok) (with_clock later w') r))
           = fst (fst (run (findValidToken tok) (with_clock later w) r))))
  /\
  (forall script,
     faults w = true :: script ->
     run cleanupExpired w r = (inl MongoNetworkError, with_faults script w, r)).
Proof.
  split.
  - intros Hf. rewrite run_cleanupExpired, (round_trip_up _ _ Hf).
    do 2 eexists. split; [reflexivity|].
    cbn [refreshTokens with_refreshTokens admins].
    split; [|split; [|split; [|split]]].
    + intros d. unfold Mongoose.deleteMany. rewrite filter_In, negb_true_iff, Z.ltb_ge.
      reflexivity.
    + apply count_deleteMany.
    + reflexivity.
    + intros d Hd Hact. unfold Mongoose.deleteMany. apply filter_In. split; [exact Hd|].
      unfold active in Hact. apply andb_true_iff in Hact as [_ Hact].
      apply Z.ltb_lt in Hact. apply negb_true_iff, Z.ltb_ge. lia.
    + intros tok later Hlater. rewrite !run_findValidToken.
      unfold round_trip, account_by_id.
      cbn [faults with_clock with_refreshTokens]. rewrite Hf.
      cbn [fst snd refreshTokens clock admins with_clock with_refreshTokens].
      rewrite findOne_deleteMany; [reflexivity|].
      intros d Hd. apply andb_true_iff in Hd as [_ Hd]. apply Z.ltb_lt in Hd.
      apply Z.ltb_ge. lia.
  - intros script Hf. rewrite run_cleanupExpired, (round_trip_down _ _ _ Hf). reflexivity.
Qed.

(** A ledger with a row that expired half a second ago beside Alice's. *)
Lemma cleanup_removes_only_expired_rows_witness :
  exists removed w',
    run cleanupExpired
        (with_refreshTokens
           [RefreshToken.mk (Opaque "old") 1%nat 1999500 false 1000000 1000000;
            Fixture.row Fixture.alice false] Fixture.world) Res.fresh
    = (inr removed, w', Res.fresh)
    /\ removed = 1%nat
    /\ refreshTokens w' = [Fixture.row Fixture.alice false].
Proof.
  destruct (proj1 (cleanup_removes_only_expired_rows
                     (with_refreshTokens
                        [RefreshToken.mk (Opaque "old") 1%nat 1999500 false 1000000 1000000;
                         Fixture.row Fixture.alice false] Fixture.world) Res.fresh) eq_refl)
    as (removed & w' & Hrun & _).
  exists removed, w'. split; [exact Hrun|].
  vm_compute in Hrun. injection Hrun as <- <-. split; reflexivity.
Defined.

Lemma run_isExpired this w r :
  run (isExpired this) w r = (inr (RefreshToken.expiresAt this <=? clock w), w, r).
Proof. reflexivity. Qed.

(** [findValidToken] and the row method [isExpired] draw the same
    line.  With the store answering, the lookup returns for a token
    value the first row of the ledger that carries it, is unrevoked, and
    is not expired by its own [isExpired] method, with the account of
    its owner attached (password left out; nothing attached when the
    account is gone); and it returns nothing exactly when every row
    carrying the value is revoked or expired by [isExpired].  A row whose
    expiry is the present instant is expired for both.  The lookup
    changes nothing. *)
Theorem valid_token_lookup tok w r :
  faults w = [] ->
  exists found,
    run (findValidToken tok) w r = (inr found, w, r)
    /\ (forall hit,
          found = Some hit ->
          In (RefreshToken.doc hit) (refreshTokens w)
          /\ RefreshToken.token (RefreshToken.doc hit) = tok
          /\ RefreshToken.isRevoked (RefreshToken.doc hit) = false
          /\ run (isExpired (RefreshToken.doc hit)) w r = (inr false, w, r)
          /\ RefreshToken.populatedUser hit
             = option_map (Admin.with_password None)
                 (account_by_id (RefreshToken.user (RefreshToken.doc hit)) w))
    /\ (found = None <->
        forall d, In d (refreshTokens w) -> RefreshToken.token d = tok ->
                  RefreshToken.isRevoked d = true
                  \/ run (isExpired d) w r = (inr true, w, r)).
Proof.
  intros Hf. rewrite run_findValidToken, (round_trip_up _ _ Hf).
  eexists. split; [reflexivity|]. split.
  - intros hit Hhit.
    destruct (Mongoose.findOne _ (refreshTokens w)) as [d|] eqn:Hfind; [|discriminate].
    injection Hhit as <-. cbn [RefreshToken.doc RefreshToken.populatedUser].
    apply findOne_Some in Hfind as [Hin Hd].
    apply andb_true_iff in Hd as [Hd Hlive]. apply andb_true_iff in Hd as [Htok Hrev].
    apply Token_eqb_eq in Htok. apply negb_true_iff in Hrev. apply Z.ltb_lt in Hlive.
    repeat split; auto.
    rewrite run_isExpired. replace (_ <=? _) with false; [reflexivity|].
    symmetry. apply Z.leb_gt. exact Hlive.
  - destruct (Mongoose.findOne _ (refreshTokens w)) as [d|] eqn:Hfind; cbn [option_map].
    + split; [discriminate|]. intros Hall. exfalso.
      apply findOne_Some in Hfind as [Hin Hd].
      apply andb_true_iff in Hd as [Hd Hlive]. apply andb_true_iff in Hd as [Htok Hrev].
      apply Token_eqb_eq in Htok. apply negb_true_iff in Hrev. apply Z.ltb_lt in Hlive.
      destruct (Hall d Hin Htok) as [H | H]; [congruence|].
      rewrite run_isExpired in H. injection H as H. apply Z.leb_le in H. lia.
    + split; [|reflexivity]. intros _ d Hin Htok.
      pose proof (proj1 (findOne_None _ _) Hfind d Hin) as Hd. cbv beta in Hd.
      rewrite Htok, Token_eqb_refl in Hd. cbn [andb] in Hd.
      destruct (RefreshToken.isRevoked d); [left; reflexivity|]. right.
      cbn [negb andb] in Hd. rewrite run_isExpired.
      apply Z.ltb_ge in Hd. apply Z.leb_le in Hd. rewrite Hd. reflexivity.
Qed.

(** At clock 2000000: Alice's row is found; a row that expires at
    2000000 sharp is not. *)
Lemma valid_token_lookup_witness :
  exists found,
    run (findValidToken (Fixture.issued Fixture.alice)) Fixture.world Res.fresh
    = (inr found, Fixture.world, Res.fresh)
    /\ (forall hit,
          found = Some hit ->
          In (RefreshToken.doc hit) (refreshTokens Fixture.world)
          /\ RefreshToken.token (RefreshToken.doc hit) = Fixture.issued Fixture.alice
          /\ RefreshToken.isRevoked (RefreshToken.doc hit) = false
          /\ run (isExpired (RefreshToken.doc hit)) Fixture.world Res.fresh
             = (inr false, Fixture.world, Res.fresh)
          /\ RefreshToken.populatedUser hit
             = option_map (Admin.with_password None)
                 (account_by_id (RefreshToken.user (RefreshToken.doc hit)) Fixture.world))
    /\ (found = None <->
        forall d, In d (refreshTokens Fixture.world) ->
                  RefreshToken.token d = Fixture.issued Fixture.alice ->
                  RefreshToken.isRevoked d = true
                  \/ run (isExpired d) Fixture.world Res.fresh
                     = (inr true, Fixture.world, Res.fresh)).
Proof.
  apply (valid_token_lookup (Fixture.issued Fixture.alice) Fixture.world Res.fresh).
  reflexivity.
Defined.

(** A refresh token and its ledger row: the round trip.  A token
    that [generateRefreshToken] has returned for an account is accepted
    by [verifyRefreshToken] -- the ledger otherwise as the mint left it,
    the store answering -- at every clock before the expiry of its row,
    which is the clock of the mint plus the seconds read from
    [JWT_REFRESH_EXPIRE], and the request goes on with the row and the
    account attached; from that instant on it is refused with "Invalid
    or expired refresh token" (401).  The expiry signed into the token
    itself plays no part. *)
Theorem refresh_token_round_trip ext env a w0 r0 tok w1 r1 s secs :
  run (generateRefreshToken ext env a) w0 r0 = (inr tok, w1, r1) ->
  JWT_REFRESH_EXPIRE env = Some s ->
  expiresInSeconds s = Some secs ->
  faults w1 = [] ->
  forall req later r,
    Req.cookies_refreshToken req = Some tok ->
    (later < clock w0 + secs * 1000 ->
     forall account,
       account_by_id (Admin._id a) w1 = Some account ->
       run (verifyRefreshToken req) (with_clock later w1) r
       = (inr (Next (Req.with_tokenDoc
                       (RefreshToken.mkPopulated
                          (minted_row tok (Admin._id a) (clock w0) secs)
                          (Some (Admin.with_password None account)))
                       (Req.with_refreshToken tok
                          (Req.with_admin (Admin.with_password None account) req)))),
          with_clock later w1, r))
    /\
    (clock w0 + secs * 1000 <= later ->
     run (verifyRefreshToken req) (with_clock later w1) r
     = (inr (NextError (AppError "Invalid or expired refresh token" 401)),
        with_clock later w1, r)).
Proof.
  intros Hmint Hs Hsecs Hf req later r Hc.
  rewrite run_generateRefreshToken in Hmint.
  destruct (jwt_sign _ _ _ _ _) as [err | tok0] eqn:Hsign; [discriminate|].
  pose proof (jwt_sign_truthy _ _ _ _ _ _ Hsign) as Ht.
  rewrite Hs, Hsecs in Hmint.
  assert (Hrows : tok0 = tok
                  /\ refreshTokens w1
                     = refreshTokens w0 ++ [minted_row tok (Admin._id a) (clock w0) secs]
                  /\ admins w1 = admins w0
                  /\ (forall d, In d (refreshTokens w0) -> RefreshToken.token d <> tok)).
  { unfold round_trip in Hmint.
    destruct (faults w0) as [| [|] script]; try discriminate;
      cbn [refreshTokens with_faults clock] in Hmint;
      destruct (existsb _ (refreshTokens w0)) eqn:Hdup; try discriminate;
      injection Hmint as -> <- _; cbn [refreshTokens with_refreshTokens with_faults admins];
      (split; [reflexivity|]); (split; [reflexivity|]); (split; [reflexivity|]);
      intros d Hd Heq; apply Token_eqb_eq in Heq;
      assert (existsb (fun d => Token_eqb (RefreshToken.token d) tok) (refreshTokens w0) = true)
        by (apply existsb_exists; exists d; auto); congruence. }
  destruct Hrows as (-> & Hrows & Hadm & Hfresh).
  assert (Hfind : forall now,
    Mongoose.findOne
      (fun d => (Token_eqb (RefreshToken.token d) tok
                 && negb (RefreshToken.isRevoked d)
                 && (now <? RefreshToken.expiresAt d))%bool) (refreshTokens w1)
    = if now <? clock w0 + secs * 1000
      then Some (minted_row tok (Admin._id a) (clock w0) secs) else None).
  { intros now. rewrite Hrows.
    destruct (now <? clock w0 + secs * 1000) eqn:Hnow.
    - apply findOne_app_skip.
      + intros x Hx. rewrite (proj2 (Token_eqb_neq _ _) (Hfresh x Hx)). reflexivity.
      + cbn [minted_row RefreshToken.token RefreshToken.isRevoked RefreshToken.expiresAt].
        rewrite Token_eqb_refl, Hnow. reflexivity.
    - apply findOne_None. intros d Hd. apply in_app_or in Hd as [Hd | [<- | []]].
      + rewrite (proj2 (Token_eqb_neq _ _) (Hfresh d Hd)). reflexivity.
      + cbn [minted_row RefreshToken.token RefreshToken.isRevoked RefreshToken.expiresAt].
        rewrite Hnow. apply andb_false_r. }
  unfold verifyRefreshToken, asyncHandler. rewrite Hc, Ht. cbn [negb].
  rewrite !run_try_catch, run_bind, run_findValidToken.
  unfold round_trip. cbn [faults with_clock]. rewrite Hf.
  cbn [clock with_clock refreshTokens]. rewrite Hfind.
  split.
  - intros Hlive account Hacc. apply Z.ltb_lt in Hlive. rewrite Hlive.
    cbn [option_map minted_row RefreshToken.user].
    unfold account_by_id in *. cbn [admins with_clock]. rewrite Hacc. reflexivity.
  - intros Hdead. apply Z.ltb_ge in Hdead. rewrite Hdead. reflexivity.
Qed.

(** Alice's token, minted at clock 2000000 with "7d": accepted one
    millisecond before its row expires, refused at the expiry. *)
Lemma refresh_token_round_trip_witness :
  run (verifyRefreshToken
         (Fixture.with_cookie (Jwt "refresh-secret" (mkClaims 1%nat None None) 2000 606800)))
      (with_clock 606800000
         (snd (fst (run (generateRefreshToken Fixture.ext Fixture.env Fixture.alice)
                        Fixture.world Res.fresh)))) Res.fresh
  = (inr (NextError (AppError "Invalid or expired refresh token" 401)),
     with_clock 606800000
       (snd (fst (run (generateRefreshToken Fixture.ext Fixture.env Fixture.alice)
                      Fixture.world Res.fresh))), Res.fresh).
Proof.
  apply (proj2 (refresh_token_round_trip Fixture.ext Fixture.env Fixture.alice
                  Fixture.world Res.fresh
                  (Jwt "refresh-secret" (mkClaims 1%nat None None) 2000 606800)
                  _ Res.fresh "7d" 604800 eq_refl eq_refl eq_refl eq_refl
                  (Fixture.with_cookie
                     (Jwt "refresh-secret" (mkClaims 1%nat None None) 2000 606800))
                  606800000 Res.fresh eq_refl)).
  vm_compute. discriminate.
Defined.

(* ================================================================== *)
(** ** Mass revocation *)
(* ================================================================== *)

(** [revokeAllForUser] ends the sessions of one account and of no
    other.  With the store answering it reports the number of rows of
    the account that were still unrevoked; afterwards every row of the
    account is revoked, every row of another account is exactly as it
    was, and no row has changed its token value, owner or expiry.  From
    then on [findValidToken] returns nothing for a token value carried
    only by rows of the account, and what it returned before for a value
    carried by no row of the account. *)
Theorem mass_revocation_is_per_account id w r :
  faults w = [] ->
  exists modified w',
    run (revokeAllForUser id) w r = (inr modified, w', r)
    /\ modified = List.length (List.filter
                                 (fun d => (Nat.eqb (RefreshToken.user d) id
                                            && negb (RefreshToken.isRevoked d))%bool)
                                 (refreshTokens w))
    /\ admins w' = admins w
    /\ Forall2 (fun d d' => same_token_row d d'
                            /\ (RefreshToken.user d = id -> RefreshToken.isRevoked d' = true)
                            /\ (RefreshToken.user d <> id -> d' = d))
               (refreshTokens w) (refreshTokens w')
    /\ (forall tok later,
          (forall d, In d (refreshTokens w) -> RefreshToken.token d = tok ->
                     RefreshToken.user d = id) ->
          run (findValidToken tok) (with_clock later w') r
          = (inr None, with_clock later w', r))
    /\ (forall tok later,
          (forall d, In d (refreshTokens w) -> RefreshToken.token d = tok ->
                     RefreshToken.user d <> id) ->
          fst (fst (run (findValidToken tok) (with_clock later w') r))
          = fst (fst (run (findValidToken tok) (with_clock later w) r))).
Proof.
  intros Hf. unfold revokeAllForUser. rewrite run_perform. cbn [exec].
  rewrite (round_trip_up _ _ Hf). do 2 eexists. split; [reflexivity|].
  cbn [admins refreshTokens with_refreshTokens].
  split; [reflexivity|]. split; [reflexivity|].
  set (mine := fun d => (Nat.eqb (RefreshToken.user d) id
                         && negb (RefreshToken.isRevoked d))%bool).
  assert (Hpoint : forall d,
            let d' := if mine d then set_revoked (clock w) d else d in
            same_token_row d d'
            /\ (RefreshToken.user d = id -> RefreshToken.isRevoked d' = true)
            /\ (RefreshToken.user d <> id -> d' = d)).
  { intros d. unfold mine, same_token_row.
    destruct (Nat.eqb (RefreshToken.user d) id) eqn:E;
      destruct (RefreshToken.isRevoked d) eqn:Hr; cbn [andb negb]; simpl;
      repeat split; auto;
      try (apply Nat.eqb_eq in E; intros; congruence);
      try (apply Nat.eqb_neq in E; intros; congruence). }
  split; [|split].
  - unfold Mongoose.updateMany.
    induction (refreshTokens w) as [| d rest IH]; simpl; constructor; auto.
  - intros tok later Hmine. rewrite run_findValidToken.
    unfold round_trip. cbn [faults with_clock with_refreshTokens]. rewrite Hf.
    cbn [clock refreshTokens with_clock with_refreshTokens].
    replace (Mongoose.findOne _ _) with (@None RefreshToken.t); [reflexivity|].
    symmetry. apply findOne_None. intros d' Hd'.
    unfold Mongoose.updateMany in Hd'. apply in_map_iff in Hd' as (d & <- & Hd).
    destruct (Token_eqb (RefreshToken.token (if mine d then set_revoked (clock w) d else d))
                tok) eqn:Htok; [|reflexivity].
    apply Token_eqb_eq in Htok.
    destruct (Hpoint d) as ((Hsame & _) & Hrev & _). cbv zeta in *.
    rewrite Hrev; [reflexivity|]. apply (Hmine d Hd). congruence.
  - intros tok later Hother. rewrite !run_findValidToken.
    unfold round_trip, account_by_id. cbn [faults with_clock with_refreshTokens]. rewrite Hf.
    cbn [fst snd clock refreshTokens admins with_clock with_refreshTokens].
    f_equal. f_equal. unfold Mongoose.findOne, Mongoose.updateMany.
    induction (refreshTokens w) as [| d rest IH]; simpl; [reflexivity|].
    destruct (Hpoint d) as (_ & _ & Hframe). cbv zeta in Hframe.
    destruct (Token_eqb (RefreshToken.token d) tok) eqn:Htok.
    + apply Token_eqb_eq in Htok. rewrite Hframe by (apply Hother; [left; reflexivity | exact Htok]).
      rewrite <- Htok at 1. rewrite Token_eqb_refl. cbn [andb].
      destruct (negb (RefreshToken.isRevoked d) && (later <? RefreshToken.expiresAt d))%bool;
        [reflexivity|]. apply IH. intros x Hx. apply Hother. right. exact Hx.
    + replace (Token_eqb (RefreshToken.token (if mine d then set_revoked (clock w) d else d))
                 tok) with false.
      * cbn [andb]. apply IH. intros x Hx. apply Hother. right. exact Hx.
      * destruct (mine d); [rewrite set_revoked_token|]; auto.
Qed.

Lemma mass_revocation_is_per_account_witness :
  exists modified w',
    run (revokeAllForUser 1%nat) Fixture.world Res.fresh = (inr modified, w', Res.fresh)
    /\ modified = List.length (List.filter
                                 (fun d => (Nat.eqb (RefreshToken.user d) 1%nat
                                            && negb (RefreshToken.isRevoked d))%bool)
                                 (refreshTokens Fixture.world))
    /\ admins w' = admins Fixture.world
    /\ Forall2 (fun d d' => same_token_row d d'
                            /\ (RefreshToken.user d = 1%nat -> RefreshToken.isRevoked d' = true)
                            /\ (RefreshToken.user d <> 1%nat -> d' = d))
               (refreshTokens Fixture.world) (refreshTokens w')
    /\ (forall tok later,
          (forall d, In d (refreshTokens Fixture.world) -> RefreshToken.token d = tok ->
                     RefreshToken.user d = 1%nat) ->
          run (findValidToken tok) (with_clock later w') Res.fresh
          = (inr None, with_clock later w', Res.fresh))
    /\ (forall tok later,
          (forall d, In d (refreshTokens Fixture.world) -> RefreshToken.token d = tok ->
                     RefreshToken.user d <> 1%nat) ->
          fst (fst (run (findValidToken tok) (with_clock later w') Res.fresh))
          = fst (fst (run (findValidToken tok) (with_clock later Fixture.world) Res.fresh))).
Proof.
  apply (mass_revocation_is_per_account 1%nat Fixture.world Res.fresh). reflexivity.
Defined.

(* ================================================================== *)
(** ** Logging in twice *)
(* ================================================================== *)

(** Whether [jwt.sign] succeeds depends on the secret and the life time
    only. *)
Lemma jwt_sign_succeeds ext payload payload' secret expiresIn now now' tok :
  jwt_sign ext payload secret expiresIn now = inr tok ->
  exists tok', jwt_sign ext payload' secret expiresIn now' = inr tok'.
Proof.
  intros H. destruct (jwt_sign_inr _ _ _ _ _ _ H) as (k & e & ttl & -> & Hk & -> & Httl & _).
  unfold jwt_sign. rewrite Hk, Httl. eexists. reflexivity.
Qed.

(** A token signed again in the same clock second is the same token. *)
Lemma jwt_sign_same_second ext payload secret expiresIn now now' :
  now' / 1000 = now / 1000 ->
  jwt_sign ext payload secret expiresIn now' = jwt_sign ext payload secret expiresIn now.
Proof. unfold jwt_sign. intros ->. reflexivity. Qed.

(** An account found by a query is still found, as it was or as
    updated, after an update that the query cannot tell. *)
Lemma findOne_after_update {D} (wanted chosen : D -> bool) (update : D -> D) docs d :
  (forall x, wanted (update x) = wanted x) ->
  Mongoose.findOne wanted docs = Some d ->
  Mongoose.findOne wanted (snd (Mongoose.findOneAndUpdate chosen update docs)) = Some d
  \/ Mongoose.findOne wanted (snd (Mongoose.findOneAndUpdate chosen update docs))
     = Some (update d).
Proof.
  intros Hsame. unfold Mongoose.findOne.
  induction docs as [| x rest IH]; simpl; [discriminate|].
  destruct (chosen x) eqn:Hc; simpl.
  - rewrite Hsame. destruct (wanted x); [intros [= ->]; right; reflexivity|].
    intros H. left. exact H.
  - destruct (Mongoose.findOneAndUpdate chosen update rest) as [found rest'] eqn:Hrest.
    simpl in *. destruct (wanted x); [intros [= ->]; left; reflexivity|]. exact IH.
Qed.

(** What a [login] that succeeded has checked. *)
Lemma login_sent ext env req w r w1 r1 :
  faults w = [] ->
  run (login ext env req) w r = (inr Sent, w1, r1) ->
  exists email password a hash,
    Req.body_email req = Some email
    /\ Req.body_password req = Some password
    /\ JS.truthy email = true /\ JS.truthy password = true
    /\ account_for email w = Some a
    /\ Admin.password a = Some hash
    /\ bcrypt_compare ext password hash = true
    /\ Admin.isActive a = true.
Proof.
  intros Hf Hrun.
  destruct (Req.body_email req) as [email|] eqn:He.
  2:{ unfold login, asyncHandler in Hrun. rewrite He in Hrun. discriminate. }
  destruct (Req.body_password req) as [password|] eqn:Hp.
  2:{ unfold login, asyncHandler in Hrun. rewrite He, Hp in Hrun. discriminate. }
  destruct (JS.truthy email) eqn:Hte.
  2:{ unfold login, asyncHandler in Hrun. rewrite He, Hp, Hte in Hrun. discriminate. }
  destruct (JS.truthy password) eqn:Htp.
  2:{ unfold login, asyncHandler in Hrun. rewrite He, Hp, Hte, Htp in Hrun. discriminate. }
  destruct (account_for email w) as [a|] eqn:Ha.
  2:{ rewrite (run_login_rejected ext env req email password w r) in Hrun; auto.
      discriminate. }
  destruct (Admin.password a) as [hash|] eqn:Hh.
  2:{ unfold login, asyncHandler in Hrun. rewrite He, Hp, Hte, Htp in Hrun.
      cbn [andb negb] in Hrun.
      rewrite run_try_catch, run_bind in Hrun.
      unfold Admin_findOne_email in Hrun. rewrite run_perform in Hrun. cbn [exec] in Hrun.
      rewrite (round_trip_up _ _ Hf) in Hrun. fold (account_for email w) in Hrun.
      rewrite Ha in Hrun. cbn [option_map project] in Hrun. rewrite run_bind in Hrun.
      unfold comparePassword in Hrun. rewrite Hh in Hrun. discriminate. }
  destruct (bcrypt_compare ext password hash) eqn:Hcmp.
  2:{ rewrite (run_login_rejected ext env req email password w r) in Hrun; auto.
      - discriminate.
      - right. exists a, hash. auto. }
  destruct (Admin.isActive a) eqn:Hact.
  2:{ rewrite (run_login_deactivated ext env req email password w r a hash) in Hrun; auto.
      discriminate. }
  exists email, password, a, hash. auto 10.
Qed.

(** Two logins to one account within one clock second: the second
    fails.  Signing is deterministic and its stamps are whole seconds,
    so the second login signs the refresh token the first one stored,
    and the unique index on [token] rejects the insert: the request ends
    with the store's duplicate-key error (E11000), no cookie and no
    body, and the ledger is as the first login left it. *)
Theorem second_login_in_the_same_second ext env req w r w1 r1 :
  faults w = [] ->
  run (login ext env req) w r = (inr Sent, w1, r1) ->
  forall later r',
    later / 1000 = clock w / 1000 ->
    exists w2,
      run (login ext env req) (with_clock later w1) r'
      = (inr (NextError DuplicateKeyError), w2, r')
      /\ refreshTokens w2 = refreshTokens w1.
Proof.
  intros Hf Hrun later r' Hsec.
  destruct (login_sent ext env req w r w1 r1 Hf Hrun)
    as (email & password & a & hash & He & Hp & Hte & Htp & Ha & Hh & Hcmp & Hact).
  rewrite (run_login_authenticated ext env req email password w r a hash) in Hrun; auto.
  cbv zeta in Hrun.
  set (stamp := apply_modified [P_lastLogin] (Admin.with_lastLogin (Some (clock w)) a)
                  (clock w)) in *.
  pose proof (findOne_after_update
                (fun x => String.eqb (Admin.email x) (JS.toLowerCase email))
                (fun x => Nat.eqb (Admin._id x) (Admin._id a)) stamp (admins w) a
                (fun x => eq_refl) Ha) as Hfound.
  destruct (Mongoose.findOneAndUpdate _ stamp (admins w)) as [[stored|] admins'];
    [|discriminate].
  cbn [snd] in Hfound.
  destruct (jwt_sign ext (access_claims _) _ _ _) as [err | accessToken] eqn:Haccess;
    [discriminate|].
  rewrite run_generateRefreshToken in Hrun.
  cbn [Admin._id Admin.with_updatedAt Admin.with_lastLogin clock with_admins] in Hrun.
  destruct (jwt_sign ext (mkClaims (Admin._id a) None None) _ _ _) as [err | tok] eqn:Hsign;
    [discriminate|].
  destruct (JWT_REFRESH_EXPIRE env) as [s|] eqn:Hs; [|discriminate].
  destruct (expiresInSeconds s) as [secs|] eqn:Hsecs; [|discriminate].
  rewrite round_trip_up in Hrun by exact Hf.
  cbn [refreshTokens with_admins] in Hrun.
  destruct (existsb _ (refreshTokens w)) eqn:Hdup; [discriminate|].
  injection Hrun as <- _.
  (* the second login *)
  set (w1 := with_clock later _).
  assert (Hf1 : faults w1 = []) by exact Hf.
  assert (Hacc : exists a', account_for email w1 = Some a'
                            /\ Admin._id a' = Admin._id a
                            /\ Admin.password a' = Some hash
                            /\ Admin.isActive a' = true).
  { unfold account_for. cbn [admins w1 with_clock with_refreshTokens with_admins].
    destruct Hfound as [-> | ->]; eexists; (split; [reflexivity|]); auto. }
  destruct Hacc as (a' & Ha' & Hid & Hh' & Hact').
  rewrite (run_login_authenticated ext env req email password w1 r' a' hash); auto.
  cbv zeta.
  destruct (Mongoose.findOne (fun x => Nat.eqb (Admin._id x) (Admin._id a')) (admins w1))
    as [d|] eqn:Hd.
  2:{ exfalso. apply findOne_Some in Ha' as [Hin _].
      pose proof (proj1 (findOne_None _ _) Hd a' Hin) as Hno. cbv beta in Hno.
      rewrite Nat.eqb_refl in Hno. discriminate. }
  destruct (findOneAndUpdate_Some _
              (apply_modified [P_lastLogin] (Admin.with_lastLogin (Some (clock w1)) a')
                 (clock w1)) _ _ Hd) as (before & after & _ & _ & ->).
  destruct (jwt_sign_succeeds ext _
              (access_claims (Admin.with_updatedAt (clock w1)
                                (Admin.with_lastLogin (Some (clock w1)) a')))
              _ _ _ (clock w1) _ Haccess) as (accessToken' & ->).
  rewrite run_generateRefreshToken.
  cbn [Admin._id Admin.with_updatedAt Admin.with_lastLogin clock with_admins w1 with_clock].
  rewrite Hid, Hs, (jwt_sign_same_second _ _ _ _ (clock w) later Hsec), Hsign, Hsecs.
  rewrite round_trip_up by exact Hf.
  unfold w1. cbn [refreshTokens with_admins with_clock with_refreshTokens].
  rewrite existsb_app. cbn [existsb minted_row RefreshToken.token].
  rewrite Token_eqb_refl, orb_true_r. cbn [orb].
  eexists. split; reflexivity.
Qed.

Lemma second_login_in_the_same_second_witness :
  exists w2,
    run (login Fixture.ext Fixture.env (Fixture.with_credentials "a@x.com" "Secr3t!"))
        (with_clock 2000999
           (snd (fst (run (login Fixture.ext Fixture.env
                             (Fixture.with_credentials "a@x.com" "Secr3t!"))
                          Fixture.world Res.fresh)))) Res.fresh
    = (inr (NextError DuplicateKeyError), w2, Res.fresh)
    /\ refreshTokens w2
       = refreshTokens
           (snd (fst (run (login Fixture.ext Fixture.env
                             (Fixture.with_credentials "a@x.com" "Secr3t!"))
                          Fixture.world Res.fresh))).
Proof.
  apply (second_login_in_the_same_second Fixture.ext Fixture.env
           (Fixture.with_credentials "a@x.com" "Secr3t!") Fixture.world Res.fresh
           (snd (fst (run (login Fixture.ext Fixture.env
                             (Fixture.with_credentials "a@x.com" "Secr3t!"))
                          Fixture.world Res.fresh)))
           (snd (run (login Fixture.ext Fixture.env
                        (Fixture.with_credentials "a@x.com" "Secr3t!"))
                     Fixture.world Res.fresh))
           eq_refl eq_refl 2000999 Res.fresh eq_refl).
Defined.

(* ================================================================== *)
(** ** Registration *)
(* ================================================================== *)

Lemma truthy_toLowerCase s : JS.truthy (JS.toLowerCase s) = JS.truthy s.
Proof. destruct s; reflexivity. Qed.

(** What the validators of the account schema let through. *)
Lemma validate_admin_nil ext name email password role :
  validate_admin ext name email password role = [] <->
  exists n e p,
    name = Some n /\ email = Some e /\ password = Some p
    /\ (2 <= String.length n <= 50)%nat
    /\ JS.truthy e = true /\ email_match ext e = true
    /\ (6 <= String.length p)%nat
    /\ (role = "admin" \/ role = "super-admin").
Proof.
  unfold validate_admin. split.
  - intros H.
    apply app_eq_nil in H as [Hn H]. apply app_eq_nil in H as [He H].
    apply app_eq_nil in H as [Hp Hr].
    destruct name as [n|]; [|discriminate].
    destruct email as [e|]; [|discriminate].
    destruct password as [p|]; [|discriminate].
    exists n, e, p. repeat (split; [reflexivity|]).
    destruct (JS.truthy n); [|discriminate].
    destruct (Nat.ltb 50 (String.length n)) eqn:E1; [discriminate|].
    destruct (Nat.ltb (String.length n) 2) eqn:E2; [discriminate|].
    destruct (JS.truthy e); [|discriminate].
    destruct (email_match ext e); [|discriminate].
    destruct (JS.truthy p); [|discriminate].
    destruct (Nat.ltb (String.length p) 6) eqn:E3; [discriminate|].
    apply Nat.ltb_ge in E1, E2, E3.
    repeat split; auto.
    destruct (String.eqb role "admin") eqn:Ra; [left; apply String.eqb_eq, Ra|].
    destruct (String.eqb role "super-admin") eqn:Rs; [right; apply String.eqb_eq, Rs|].
    discriminate.
  - intros (n & e & p & -> & -> & -> & [Hmin Hmax] & Hte & Hm & Hlen & Hrole).
    rewrite Hte, Hm.
    replace (JS.truthy n) with true by (destruct n; [simpl in Hmin; lia | reflexivity]).
    replace (JS.truthy p) with true by (destruct p; [simpl in Hlen; lia | reflexivity]).
    replace (Nat.ltb 50 (String.length n)) with false by (symmetry; apply Nat.ltb_ge; lia).
    replace (Nat.ltb (String.length n) 2) with false by (symmetry; apply Nat.ltb_ge; lia).
    replace (Nat.ltb (String.length p) 6) with false by (symmetry; apply Nat.ltb_ge; lia).
    destruct Hrole as [-> | ->]; reflexivity.
Qed.

(** What a [register] that succeeded has done. *)
Lemma register_sent ext env req w r w1 r1 :
  faults w = [] ->
  run (register ext env req) w r = (inr Sent, w1, r1) ->
  exists name email password accessToken tok s secs,
    let role := match Req.body_role req with Some role => role | None => "admin" end in
    let stored :=
      Admin.mk (nextId w) (JS.trim name) (JS.toLowerCase email)
        (Some (bcrypt_hash ext password)) role true None None None (clock w) (clock w) in
    Req.body_name req = Some name
    /\ Req.body_email req = Some email
    /\ Req.body_password req = Some password
    /\ validate_admin ext (Some (JS.trim name)) (Some (JS.toLowerCase email))
         (Some password) role = []
    /\ account_for email w = None
    /\ jwt_sign ext (access_claims stored) (JWT_SECRET env) (JWT_EXPIRE env) (clock w)
       = inr accessToken
    /\ jwt_sign ext (mkClaims (nextId w) None None)
         (JWT_REFRESH_SECRET env) (JWT_REFRESH_EXPIRE env) (clock w) = inr tok
    /\ JWT_REFRESH_EXPIRE env = Some s
    /\ expiresInSeconds s = Some secs
    /\ (forall x, In x (refreshTokens w) -> RefreshToken.token x <> tok)
    /\ w1 = with_refreshTokens
              (refreshTokens w ++ [minted_row tok (nextId w) (clock w) secs])
              (with_nextId (S (nextId w)) (with_admins (admins w ++ [stored]) w))
    /\ r1 = Res.mk 201
              (Res.cookies r
               ++ [SetCookie "refreshToken" tok
                     (mkCookieOptions true (isProd env)
                        (if isProd env then "none" else "lax")
                        (Some (7 * 24 * 60 * 60 * 1000)) "/" (cookieDomain env))])
              (Some (mkBody true "Admin registered successfully"
                       (Some stored) (Some accessToken))).
Proof.
  intros Hf Hrun.
  destruct (match Req.body_email req with Some e => account_for e w | None => None end)
    as [existing|] eqn:Hnew.
  { destruct (Req.body_email req) as [e|] eqn:He; [|discriminate].
    unfold register, asyncHandler in Hrun.
    rewrite run_try_catch, run_bind in Hrun.
    unfold Admin_findOne_email in Hrun. rewrite run_perform in Hrun. cbn [exec] in Hrun.
    rewrite (round_trip_up _ _ Hf), He in Hrun. fold (account_for e w) in Hrun.
    rewrite Hnew in Hrun. discriminate. }
  rewrite (run_register_new ext env req w r Hf Hnew) in Hrun.
  rewrite (run_Admin_create ext _ _ _ _ w r Hf) in Hrun.
  destruct (validate_admin _ _ _ _ _) as [| m failed] eqn:Hvalid.
  2:{ destruct (Req.body_name req), (Req.body_email req); discriminate. }
  destruct (validate_admin_password _ _ _ _ _ Hvalid) as (password & Hp).
  destruct (Req.body_name req) as [name|]; [|discriminate].
  destruct (Req.body_email req) as [email|] eqn:He; [|discriminate].
  rewrite Hp in *. cbn [option_map] in *.
  destruct (existsb _ (admins w)) eqn:Hdup; [discriminate|].
  cbv zeta in Hrun. cbn [clock with_nextId with_admins] in Hrun.
  destruct (jwt_sign ext (access_claims _) _ _ _) as [err | accessToken] eqn:Haccess;
    [discriminate|].
  rewrite run_generateRefreshToken in Hrun.
  cbn [Admin._id clock with_nextId with_admins] in Hrun.
  destruct (jwt_sign ext (mkClaims (nextId w) None None) _ _ _) as [err | tok] eqn:Hsign;
    [discriminate|].
  destruct (JWT_REFRESH_EXPIRE env) as [s|] eqn:Hs; [|discriminate].
  destruct (expiresInSeconds s) as [secs|] eqn:Hsecs; [|discriminate].
  rewrite round_trip_up in Hrun by exact Hf.
  cbn [refreshTokens with_nextId with_admins] in Hrun.
  destruct (existsb _ (refreshTokens w)) eqn:Hfresh; [discriminate|].
  injection Hrun as <- <-.
  exists name, email, password, accessToken, tok, s, secs. cbv zeta.
  repeat (split; [first [reflexivity | assumption]|]).
  split; [|split; reflexivity].
  intros x Hx Heq.
  assert (existsb (fun d => Token_eqb (RefreshToken.token d) tok) (refreshTokens w) = true);
    [|congruence].
  apply existsb_exists. exists x. split; [exact Hx|]. apply Token_eqb_eq. exact Heq.
Qed.

(** [register] stores only what the account schema lets through,
    and stores it as asked.  For a body whose name and password are
    ASCII texts, with the store answering: (a) a registration that
    succeeds has added one account, after the existing ones: the next
    object id, the name trimmed, the address in lower case, the hash of
    the password, active, never logged in, and the role the body asked
    for -- "admin" when it asked for none, and "super-admin" if it asked
    for that, the route having no guard; the trimmed name has 2 to 50
    characters, the password at least 6, the address matches the
    schema's pattern; one ledger row has been added, for that account.
    (b) It does succeed, with status 201, when the values are such, no
    account holds the address, the two tokens can be signed and the
    refresh token is new to the ledger.  (c) A body that fails a
    validator, for an address no account holds, is answered with the
    store's validation error and stores nothing; when one path fails,
    the message is "Admin validation failed: <path>: <message>", with
    the message of the first validator of the path that fails. *)
Theorem register_stores_what_the_schema_allows ext env req w r :
  faults w = [] ->
  (forall name, Req.body_name req = Some name -> plain name = true) ->
  (forall password, Req.body_password req = Some password -> plain password = true) ->
  let role := match Req.body_role req with Some role => role | None => "admin" end in
  (forall w' r',
     run (register ext env req) w r = (inr Sent, w', r') ->
     exists name email password row,
       Req.body_name req = Some name
       /\ Req.body_email req = Some email
       /\ Req.body_password req = Some password
       /\ admins w'
          = admins w
            ++ [Admin.mk (nextId w) (JS.trim name) (JS.toLowerCase email)
                  (Some (bcrypt_hash ext password)) role true None None None
                  (clock w) (clock w)]
       /\ (2 <= String.length (JS.trim name) <= 50)%nat
       /\ email_match ext (JS.toLowerCase email) = true
       /\ (6 <= String.length password)%nat
       /\ (role = "admin" \/ role = "super-admin")
       /\ refreshTokens w' = refreshTokens w ++ [row]
       /\ RefreshToken.user row = nextId w
       /\ RefreshToken.isRevoked row = false)
  /\
  (forall name email password accessToken tok s secs,
     Req.body_name req = Some name ->
     Req.body_email req = Some email ->
     Req.body_password req = Some password ->
     (2 <= String.length (JS.trim name) <= 50)%nat ->
     JS.truthy email = true ->
     email_match ext (JS.toLowerCase email) = true ->
     (6 <= String.length password)%nat ->
     (role = "admin" \/ role = "super-admin") ->
     account_for email w = None ->
     let stored :=
       Admin.mk (nextId w) (JS.trim name) (JS.toLowerCase email)
         (Some (bcrypt_hash ext password)) role true None None None (clock w) (clock w) in
     jwt_sign ext (access_claims stored) (JWT_SECRET env) (JWT_EXPIRE env) (clock w)
     = inr accessToken ->
     jwt_sign ext (mkClaims (nextId w) None None)
       (JWT_REFRESH_SECRET env) (JWT_REFRESH_EXPIRE env) (clock w) = inr tok ->
     JWT_REFRESH_EXPIRE env = Some s ->
     expiresInSeconds s = Some secs ->
     (forall x, In x (refreshTokens w) -> RefreshToken.token x <> tok) ->
     exists w' r',
       run (register ext env req) w r = (inr Sent, w', r')
       /\ Res.statusCode r' = 201
       /\ admins w' = admins w ++ [stored]
       /\ refreshTokens w'
          = refreshTokens w ++ [minted_row tok (nextId w) (clock w) secs])
  /\
  (forall failed,
     match Req.body_email req with Some e => account_for e w | None => None end = None ->
     validate_admin ext (option_map JS.trim (Req.body_name req))
       (option_map JS.toLowerCase (Req.body_email req)) (Req.body_password req) role
     = failed ->
     failed <> [] ->
     (exists message,
        run (register ext env req) w r
        = (inr (NextError (ValidationError message)), w, r))
     /\ (forall path message,
           failed = [(path, message)] ->
           run (register ext env req) w r
           = (inr (NextError
                     (ValidationError
                        ("Admin validation failed: " ++ path ++ ": " ++ message))),
              w, r))).
Proof.
  intros Hf _ _ role. split; [|split].
  - intros w' r' Hrun.
    destruct (register_sent ext env req w r w' r' Hf Hrun)
      as (name & email & password & accessToken & tok & s & secs & Hsent).
    cbv zeta in Hsent.
    destruct Hsent as (Hn & He & Hp & Hvalid & _ & _ & _ & _ & _ & _ & -> & _).
    apply validate_admin_nil in Hvalid
      as (n & e & p & [= <-] & [= <-] & [= <-] & Hlen & _ & Hm & Hpl & Hrole).
    exists name, email, password, (minted_row tok (nextId w) (clock w) secs).
    cbn [admins refreshTokens with_refreshTokens with_nextId with_admins minted_row
         RefreshToken.user RefreshToken.isRevoked].
    repeat (split; [first [reflexivity | assumption]|]). reflexivity.
  - intros name email password accessToken tok s secs Hn He Hp Hlen Hte Hm Hpl Hrole Hnew
           stored Haccess Hsign Hs Hsecs Hfresh.
    rewrite (run_register_new ext env req w r Hf); [|rewrite He; exact Hnew].
    rewrite (run_Admin_create ext _ _ _ _ w r Hf). fold role.
    rewrite Hn, He, Hp. cbn [option_map].
    rewrite (proj2 (validate_admin_nil ext _ _ _ role)).
    2:{ exists (JS.trim name), (JS.toLowerCase email), password.
        rewrite truthy_toLowerCase. auto 10. }
    rewrite (existsb_email_account_for _ _ Hnew). cbv zeta. fold stored.
    cbn [clock with_nextId with_admins]. rewrite Haccess.
    rewrite (run_generateRefreshToken_ok ext env stored _ r tok s secs); auto.
    do 2 eexists. split; [reflexivity|].
    cbn [Res.statusCode admins refreshTokens with_refreshTokens with_nextId with_admins
         Admin._id stored clock].
    repeat split; reflexivity.
  - intros failed Hnew Hvalid Hfailed.
    rewrite (run_register_new ext env req w r Hf Hnew).
    rewrite (run_Admin_create ext _ _ _ _ w r Hf). fold role. rewrite Hvalid.
    destruct failed as [| m rest]; [contradiction|].
    split.
    + eexists. destruct (Req.body_name req), (Req.body_email req); reflexivity.
    + intros path message [= -> ->].
      destruct (Req.body_name req), (Req.body_email req); reflexivity.
Qed.

(** A request that carries no credentials registers a super-admin; a
    password of five characters is refused, and so is a body with a
    blank name and an empty password. *)
Lemma register_stores_what_the_schema_allows_witness :
  admins (snd (fst (run (register Fixture.ext Fixture.env
                           (Req.mk None None None (Some "  Dave ") (Some "Dave@X.com")
                              (Some "s3cret!") (Some "super-admin") None None None))
                        Fixture.world Res.fresh)))
  = admins Fixture.world
    ++ [Admin.mk 3%nat "Dave" "dave@x.com" (Some "$2a$12$s3cret!") "super-admin" true
          None None None 2000000 2000000]
  /\
  run (register Fixture.ext Fixture.env
         (Req.mk None None None (Some "Erin") (Some "erin@x.com") (Some "12345") None
            None None None))
      Fixture.world Res.fresh
  = (inr (NextError
            (ValidationError
               "Admin validation failed: password: Password must be at least 6 characters")),
     Fixture.world, Res.fresh)
  /\
  (exists message,
     run (register Fixture.ext Fixture.env
            (Req.mk None None None (Some "   ") (Some "erin@x.com") (Some "") None
               None None None))
         Fixture.world Res.fresh
     = (inr (NextError (ValidationError message)), Fixture.world, Res.fresh)).
Proof.
  assert (Hplain : forall given : option string,
            (given = Some "  Dave " \/ given = Some "s3cret!" \/ given = Some "Erin"
             \/ given = Some "12345" \/ given = Some "   " \/ given = Some "") ->
            forall text, given = Some text -> plain text = true).
  { intros given [-> | [-> | [-> | [-> | [-> | ->]]]]] text [= <-]; reflexivity. }
  split; [|split].
  - destruct (proj1 (register_stores_what_the_schema_allows Fixture.ext Fixture.env
                       (Req.mk None None None (Some "  Dave ") (Some "Dave@X.com")
                          (Some "s3cret!") (Some "super-admin") None None None)
                       Fixture.world Res.fresh eq_refl
                       (Hplain _ (or_introl eq_refl))
                       (Hplain _ (or_intror (or_introl eq_refl)))) _ _ eq_refl)
      as (name & email & password & row & Hn & He & Hp & Hadmins & _).
    injection Hn as <-. injection He as <-. injection Hp as <-. exact Hadmins.
  - apply (proj2 (proj2 (proj2 (register_stores_what_the_schema_allows
                                  Fixture.ext Fixture.env
                                  (Req.mk None None None (Some "Erin") (Some "erin@x.com")
                                     (Some "12345") None None None None)
                                  Fixture.world Res.fresh eq_refl
                                  (Hplain _ (or_intror (or_intror (or_introl eq_refl))))
                                  (Hplain _ (or_intror (or_intror (or_intror
                                               (or_introl eq_refl)))))))
                           [("password", "Password must be at least 6 characters")]
                           eq_refl eq_refl ltac:(discriminate))
             "password" "Password must be at least 6 characters" eq_refl).
  - apply (proj1 (proj2 (proj2 (register_stores_what_the_schema_allows
                                  Fixture.ext Fixture.env
                                  (Req.mk None None None (Some "   ") (Some "erin@x.com")
                                     (Some "") None None None None)
                                  Fixture.world Res.fresh eq_refl
                                  (Hplain _ (or_intror (or_intror (or_intror (or_intror
                                               (or_introl eq_refl))))))
                                  (Hplain _ (or_intror (or_intror (or_intror (or_intror
                                               (or_intror eq_refl))))))))
                           [("name", "Please provide a name");
                            ("password", "Please provide a password")]
                           eq_refl eq_refl ltac:(discriminate))).
Defined.

(** An account can log in with what it registered with.  After a
    registration that succeeded, a login with the registered password
    and the registered address in any letter case -- [bcrypt] accepting
    the password against its own hash -- succeeds at any later clock
    second (no token of the ledger bearing a stamp from the future), and
    answers with the account; a login with a password that [bcrypt] does
    not accept against that hash fails with "Invalid credentials". *)
Theorem register_then_login ext env req w r w1 r1 email password :
  faults w = [] ->
  signed_by (clock w) (refreshTokens w) ->
  run (register ext env req) w r = (inr Sent, w1, r1) ->
  Req.body_email req = Some email ->
  Req.body_password req = Some password ->
  forall credentials address later r',
    Req.body_email credentials = Some address ->
    JS.toLowerCase address = JS.toLowerCase email ->
    (forall other,
       Req.body_password credentials = Some other ->
       JS.truthy other = true ->
       bcrypt_compare ext other (bcrypt_hash ext password) = false ->
       run (login ext env credentials) (with_clock later w1) r'
       = (inr (NextError (AppError "Invalid credentials" 401)), with_clock later w1, r'))
    /\
    (Req.body_password credentials = Some password ->
     bcrypt_compare ext password (bcrypt_hash ext password) = true ->
     clock w / 1000 < later / 1000 ->
     exists w2 r2 account accessToken,
       run (login ext env credentials) (with_clock later w1) r' = (inr Sent, w2, r2)
       /\ Res.body r2
          = Some (mkBody true "Login successful" (Some account) (Some accessToken))
       /\ Admin._id account = nextId w
       /\ Admin.email account = JS.toLowerCase email
       /\ Admin.password account = None
       /\ Admin.lastLogin account = Some later).
Proof.
  intros Hf Hpast Hrun He Hp credentials address later r' Ha Hlower.
  destruct (register_sent ext env req w r w1 r1 Hf Hrun)
    as (name & email0 & password0 & accessToken & tok & s & secs & Hsent).
  cbv zeta in Hsent.
  destruct Hsent as (_ & He0 & Hp0 & Hvalid & Hnew & Haccess & Hsign & Hs & Hsecs & Hfresh
                     & -> & _).
  assert (email0 = email) as -> by congruence.
  assert (password0 = password) as -> by congruence.
  apply validate_admin_nil in Hvalid
    as (n & e & p & _ & [= <-] & [= <-] & _ & Hte & _ & Hpl & _).
  set (role := match Req.body_role req with Some role => role | None => "admin" end) in *.
  set (stored := Admin.mk (nextId w) (JS.trim name) (JS.toLowerCase email)
                   (Some (bcrypt_hash ext password)) role true None None None
                   (clock w) (clock w)) in *.
  set (w1 := with_clock later _).
  assert (Hf1 : faults w1 = []) by exact Hf.
  assert (Hta : JS.truthy address = true).
  { rewrite <- truthy_toLowerCase, Hlower. exact Hte. }
  assert (Hacc : account_for address w1 = Some stored).
  { unfold account_for.
    cbn [admins w1 with_clock with_refreshTokens with_nextId with_admins].
    rewrite Hlower. apply findOne_app_skip.
    - apply findOne_None. exact Hnew.
    - apply String.eqb_refl. }
  split.
  - intros other Ho Hto Hcmp.
    apply (run_login_rejected ext env credentials address other); auto.
    right. exists stored, (bcrypt_hash ext password). auto.
  - intros Ho Hcmp Hlater.
    assert (Htp : JS.truthy password = true).
    { destruct password; [simpl in Hpl; lia | reflexivity]. }
    rewrite (run_login_authenticated ext env credentials address password w1 r' stored
               (bcrypt_hash ext password)); auto.
    cbv zeta.
    destruct (Mongoose.findOne (fun x => Nat.eqb (Admin._id x) (Admin._id stored))
                (admins w1)) as [d|] eqn:Hd.
    2:{ exfalso. apply findOne_Some in Hacc as [Hin _].
        pose proof (proj1 (findOne_None _ _) Hd stored Hin) as Hno. cbv beta in Hno.
        rewrite Nat.eqb_refl in Hno. discriminate. }
    destruct (findOneAndUpdate_Some _
                (apply_modified [P_lastLogin] (Admin.with_lastLogin (Some (clock w1)) stored)
                   (clock w1)) _ _ Hd) as (before & after & _ & _ & ->).
    destruct (jwt_sign_succeeds ext _
                (access_claims (Admin.with_updatedAt (clock w1)
                                  (Admin.with_lastLogin (Some (clock w1)) stored)))
                _ _ _ (clock w1) _ Haccess) as (accessToken' & ->).
    destruct (jwt_sign_succeeds ext _ (mkClaims (nextId w) None None)
                _ _ _ later _ Hsign) as (newTok & Hsign').
    rewrite (run_generateRefreshToken_ok ext env _ _ r' newTok s secs); auto.
    + do 4 eexists. split; [reflexivity|]. cbn [Res.body]. split; [reflexivity|].
      repeat split.
    + unfold w1. cbn [refreshTokens with_admins with_clock with_refreshTokens].
      intros x Hx. apply in_app_or in Hx as [Hx | [<- | []]].
      * intros Heq.
        destruct (jwt_sign_inr _ _ _ _ _ _ Hsign') as (k' & e' & ttl' & _ & _ & _ & _ & ->).
        pose proof (Hpast x _ _ _ _ Hx Heq). lia.
      * cbn [minted_row RefreshToken.token]. intros ->.
        destruct (jwt_sign_inr _ _ _ _ _ _ Hsign) as (k & e & ttl & _ & _ & _ & _ & Htok).
        destruct (jwt_sign_inr _ _ _ _ _ _ Hsign') as (k' & e' & ttl' & _ & _ & _ & _ & Htok').
        rewrite Htok in Htok'. injection Htok' as _ Hiat _. lia.
Qed.

(** Carol registers at clock 2000000; a second later she logs in,
    writing her address in capitals; and someone else tries a password
    that is not hers. *)
Lemma register_then_login_witness :
  run (login Fixture.ext Fixture.env (Fixture.with_credentials "CAROL@X.COM" "letmein"))
      (with_clock 2001000
         (snd (fst (run (register Fixture.ext Fixture.env Fixture.carol)
                        Fixture.world Res.fresh)))) Res.fresh
  = (inr (NextError (AppError "Invalid credentials" 401)),
     with_clock 2001000
       (snd (fst (run (register Fixture.ext Fixture.env Fixture.carol)
                      Fixture.world Res.fresh))), Res.fresh)
  /\
  exists w2 r2 account accessToken,
    run (login Fixture.ext Fixture.env (Fixture.with_credentials "CAROL@X.COM" "pa55word"))
        (with_clock 2001000
           (snd (fst (run (register Fixture.ext Fixture.env Fixture.carol)
                          Fixture.world Res.fresh)))) Res.fresh
    = (inr Sent, w2, r2)
    /\ Res.body r2 = Some (mkBody true "Login successful" (Some account) (Some accessToken))
    /\ Admin._id account = nextId Fixture.world
    /\ Admin.email account = JS.toLowerCase "carol@x.com"
    /\ Admin.password account = None
    /\ Admin.lastLogin account = Some 2001000.
Proof.
  assert (fixture_past : signed_by (clock Fixture.world) (refreshTokens Fixture.world)).
  { intros x key claims iat exp [<- | [<- | []]] [= _ _ <- _]; vm_compute; discriminate. }
  pose (registered := fun password =>
          register_then_login Fixture.ext Fixture.env Fixture.carol Fixture.world Res.fresh
            (snd (fst (run (register Fixture.ext Fixture.env Fixture.carol)
                           Fixture.world Res.fresh)))
            (snd (run (register Fixture.ext Fixture.env Fixture.carol)
                      Fixture.world Res.fresh))
            "carol@x.com" "pa55word" eq_refl fixture_past eq_refl eq_refl eq_refl
            (Fixture.with_credentials "CAROL@X.COM" password)
            "CAROL@X.COM" 2001000 Res.fresh eq_refl eq_refl).
  split.
  - apply (proj1 (registered "letmein") "letmein");
      reflexivity.
  - apply (proj2 (registered "pa55word")); reflexivity.
Defined.

(* ================================================================== *)
(** ** Logging out goes through the guard *)
(* ================================================================== *)

(** [POST /logout] is [protect] and then [logout].  When [protect]
    refuses the request -- no access token, one that has expired, an
    outage during the account lookup -- the route ends with that error
    of [protect], the refresh token in the cookie is not revoked (the
    ledger is untouched) and the cookie is not cleared.  The route
    answers "Logged out successfully" only to a request whose access
    token [protect] accepted; and whenever it does not answer so,
    neither the ledger nor the response has changed. *)
Theorem logout_needs_a_live_access_token env req w r :
  (forall e w1 r1,
     run (protect env req) w r = (inr (NextError e), w1, r1) ->
     run (route_logout env req) w r = (inr (NextError e), w1, r)
     /\ refreshTokens w1 = refreshTokens w)
  /\
  (forall w' r',
     run (route_logout env req) w r = (inr Sent, w', r') ->
     exists account w1,
       run (protect env req) w r = (inr (Next (Req.with_admin account req)), w1, r)
       /\ Admin.isActive account = true)
  /\
  (forall out w' r',
     run (route_logout env req) w r = (out, w', r') ->
     out <> inr Sent ->
     refreshTokens w' = refreshTokens w /\ r' = r).
Proof.
  destruct (protect_cases env req w r)
    as (out0 & w0 & Hrun & _ & Hrows & _ & _ & Hout).
  unfold route_logout. split; [|split].
  - intros e w1 r1 H. rewrite run_chain, H. rewrite Hrun in H. injection H as _ <- <-.
    auto.
  - intros w' r' H. rewrite run_chain, Hrun in H.
    destruct Hout as [(stored & -> & _ & Hact) | (m & -> & _)]; [|discriminate].
    exists (Admin.with_password None stored), w0. auto.
  - intros out w' r' H Hne. rewrite run_chain, Hrun in H.
    destruct Hout as [(stored & -> & _) | (m & -> & _)].
    2:{ injection H as _ <- <-. auto. }
    unfold logout, asyncHandler in H.
    cbn [Req.cookies_refreshToken Req.with_admin] in H.
    rewrite run_try_catch, run_bind in H.
    destruct (Req.cookies_refreshToken req) as [tok|].
    2:{ cbn in H. injection H as <- _ _. contradiction. }
    destruct (Token_truthy tok).
    2:{ cbn in H. injection H as <- _ _. contradiction. }
    rewrite run_bind, run_revokeToken in H. unfold round_trip in H.
    destruct (faults w0) as [| [|] script];
      try (destruct (Mongoose.findOneAndUpdate _ _ _) as [found rows];
           cbn in H; injection H as <- _ _; contradiction).
    cbn in H. injection H as _ <- <-. auto.
Qed.

(* ================================================================== *)
(** ** The life time of a ledger row *)
(* ================================================================== *)

Lemma digit_numeral d :
  (d < 10)%nat -> JS.digit (ascii_of_nat (48 + d)) = Some (Z.of_nat d).
Proof.
  intros H. do 10 (destruct d as [| d]; [reflexivity|]). lia.
Qed.

Lemma numeral_cons d rest u :
  (numeral (d :: rest) ++ u)%string = String (ascii_of_nat (48 + d)) (numeral rest ++ u).
Proof. reflexivity. Qed.

Lemma digits_numeral ds u acc :
  Forall (fun d => (d < 10)%nat) ds ->
  match u with EmptyString => True | String c _ => JS.digit c = None end ->
  JS.digits (Some acc) (numeral ds ++ u)
  = Some (List.fold_left (fun acc d => 10 * acc + Z.of_nat d) ds acc).
Proof.
  intros Hds Hu. revert acc.
  induction Hds as [| d rest Hd _ IH]; intros acc.
  - simpl. destruct u as [| c u']; [reflexivity|]. simpl. rewrite Hu. reflexivity.
  - rewrite numeral_cons. cbn [JS.digits fold_left].
    rewrite (digit_numeral d Hd). apply IH.
Qed.

Lemma parseInt_numeral ds u :
  ds <> [] ->
  Forall (fun d => (d < 10)%nat) ds ->
  match u with EmptyString => True | String c _ => JS.digit c = None end ->
  JS.parseInt (numeral ds ++ u) = Some (numeral_value ds).
Proof.
  intros Hne Hds Hu. destruct ds as [| d rest]; [contradiction|].
  inversion Hds as [| ? ? Hd Hrest]; subst.
  assert (Hgo : JS.digits None (numeral (d :: rest) ++ u) = Some (numeral_value (d :: rest))).
  { rewrite numeral_cons. cbn [JS.digits]. rewrite (digit_numeral d Hd).
    rewrite (digits_numeral rest u _ Hrest Hu). reflexivity. }
  unfold JS.parseInt. rewrite numeral_cons in *.
  assert (Hfirst : JS.is_space (ascii_of_nat (48 + d)) = false
                   /\ ascii_of_nat (48 + d) <> "-"%char
                   /\ ascii_of_nat (48 + d) <> "+"%char).
  { do 10 (destruct d as [| d]; [repeat split; discriminate|]). lia. }
  destruct Hfirst as (Hsp & Hminus & Hplus).
  cbn [JS.trimStart]. rewrite Hsp.
  destruct (ascii_of_nat (48 + d)) as [[] [] [] [] [] [] [] []]; try exact Hgo; congruence.
Qed.

Lemma includes_numeral c ds u :
  JS.digit c = None ->
  Forall (fun d => (d < 10)%nat) ds ->
  JS.includes c (numeral ds ++ u) = JS.includes c u.
Proof.
  intros Hc Hds. induction Hds as [| d rest Hd _ IH]; [reflexivity|].
  rewrite numeral_cons. cbn [JS.includes].
  destruct (Ascii.eqb c (ascii_of_nat (48 + d))) eqn:E; [|exact IH].
  apply Ascii.eqb_eq in E. subst c. rewrite (digit_numeral d Hd) in Hc. discriminate.
Qed.

(** How [generateRefreshToken] reads [JWT_REFRESH_EXPIRE] for the
    expiry of the ledger row.  For a setting that is a decimal count
    followed by any text, the seconds are the count times 86400 when the
    text contains a [d], else times 3600 when it contains an [h], else
    times 60 when it contains an [m], else the count itself: "7d" is
    seven days, "12 hours" twelve hours, "90" ninety seconds -- and
    "30 seconds" thirty days, for the [d] in "seconds". *)
Theorem refresh_life_time_setting ds u :
  ds <> [] ->
  Forall (fun d => (d < 10)%nat) ds ->
  unit_text u ->
  expiresInSeconds (numeral ds ++ u)
  = Some (numeral_value ds
          * (if JS.includes "d" u then 24 * 60 * 60
             else if JS.includes "h" u then 60 * 60
             else if JS.includes "m" u then 60
             else 1)).
Proof.
  intros Hne Hds Hu.
  assert (Hu' : match u with EmptyString => True | String c _ => JS.digit c = None end).
  { destruct u; [exact I | apply Hu]. }
  unfold expiresInSeconds.
  rewrite !includes_numeral by (try reflexivity; exact Hds).
  rewrite (parseInt_numeral ds u Hne Hds Hu'). cbn [option_map].
  destruct (JS.includes "d" u); [f_equal; lia|].
  destruct (JS.includes "h" u); [f_equal; lia|].
  destruct (JS.includes "m" u); f_equal; lia.
Qed.

(** "7d", and "30 seconds". *)
Lemma refresh_life_time_setting_witness :
  expiresInSeconds "7d" = Some (7 * 86400)
  /\ expiresInSeconds "30 seconds" = Some (30 * 86400).
Proof.
  split.
  - apply (refresh_life_time_setting [7%nat] "d").
    + discriminate.
    + repeat constructor.
    + repeat split; discriminate.
  - apply (refresh_life_time_setting [3%nat; 0%nat] " seconds").
    + discriminate.
    + repeat constructor.
    + repeat split; discriminate.
Defined.

(* ================================================================== *)
(** ** What no session route does *)
(* ================================================================== *)

Lemma store_later_clock w c : store_later w (with_clock c w).
Proof. apply store_later_same; reflexivity. Qed.

(** Revocation is permanent.  Whatever is asked of the four
    session routes -- one request served alone, or two requests to any
    of them interleaved in any order while time passes -- and whatever
    the outages of the store: afterwards every row of the ledger is in
    its place with its token value, owner, expiry and creation stamp,
    a row that was revoked is revoked, and the only other change is that
    rows have been added at the end.  No route deletes a row or revokes
    a revocation. *)
Theorem revocation_is_permanent ext env :
  (forall x req w r,
     ledger_later (refreshTokens w)
       (refreshTokens (snd (fst (run (route ext env x req) w r)))))
  /\
  (forall x y first second schedule w,
     ledger_later (refreshTokens w)
       (refreshTokens
          (snd (concurrently schedule (route ext env x first) (route ext env y second) w)))).
Proof.
  split.
  - intros x req w r.
    apply (run_later session_effect store_later store_later_refl store_later_trans
             (fun X eff w r => exec_later eff w r)), Uses_route.
  - intros x y first second schedule w.
    apply (concurrently_later session_effect store_later store_later_refl store_later_trans
             (fun X eff w r => exec_later eff w r) store_later_clock);
      apply Uses_route.
Qed.

(** The session routes change no credentials.  In the same
    generality: afterwards every account of the store is in its place
    with its id, name, address, password hash, role, active flag and
    creation stamp -- only the last-login and update stamps may differ --
    and accounts may have been added at the end.  No route deletes an
    account, changes a password or a role, or deactivates or reactivates
    an account. *)
Theorem credentials_are_never_changed ext env :
  (forall x req w r,
     accounts_later (admins w) (admins (snd (fst (run (route ext env x req) w r)))))
  /\
  (forall x y first second schedule w,
     accounts_later (admins w)
       (admins
          (snd (concurrently schedule (route ext env x first) (route ext env y second) w)))).
Proof.
  split.
  - intros x req w r.
    apply (run_later session_effect store_later store_later_refl store_later_trans
             (fun X eff w r => exec_later eff w r)), Uses_route.
  - intros x y first second schedule w.
    apply (concurrently_later session_effect store_later store_later_refl store_later_trans
             (fun X eff w r => exec_later eff w r) store_later_clock);
      apply Uses_route.
Qed.

(* ================================================================== *)
(** ** The refresh guard *)
(* ================================================================== *)

(** [verifyRefreshToken] only reads.  Whatever the request carries
    and whatever the store does, it ends by calling [next]: with no
    error, the request then carrying the presented value, a ledger row
    that carries it and is ACTIVE at the clock, and the account that
    owns the row, password left out (active or not); or with "Refresh
    token is required" and status 400, when the cookie is absent or
    empty; or with status 401 and one of two messages -- an outage of
    the store and a row whose owner is gone are both reported as
    "Invalid refresh token".  It never throws, writes nothing to the
    response, logs nothing, and leaves both collections as they are. *)
Theorem verifyRefreshToken_only_reads req w r :
  exists out w',
    run (verifyRefreshToken req) w r = (inr out, w', r)
    /\ admins w' = admins w
    /\ refreshTokens w' = refreshTokens w
    /\ console w' = console w
    /\ clock w' = clock w
    /\ ((exists tok row owner,
           Req.cookies_refreshToken req = Some tok
           /\ out = Next (Req.with_tokenDoc
                            (RefreshToken.mkPopulated row
                               (Some (Admin.with_password None owner)))
                            (Req.with_refreshToken tok
                               (Req.with_admin (Admin.with_password None owner) req)))
           /\ In row (refreshTokens w)
           /\ RefreshToken.token row = tok
           /\ active (clock w) row = true
           /\ In owner (admins w)
           /\ Admin._id owner = RefreshToken.user row)
        \/ out = NextError (AppError "Refresh token is required" 400)
        \/ (exists message,
              out = NextError (AppError message 401)
              /\ In message ["Invalid or expired refresh token"; "Invalid refresh token"])).
Proof.
  unfold verifyRefreshToken, asyncHandler.
  destruct (Req.cookies_refreshToken req) as [tok|] eqn:Hc.
  2:{ do 2 eexists. split; [reflexivity|]. repeat (split; [reflexivity|]). auto. }
  destruct (Token_truthy tok) eqn:Ht; cbn [negb].
  2:{ do 2 eexists. split; [reflexivity|]. repeat (split; [reflexivity|]). auto. }
  rewrite !run_try_catch, run_bind, run_findValidToken.
  unfold round_trip, account_by_id.
  assert (Hrow : forall row,
            Mongoose.findOne
              (fun d => (Token_eqb (RefreshToken.token d) tok
                         && negb (RefreshToken.isRevoked d)
                         && (clock w <? RefreshToken.expiresAt d))%bool)
              (refreshTokens w) = Some row ->
            In row (refreshTokens w) /\ RefreshToken.token row = tok
            /\ active (clock w) row = true).
  { intros row Hfind. apply findOne_Some in Hfind as [Hin Hrow].
    apply andb_true_iff in Hrow as [Hrow Hlive]. apply andb_true_iff in Hrow as [Htok Hrev].
    apply Token_eqb_eq in Htok. unfold active. rewrite Hrev, Hlive. auto. }
  assert (Howner : forall id owner,
            Mongoose.findOne (fun a => Nat.eqb (Admin._id a) id) (admins w) = Some owner ->
            In owner (admins w) /\ Admin._id owner = id).
  { intros id owner Hfind. apply findOne_Some in Hfind as [Hin Hid].
    apply Nat.eqb_eq in Hid. auto. }
  destruct (faults w) as [| [|] script];
    cbn [with_faults refreshTokens admins clock];
    try (destruct (Mongoose.findOne _ (refreshTokens w)) as [row|] eqn:Hfind;
         cbn [option_map];
         [destruct (Mongoose.findOne _ (admins w)) as [owner|] eqn:Hfound;
          cbn [option_map project RefreshToken.populatedUser]|]);
    do 2 eexists; (split; [reflexivity|]); repeat (split; [reflexivity|]);
    try (right; right; eexists; split; [reflexivity|]; simpl; auto; fail);
    left; exists tok, row, owner;
    destruct (Hrow row eq_refl) as (? & ? & ?);
    destruct (Howner _ owner Hfound) as (? & ?); auto 10.
Qed.

(* ================================================================== *)
(** ** A session from login to rotation *)
(* ================================================================== *)

(** The lookup of a token value that only one row, the last inserted,
    carries. *)
Lemma findOne_minted (wanted extra : RefreshToken.t -> bool) tok old row :
  (forall d, wanted d = (Token_eqb (RefreshToken.token d) tok && extra d)%bool) ->
  (forall d, In d old -> RefreshToken.token d <> tok) ->
  RefreshToken.token row = tok ->
  Mongoose.findOne wanted (old ++ [row]) = if extra row then Some row else None.
Proof.
  intros Hw Hold Hrow. destruct (extra row) eqn:Hx.
  - apply findOne_app_skip.
    + intros x Hin. rewrite Hw, (proj2 (Token_eqb_neq _ _) (Hold x Hin)). reflexivity.
    + rewrite Hw, Hrow, Token_eqb_refl, Hx. reflexivity.
  - apply findOne_None. intros d Hd. rewrite Hw. apply in_app_or in Hd as [Hd | [<- | []]].
    + rewrite (proj2 (Token_eqb_neq _ _) (Hold d Hd)). reflexivity.
    + rewrite Hx. apply andb_false_r.
Qed.

Lemma app_last_unique {D} (l before after : list D) x :
  ~ In x l -> l ++ [x] = before ++ x :: after -> before = l /\ after = [].
Proof.
  revert before. induction l as [| y l IH]; intros before Hnot Heq.
  - destruct before as [| b before]; simpl in Heq.
    + injection Heq as <-. auto.
    + injection Heq as <- Heq. destruct before; discriminate.
  - destruct before as [| b before]; simpl in Heq.
    + injection Heq as -> _. exfalso. apply Hnot. left. reflexivity.
    + injection Heq as <- Heq.
      destruct (IH before) as [-> ->]; auto.
      intros Hin. apply Hnot. right. exact Hin.
Qed.

(** What a [login] that succeeded leaves behind. *)
Lemma login_sent_world ext env req w r w1 r1 :
  faults w = [] ->
  run (login ext env req) w r = (inr Sent, w1, r1) ->
  exists a b admins' accessToken tok s secs,
    Mongoose.findOne (fun x => Nat.eqb (Admin._id x) (Admin._id a)) admins' = Some b
    /\ Admin._id b = Admin._id a
    /\ jwt_sign ext (access_claims (Admin.with_updatedAt (clock w)
                                      (Admin.with_lastLogin (Some (clock w)) a)))
         (JWT_SECRET env) (JWT_EXPIRE env) (clock w) = inr accessToken
    /\ jwt_sign ext (mkClaims (Admin._id a) None None)
         (JWT_REFRESH_SECRET env) (JWT_REFRESH_EXPIRE env) (clock w) = inr tok
    /\ JWT_REFRESH_EXPIRE env = Some s
    /\ expiresInSeconds s = Some secs
    /\ (forall x, In x (refreshTokens w) -> RefreshToken.token x <> tok)
    /\ w1 = with_refreshTokens
              (refreshTokens w ++ [minted_row tok (Admin._id a) (clock w) secs])
              (with_admins admins' w)
    /\ Res.cookies r1
       = Res.cookies r
         ++ [SetCookie "refreshToken" tok
               (mkCookieOptions true (isProd env) (if isProd env then "none" else "lax")
                  (Some (7 * 24 * 60 * 60 * 1000)) "/" (cookieDomain env))].
Proof.
  intros Hf Hrun.
  destruct (login_sent ext env req w r w1 r1 Hf Hrun)
    as (email & password & a & hash & He & Hp & Hte & Htp & Ha & Hh & Hcmp & Hact).
  rewrite (run_login_authenticated ext env req email password w r a hash) in Hrun; auto.
  cbv zeta in Hrun.
  destruct (Mongoose.findOne (fun x => Nat.eqb (Admin._id x) (Admin._id a)) (admins w))
    as [d|] eqn:Hd.
  2:{ rewrite (findOneAndUpdate_None _ _ _ Hd) in Hrun. discriminate. }
  destruct (findOneAndUpdate_Some _
              (apply_modified [P_lastLogin] (Admin.with_lastLogin (Some (clock w)) a)
                 (clock w)) _ _ Hd) as (before & after & Hadmins & Hbefore & Hupd).
  rewrite Hupd in Hrun.
  destruct (jwt_sign ext (access_claims _) _ _ _) as [err | accessToken] eqn:Haccess;
    [discriminate|].
  rewrite run_generateRefreshToken in Hrun.
  cbn [Admin._id Admin.with_updatedAt Admin.with_lastLogin clock with_admins] in Hrun.
  destruct (jwt_sign ext (mkClaims (Admin._id a) None None) _ _ _) as [err | tok] eqn:Hsign;
    [discriminate|].
  destruct (JWT_REFRESH_EXPIRE env) as [s|] eqn:Hs; [|discriminate].
  destruct (expiresInSeconds s) as [secs|] eqn:Hsecs; [|discriminate].
  rewrite round_trip_up in Hrun by exact Hf.
  cbn [refreshTokens with_admins] in Hrun.
  destruct (existsb _ (refreshTokens w)) eqn:Hdup; [discriminate|].
  injection Hrun as <- <-.
  eexists a, _, _, accessToken, tok, s, secs.
  split; [|split; [|split; [assumption | split; [assumption | split; [reflexivity |
    split; [assumption | split; [|split; reflexivity]]]]]]].
  - apply findOne_app_skip; [exact Hbefore|].
    cbn [apply_modified Admin._id]. apply (findOne_Some _ _ _ Hd).
  - cbn [apply_modified Admin._id]. apply Nat.eqb_eq. apply (findOne_Some _ _ _ Hd).
  - intros x Hx Heq.
    assert (existsb (fun d => Token_eqb (RefreshToken.token d) tok) (refreshTokens w) = true);
      [|congruence].
    apply existsb_exists. exists x. split; [exact Hx|]. apply Token_eqb_eq. exact Heq.
Qed.

(** [verifyRefreshToken] for a value that only the last row of the
    ledger carries, the store answering. *)
Lemma run_verifyRefreshToken_minted req tok old row account w r :
  Req.cookies_refreshToken req = Some tok ->
  Token_truthy tok = true ->
  faults w = [] ->
  refreshTokens w = old ++ [row] ->
  (forall d, In d old -> RefreshToken.token d <> tok) ->
  RefreshToken.token row = tok ->
  account_by_id (RefreshToken.user row) w = Some account ->
  run (verifyRefreshToken req) w r
  = if active (clock w) row
    then (inr (Next (Req.with_tokenDoc
                       (RefreshToken.mkPopulated row (Some (Admin.with_password None account)))
                       (Req.with_refreshToken tok
                          (Req.with_admin (Admin.with_password None account) req)))), w, r)
    else (inr (NextError (AppError "Invalid or expired refresh token" 401)), w, r).
Proof.
  intros Hc Ht Hf Hrows Hold Hrow Hacc.
  unfold verifyRefreshToken, asyncHandler. rewrite Hc, Ht. cbn [negb].
  rewrite !run_try_catch, run_bind, run_findValidToken, (round_trip_up _ _ Hf), Hrows.
  rewrite (findOne_minted _ (active (clock w)) tok old row); auto.
  - destruct (active (clock w) row); [|reflexivity].
    cbn [option_map]. rewrite Hacc. reflexivity.
  - intros d. unfold active. rewrite andb_assoc. reflexivity.
Qed.

(** [verifyRefreshToken] for a value that no ACTIVE row carries, the
    store answering. *)
Lemma run_verifyRefreshToken_dead req tok w r :
  Req.cookies_refreshToken req = Some tok ->
  Token_truthy tok = true ->
  faults w = [] ->
  (forall d, In d (refreshTokens w) -> RefreshToken.token d = tok ->
             active (clock w) d = false) ->
  run (verifyRefreshToken req) w r
  = (inr (NextError (AppError "Invalid or expired refresh token" 401)), w, r).
Proof.
  intros Hc Ht Hf Hdead.
  unfold verifyRefreshToken, asyncHandler. rewrite Hc, Ht. cbn [negb].
  rewrite !run_try_catch, run_bind, run_findValidToken, (round_trip_up _ _ Hf).
  rewrite (no_active_row_not_found tok (clock w) (refreshTokens w) Hdead). reflexivity.
Qed.

(** A session, from login to rotation.  After a login that succeeded
    (no token of the ledger bearing a stamp from the future), the cookie
    holds a refresh token with which, in any later clock second before
    its row expires and with the store answering, [POST /refresh]
    succeeds: it answers with a new access token and sets a cookie with
    a refresh token other than the one presented.  From then on the old
    token is refused with "Invalid or expired refresh token" (401) at
    any clock, and the new one is accepted by [verifyRefreshToken] until
    its own row expires. *)
Theorem a_session_from_login_to_rotation ext env credentials w r w1 r1 :
  faults w = [] ->
  signed_by (clock w) (refreshTokens w) ->
  run (login ext env credentials) w r = (inr Sent, w1, r1) ->
  exists tok opts s secs,
    Res.cookies r1 = Res.cookies r ++ [SetCookie "refreshToken" tok opts]
    /\ JWT_REFRESH_EXPIRE env = Some s
    /\ expiresInSeconds s = Some secs
    /\ forall req later,
         Req.cookies_refreshToken req = Some tok ->
         clock w / 1000 < later / 1000 ->
         later < clock w + secs * 1000 ->
         exists w2 r2 newTok opts' accessTok,
           run (route_refresh ext env req) (with_clock later w1) Res.fresh = (inr Sent, w2, r2)
           /\ Res.cookies r2 = [SetCookie "refreshToken" newTok opts']
           /\ Res.body r2
              = Some (mkBody true "Token refreshed successfully" None (Some accessTok))
           /\ newTok <> tok
           /\ (forall later' r3,
                 run (route_refresh ext env req) (with_clock later' w2) r3
                 = (inr (NextError (AppError "Invalid or expired refresh token" 401)),
                    with_clock later' w2, r3))
           /\ (forall req' later' r3,
                 Req.cookies_refreshToken req' = Some newTok ->
                 later' < later + secs * 1000 ->
                 exists req'',
                   run (verifyRefreshToken req') (with_clock later' w2) r3
                   = (inr (Next req''), with_clock later' w2, r3)).
Proof.
  intros Hf Hpast Hrun.
  destruct (login_sent_world ext env credentials w r w1 r1 Hf Hrun)
    as (a & b & admins' & accessToken & tok & s & secs
        & Hb & Hid & Haccess & Hsign & Hs & Hsecs & Hfresh & -> & Hcookie).
  eexists tok, _, s, secs. split; [exact Hcookie|]. split; [exact Hs|]. split; [exact Hsecs|].
  intros req later Hc Hsec Hlive.
  pose proof (jwt_sign_truthy _ _ _ _ _ _ Hsign) as Ht.
  set (minted := minted_row tok (Admin._id a) (clock w) secs).
  set (w1 := with_clock later _).
  set (account := Admin.with_password None b).
  set (d := RefreshToken.mkPopulated minted (Some account)).
  set (req1 := Req.with_tokenDoc d (Req.with_refreshToken tok (Req.with_admin account req))).
  assert (Hverify : run (verifyRefreshToken req) w1 Res.fresh = (inr (Next req1), w1, Res.fresh)).
  { rewrite (run_verifyRefreshToken_minted req tok (refreshTokens w) minted b w1 Res.fresh);
      auto.
    unfold active, minted. cbn [minted_row RefreshToken.isRevoked RefreshToken.expiresAt
                                 negb andb clock w1 with_clock].
    apply Z.ltb_lt in Hlive. rewrite Hlive. reflexivity. }
  destruct (jwt_sign_succeeds ext _ (mkClaims (Admin._id account) None None)
              _ _ _ later _ Hsign) as (newTok & Hsign').
  destruct (jwt_sign_succeeds ext _ (access_claims account) _ _ _ later _ Haccess)
    as (accessTok & Haccess').
  assert (Hne : newTok <> tok).
  { destruct (jwt_sign_inr _ _ _ _ _ _ Hsign) as (k & e & ttl & _ & _ & _ & _ & ->).
    destruct (jwt_sign_inr _ _ _ _ _ _ Hsign') as (k' & e' & ttl' & _ & _ & _ & _ & ->).
    intros [= _ _ Hiat _]. lia. }
  assert (Hnew : forall x, In x (refreshTokens w) -> RefreshToken.token x <> newTok).
  { intros x Hx Heq.
    destruct (jwt_sign_inr _ _ _ _ _ _ Hsign') as (k' & e' & ttl' & _ & _ & _ & _ & ->).
    pose proof (Hpast x _ _ _ _ Hx Heq). lia. }
  destruct (run_refreshToken_rotates ext env req1 d account w1 Res.fresh minted
              newTok accessTok s secs) as (before & after & Hrows & Hrot); auto.
  { unfold w1. cbn [refreshTokens with_clock with_refreshTokens RefreshToken.doc
                    RefreshToken.token d minted minted_row].
    rewrite (findOne_minted _ (fun x => negb (RefreshToken.isRevoked x)) tok
               (refreshTokens w) (minted_row tok (Admin._id a) (clock w) secs));
      auto. }
  { unfold w1. cbn [refreshTokens with_clock with_refreshTokens].
    intros x Hx. apply in_app_or in Hx as [Hx | [<- | []]]; auto. }
  destruct (app_last_unique (refreshTokens w) before after minted) as [-> ->].
  { intros Hin. apply (Hfresh minted Hin). reflexivity. }
  { exact Hrows. }
  unfold route_refresh. rewrite run_chain, Hverify, Hrot.
  do 5 eexists. split; [reflexivity|].
  cbn [Res.cookies Res.body Res.fresh app].
  split; [reflexivity|]. split; [reflexivity|]. split; [exact Hne|].
  split.
  - intros later' r3. rewrite run_chain.
    rewrite (run_verifyRefreshToken_dead req tok); auto.
    cbn [refreshTokens with_clock with_refreshTokens].
    intros x Hx Htok. apply in_app_or in Hx as [Hx | [<- | []]].
    + apply in_app_or in Hx as [Hx | [<- | []]].
      * destruct (Hfresh x Hx Htok).
      * reflexivity.
    + destruct (Hne Htok).
  - intros req' later' r3 Hc' Hlive'.
    eexists.
    rewrite (run_verifyRefreshToken_minted req' newTok
               (refreshTokens w ++ [set_revoked (clock w1) minted])
               (minted_row newTok (Admin._id account) (clock w1) secs) b); auto.
    + unfold active. cbn [minted_row RefreshToken.isRevoked RefreshToken.expiresAt
                          negb andb clock w1 with_clock].
      apply Z.ltb_lt in Hlive'. rewrite Hlive'. reflexivity.
    + exact (jwt_sign_truthy _ _ _ _ _ _ Hsign').
    + intros x Hx. apply in_app_or in Hx as [Hx | [<- | []]]; auto.
    + unfold account_by_id. cbn [minted_row RefreshToken.user admins with_clock
                                 with_refreshTokens with_admins w1 account Admin._id
                                 Admin.with_password].
      rewrite Hid. exact Hb.
Qed.


(** Alice logs in at clock 2000000 and refreshes a second later. *)
Lemma a_session_from_login_to_rotation_witness :
  exists w2 r2 newTok opts' accessTok,
    run (route_refresh Fixture.ext Fixture.env
           (Fixture.with_cookie (Jwt "refresh-secret" (mkClaims 1%nat None None) 2000 606800)))
        (with_clock 2001000
           (snd (fst (run (login Fixture.ext Fixture.env
                             (Fixture.with_credentials "a@x.com" "Secr3t!"))
                          Fixture.world Res.fresh)))) Res.fresh
    = (inr Sent, w2, r2)
    /\ Res.cookies r2 = [SetCookie "refreshToken" newTok opts']
    /\ Res.body r2
       = Some (mkBody true "Token refreshed successfully" None (Some accessTok))
    /\ newTok <> Jwt "refresh-secret" (mkClaims 1%nat None None) 2000 606800
    /\ (forall later' r3,
          run (route_refresh Fixture.ext Fixture.env
                 (Fixture.with_cookie
                    (Jwt "refresh-secret" (mkClaims 1%nat None None) 2000 606800)))
              (with_clock later' w2) r3
          = (inr (NextError (AppError "Invalid or expired refresh token" 401)),
             with_clock later' w2, r3))
    /\ (forall req' later' r3,
          Req.cookies_refreshToken req' = Some newTok ->
          later' < 2001000 + 604800 * 1000 ->
          exists req'',
            run (verifyRefreshToken req') (with_clock later' w2) r3
            = (inr (Next req''), with_clock later' w2, r3)).
Proof.
  destruct (a_session_from_login_to_rotation Fixture.ext Fixture.env
              (Fixture.with_credentials "a@x.com" "Secr3t!") Fixture.world Res.fresh
              (snd (fst (run (login Fixture.ext Fixture.env
                                (Fixture.with_credentials "a@x.com" "Secr3t!"))
                             Fixture.world Res.fresh)))
              (snd (run (login Fixture.ext Fixture.env
                           (Fixture.with_credentials "a@x.com" "Secr3t!"))
                        Fixture.world Res.fresh))
              eq_refl)
    as (tok & opts & s & secs & Hcookie & Hs & Hsecs & Hrefresh).
  - intros x key claims iat exp [<- | [<- | []]] [= _ _ <- _]; vm_compute; discriminate.
  - reflexivity.
  - injection Hcookie as <- _. injection Hs as <-. injection Hsecs as <-.
    apply Hrefresh; reflexivity.
Defined.

(* ================================================================== *)
(** ** A logout is final *)
(* ================================================================== *)

Lemma keeps_dead_same tok w w' :
  refreshTokens w' = refreshTokens w -> keeps_dead tok w w'.
Proof. unfold keeps_dead, present. intros ->. auto. Qed.

Lemma keeps_dead_trans tok w1 w2 w3 :
  keeps_dead tok w1 w2 -> keeps_dead tok w2 w3 -> keeps_dead tok w1 w3.
Proof. unfold keeps_dead. intros [? ?] [? ?]. auto. Qed.

Lemma round_trip_keeps_dead {X} tok w (answer : World -> Result X * World) :
  (forall w0, refreshTokens w0 = refreshTokens w -> keeps_dead tok w (snd (answer w0))) ->
  keeps_dead tok w (snd (round_trip w answer)).
Proof.
  intros H. unfold round_trip.
  destruct (faults w) as [| [|] script]; simpl.
  - apply H; reflexivity.
  - apply keeps_dead_same; reflexivity.
  - apply H; reflexivity.
Qed.

Lemma findOneAndUpdate_revoked (filter : RefreshToken.t -> bool) now rows row :
  In row (snd (Mongoose.findOneAndUpdate filter (set_revoked now) rows)) ->
  exists d, In d rows /\ RefreshToken.token d = RefreshToken.token row
            /\ (RefreshToken.isRevoked d = true -> RefreshToken.isRevoked row = true).
Proof.
  induction rows as [| x rest IH]; cbn [Mongoose.findOneAndUpdate]; [intros []|].
  destruct (filter x).
  - cbn [snd]. intros [<- | Hin].
    + exists x. split; [left; reflexivity|]. split; reflexivity.
    + exists row. split; [right; exact Hin | auto].
  - destruct (Mongoose.findOneAndUpdate filter (set_revoked now) rest) as [found rest'].
    cbn [snd] in *. intros [<- | Hin].
    + exists x. split; [left; reflexivity | auto].
    + destruct (IH Hin) as (d & Hd & Ht & Hr). exists d. split; [right; exact Hd | auto].
Qed.

Lemma findOneAndUpdate_consumed tok (filter : RefreshToken.t -> bool) now rows :
  consumed tok rows ->
  consumed tok (snd (Mongoose.findOneAndUpdate filter (set_revoked now) rows)).
Proof.
  intros [Hin Hrev]. split.
  - rewrite findOneAndUpdate_tokens. exact Hin.
  - intros row Hrow Htok.
    destruct (findOneAndUpdate_revoked filter now rows row Hrow) as (d & Hd & Ht & Hr).
    apply Hr, Hrev; [exact Hd | congruence].
Qed.

Lemma exec_keeps_dead tok {X} (eff : Eff X) w r :
  session_effect X eff -> keeps_dead tok w (snd (fst (exec eff w r))).
Proof.
  destruct eff; simpl; intros Heff;
    try (apply keeps_dead_same; reflexivity);
    try (apply round_trip_keeps_dead; intros w0 Hl; simpl;
         try destruct (existsb _ (admins w0));
         try destruct (Mongoose.findOneAndUpdate _ _ (admins w0)) as [[found|] admins'];
         apply keeps_dead_same; assumption).
  - (* TokenInsert *)
    apply round_trip_keeps_dead. intros w0 Hl.
    destruct (existsb _ (refreshTokens w0)) eqn:Hnew; simpl;
      [apply keeps_dead_same; assumption|].
    rewrite Hl in *. unfold keeps_dead, present. simpl. split.
    + intros [Hu Hin]. split; [apply insert_unique; assumption|].
      rewrite map_app. apply in_or_app. left. exact Hin.
    + intros Hdead. apply insert_consumed; assumption.
  - (* TokenFindOneAndUpdate *)
    subst update. apply round_trip_keeps_dead. intros w0 Hl.
    pose proof (findOneAndUpdate_tokens filter (clock w0) (refreshTokens w0)) as Htoks.
    pose proof (findOneAndUpdate_consumed tok filter (clock w0) (refreshTokens w0)) as Hdead.
    destruct (Mongoose.findOneAndUpdate _ _ (refreshTokens w0)) as [found rows].
    cbn [snd] in *. rewrite Hl in *. unfold keeps_dead, present, unique_tokens. simpl.
    rewrite Htoks. auto.
  - (* TokenUpdateMany *)
    subst update. apply round_trip_keeps_dead. intros w0 Hl.
    rewrite Hl. unfold keeps_dead, present, unique_tokens. simpl.
    rewrite updateMany_tokens. split; [auto|]. apply updateMany_consumed.
  - contradiction.
Qed.

(** The logout handler stops at the revocation of the presented
    value. *)
Lemma settle_logout env req tok w r :
  Req.cookies_refreshToken req = Some tok ->
  Token_truthy tok = true ->
  exists p',
    settle (logout env req) w r = (p', w, r) /\ Revoking tok p'.
Proof.
  intros Hc Ht. unfold logout, asyncHandler, revokeToken, clearRefreshTokenCookie.
  rewrite Hc, Ht.
  cbn [bind try_catch perform settle is_round_trip].
  eexists. split; [reflexivity|]. split; [reflexivity|].
  intros w1 r1. cbn [step exec]. unfold round_trip.
  destruct (faults w1) as [| [|] script].
  - destruct (Mongoose.findOneAndUpdate _ _ (refreshTokens w1)) as [found rows] eqn:Hupd.
    cbn. do 3 eexists. split; [reflexivity|]. right. split; [reflexivity|].
    cbn [refreshTokens with_refreshTokens]. reflexivity.
  - cbn. do 3 eexists. split; [reflexivity|]. left. eexists. split; reflexivity.
  - cbn [with_faults clock refreshTokens].
    destruct (Mongoose.findOneAndUpdate _ _ (refreshTokens w1)) as [found rows] eqn:Hupd.
    cbn. do 3 eexists. split; [reflexivity|]. right. split; [reflexivity|].
    cbn [refreshTokens with_refreshTokens]. reflexivity.
Qed.

(** A logout request stops at the account lookup of [protect], unless
    [protect] refuses it at once. *)
Lemma arrive_logout env req tok w :
  Req.cookies_refreshToken req = Some tok ->
  Token_truthy tok = true ->
  exists p,
    arrive (route_logout env req) w = (mkThread p Res.fresh, w)
    /\ (Guarding tok p \/ exists e, p = Ret (NextError e)).
Proof.
  intros Hc Ht. unfold arrive, route_logout, chain, protect, asyncHandler.
  set (token := if (falsy (bearer (Req.authorization req))
                    && negb (falsy (Req.cookies_accessToken req)))%bool
                then Req.cookies_accessToken req else bearer (Req.authorization req)).
  destruct token as [access|].
  2:{ cbn. eexists. split; [reflexivity|]. right. eexists. reflexivity. }
  destruct (Token_truthy access).
  2:{ cbn. eexists. split; [reflexivity|]. right. eexists. reflexivity. }
  cbn [negb bind try_catch perform settle is_round_trip exec].
  destruct (jwt_verify access (JWT_SECRET env) (clock w)) as [e | decoded].
  { cbn [lift bind try_catch]. destruct (String.eqb (err_name e) "TokenExpiredError");
      cbn; eexists; (split; [reflexivity|]); right; eexists; reflexivity. }
  unfold Admin_findById.
  cbn [lift bind try_catch perform settle is_round_trip].
  eexists. split; [reflexivity|]. left. split; [reflexivity|].
  intros w1 r1. cbn [step exec]. unfold round_trip.
  assert (Hlook : forall w2 : World,
    refreshTokens w2 = refreshTokens w1 ->
    exists p' w' r',
      settle
        (bind
           (try_catch
              (try_catch
                 (bind
                    match
                      (@inr Error _
                         (option_map (project false)
                            (Mongoose.findOne
                               (fun a => Nat.eqb (Admin._id a) (claim_id decoded))
                               (admins w2))))
                    with
                    | inl e => Throw e
                    | inr v => Ret v
                    end
                    (fun admin =>
                       match admin with
                       | Some admin0 =>
                           if negb (Admin.isActive admin0)
                           then Ret (NextError (AppError "Account is deactivated" 401))
                           else Ret (Next (Req.with_admin admin0 req))
                       | None => Ret (NextError (AppError "Token is not valid" 401))
                       end))
                 (fun error =>
                    if String.eqb (err_name error) "TokenExpiredError"
                    then Ret (NextError (AppError "Token expired" 401))
                    else Ret (NextError (AppError "Token is not valid" 401))))
              (fun err => Ret (NextError err)))
           (fun ended =>
              match ended with
              | Next req' => logout env req'
              | _ => Ret ended
              end)) w2 r1 = (p', w', r')
      /\ refreshTokens w' = refreshTokens w1
      /\ (Revoking tok p' \/ exists e, p' = Ret (NextError e))).
  { intros w2 Hl.
    destruct (Mongoose.findOne _ (admins w2)) as [account|]; cbn [option_map bind try_catch].
    2:{ cbn. do 3 eexists. split; [reflexivity|]. split; [exact Hl|].
        right. eexists. reflexivity. }
    destruct (Admin.isActive (project false account)); cbn [negb bind try_catch].
    2:{ cbn. do 3 eexists. split; [reflexivity|]. split; [exact Hl|].
        right. eexists. reflexivity. }
    destruct (settle_logout env (Req.with_admin (project false account) req) tok w2 r1 Hc Ht)
      as (p' & Hp' & Hrev).
    exists p', w2, r1. split; [exact Hp'|]. split; [exact Hl|]. left. exact Hrev. }
  destruct (faults w1) as [| [|] script].
  - apply Hlook. reflexivity.
  - cbn. do 3 eexists. split; [reflexivity|]. split; [reflexivity|].
    right. eexists. reflexivity.
  - apply Hlook. reflexivity.
Qed.

Lemma revoke_consumes tok now rows :
  unique_tokens rows ->
  In tok (List.map RefreshToken.token rows) ->
  consumed tok (snd (Mongoose.findOneAndUpdate
                       (fun d => Token_eqb (RefreshToken.token d) tok)
                       (set_revoked now) rows)).
Proof.
  intros Hu Hin. split.
  - rewrite findOneAndUpdate_tokens. exact Hin.
  - apply (proj2 (revoke_one_frame tok now rows)). exact Hu.
Qed.

Lemma present_tokens tok w w' :
  List.map RefreshToken.token (refreshTokens w')
  = List.map RefreshToken.token (refreshTokens w) ->
  present tok w -> present tok w'.
Proof. unfold present, unique_tokens. intros ->. auto. Qed.

(** One turn of the logout request. *)
Lemma turn_logging_out tok t w :
  present tok w ->
  logging_out tok (refreshTokens w) (prog t) ->
  present tok (snd (turn t w))
  /\ logging_out tok (refreshTokens (snd (turn t w))) (prog (fst (turn t w))).
Proof.
  intros Hpresent [[_ Hstep] | [[_ Hstep] | [(e & Hp) | [Hp Hdead]]]]; unfold turn.
  - destruct (Hstep w (res t)) as (p' & w' & r' & -> & Hrows & Hnext). cbn [fst snd prog].
    split; [apply (present_tokens tok w); [rewrite Hrows; reflexivity | exact Hpresent]|].
    destruct Hnext as [Hrev | Hend]; unfold logging_out; auto.
  - destruct (Hstep w (res t)) as (p' & w' & r' & -> & Hnext). cbn [fst snd prog].
    destruct Hnext as [(e & -> & Hrows) | [-> Hrows]].
    + split; [apply (present_tokens tok w); [rewrite Hrows; reflexivity | exact Hpresent]|].
      unfold logging_out. right. right. left. exists e. reflexivity.
    + split.
      * apply (present_tokens tok w); [|exact Hpresent].
        rewrite Hrows. apply findOneAndUpdate_tokens.
      * unfold logging_out. right. right. right. split; [reflexivity|].
        rewrite Hrows. destruct Hpresent. apply revoke_consumes; assumption.
  - rewrite Hp. cbn [step fst snd prog]. split; [exact Hpresent|].
    unfold logging_out. right. right. left. exists e. reflexivity.
  - rewrite Hp. cbn [step fst snd prog]. split; [exact Hpresent|].
    unfold logging_out. auto.
Qed.

(** One turn of the other request. *)
Lemma turn_keeps_dead tok t w :
  Uses session_effect (prog t) ->
  Uses session_effect (prog (fst (turn t w))) /\ keeps_dead tok w (snd (turn t w)).
Proof.
  intros Huses. unfold turn.
  pose proof (Uses_step session_effect (prog t) w (res t) Huses) as Huses'.
  pose proof (step_later session_effect (keeps_dead tok)
                (fun w => keeps_dead_same tok w w eq_refl) (keeps_dead_trans tok)
                (fun X eff w r => exec_keeps_dead tok eff w r)
                (prog t) w (res t) Huses) as Hkeeps.
  destruct (step (prog t) w (res t)) as [[p' w'] r']. cbn [fst snd prog] in *. auto.
Qed.

Lemma logging_out_kept tok w w' p :
  keeps_dead tok w w' ->
  logging_out tok (refreshTokens w) p -> logging_out tok (refreshTokens w') p.
Proof.
  intros [_ Hdead]. unfold logging_out.
  intros [H | [H | [H | [H1 H2]]]]; auto.
  right. right. right. auto.
Qed.

(** The two requests, turn by turn: [mine] says which of the two is the
    logout. *)
Lemma interleave_logout tok schedule :
  forall a b w,
    present tok w ->
    (logging_out tok (refreshTokens w) (prog a) /\ Uses session_effect (prog b)
     -> let '(a', b', w') := interleave schedule a b w in
        present tok w' /\ logging_out tok (refreshTokens w') (prog a'))
    /\
    (logging_out tok (refreshTokens w) (prog b) /\ Uses session_effect (prog a)
     -> let '(a', b', w') := interleave schedule a b w in
        present tok w' /\ logging_out tok (refreshTokens w') (prog b')).
Proof.
  induction schedule as [| [| | ms] rest IH]; intros a b w Hpresent; cbn [interleave].
  - split; intros [H _]; auto.
  - split; intros [Hlog Huses].
    + destruct (turn_logging_out tok a w Hpresent Hlog) as [Hp' Hlog'].
      pose proof (turn_keeps_dead tok a w) as _.
      destruct (turn a w) as [a' w'] eqn:Hturn. cbn [fst snd] in *.
      apply (proj1 (IH a' b w' Hp')). auto.
    + destruct (turn_keeps_dead tok a w Huses) as [Huses' Hkeeps].
      destruct (turn a w) as [a' w'] eqn:Hturn. cbn [fst snd] in *.
      apply (proj2 (IH a' b w' (proj1 Hkeeps Hpresent))).
      split; [|exact Huses']. exact (logging_out_kept tok w w' _ Hkeeps Hlog).
  - split; intros [Hlog Huses].
    + destruct (turn_keeps_dead tok b w Huses) as [Huses' Hkeeps].
      destruct (turn b w) as [b' w'] eqn:Hturn. cbn [fst snd] in *.
      apply (proj1 (IH a b' w' (proj1 Hkeeps Hpresent))).
      split; [|exact Huses']. exact (logging_out_kept tok w w' _ Hkeeps Hlog).
    + destruct (turn_logging_out tok b w Hpresent Hlog) as [Hp' Hlog'].
      destruct (turn b w) as [b' w'] eqn:Hturn. cbn [fst snd] in *.
      apply (proj2 (IH a b' w' Hp')). auto.
  - assert (Hp' : present tok (with_clock (clock w + ms) w)) by exact Hpresent.
    split; intros [Hlog Huses].
    + apply (proj1 (IH a b _ Hp')). auto.
    + apply (proj2 (IH a b _ Hp')). auto.
Qed.

Lemma arrive_session ext env x req w :
  Uses session_effect (prog (fst (arrive (route ext env x req) w)))
  /\ refreshTokens (snd (arrive (route ext env x req) w)) = refreshTokens w.
Proof.
  unfold arrive.
  pose proof (Uses_settle session_effect (route ext env x req) w Res.fresh
                (Uses_route ext env x req)) as Huses.
  assert (Hrows : forall {A} (p : Prog A) w r,
            refreshTokens (snd (fst (settle p w r))) = refreshTokens w).
  { intros A p. induction p as [a | e | X eff k IH]; intros w0 r0; try reflexivity.
    cbn [settle]. destruct (is_round_trip eff) eqn:Hrt; [reflexivity|].
    destruct (exec eff w0 r0) as [[y w1] r1] eqn:Hexec. rewrite IH.
    destruct eff; try discriminate; cbn in Hexec; injection Hexec as _ <- _; reflexivity. }
  specialize (Hrows _ (route ext env x req) w Res.fresh).
  destruct (settle (route ext env x req) w Res.fresh) as [[p w'] r']. cbn [fst snd prog] in *.
  auto.
Qed.

(** A logout is final.  When [POST /logout], presenting a refresh token
    that the ledger holds, has answered "Logged out successfully", every
    row that carries the token is revoked -- whatever other request to a
    session route was served at the same time, in whatever order the
    store answered the two, and whatever its outages -- and from then on
    a refresh with the token is refused with "Invalid or expired refresh
    token" (401). *)
Theorem logout_is_final ext env req tok x other schedule w :
  Req.cookies_refreshToken req = Some tok ->
  Token_truthy tok = true ->
  unique_tokens (refreshTokens w) ->
  In tok (List.map RefreshToken.token (refreshTokens w)) ->
  forall a b w',
    concurrently schedule (route_logout env req) (route ext env x other) w = (a, b, w')
    \/ concurrently schedule (route ext env x other) (route_logout env req) w = (b, a, w') ->
    outcome a = Some (inr Sent) ->
    (forall row, In row (refreshTokens w') -> RefreshToken.token row = tok ->
                 RefreshToken.isRevoked row = true)
    /\ (forall again later r,
          Req.cookies_refreshToken again = Some tok ->
          faults w' = [] ->
          run (route_refresh ext env again) (with_clock later w') r
          = (inr (NextError (AppError "Invalid or expired refresh token" 401)),
             with_clock later w', r)).
Proof.
  intros Hc Ht Hu Hin a b w' Hrun Hsent.
  assert (Hdead : logging_out tok (refreshTokens w') (prog a)).
  { unfold concurrently in Hrun. destruct Hrun as [Hrun | Hrun].
    - destruct (arrive_logout env req tok w Hc Ht) as (p & Hp & Hphase).
      rewrite Hp in Hrun.
      destruct (arrive_session ext env x other w) as [Huses Hrows].
      destruct (arrive (route ext env x other) w) as [tb w2]. cbn [fst snd] in *.
      assert (Hpresent : present tok w2).
      { apply (present_tokens tok w); [rewrite Hrows; reflexivity | split; assumption]. }
      pose proof (proj1 (interleave_logout tok schedule (mkThread p Res.fresh) tb w2 Hpresent))
        as Hkeep.
      rewrite Hrun in Hkeep. apply Hkeep. split; [|exact Huses].
      cbn [prog]. unfold logging_out. destruct Hphase as [H | H]; auto.
    - destruct (arrive_session ext env x other w) as [Huses Hrows].
      destruct (arrive (route ext env x other) w) as [tb w1]. cbn [fst snd] in *.
      destruct (arrive_logout env req tok w1 Hc Ht) as (p & Hp & Hphase).
      rewrite Hp in Hrun.
      assert (Hpresent : present tok w1).
      { apply (present_tokens tok w); [rewrite Hrows; reflexivity | split; assumption]. }
      pose proof (proj2 (interleave_logout tok schedule tb (mkThread p Res.fresh) w1 Hpresent))
        as Hkeep.
      rewrite Hrun in Hkeep. apply Hkeep. split; [|exact Huses].
      cbn [prog]. unfold logging_out. destruct Hphase as [H | H]; auto. }
  assert (Hrevoked : consumed tok (refreshTokens w')).
  { unfold outcome in Hsent.
    destruct Hdead as [[Hfin _] | [[Hfin _] | [(e & Hp) | [_ H]]]]; auto.
    - destruct (prog a); try discriminate.
    - destruct (prog a); try discriminate.
    - rewrite Hp in Hsent. discriminate. }
  split; [exact (proj2 Hrevoked)|].
  intros again later r Hagain Hf.
  unfold route_refresh. rewrite run_chain.
  rewrite (run_verifyRefreshToken_dead again tok); auto.
  cbn [refreshTokens with_clock]. intros d Hd Htok. unfold active.
  rewrite (proj2 Hrevoked d Hd Htok). reflexivity.
Qed.

(** Alice logs out while her refresh is in flight: the refresh has found
    the row unrevoked, the logout revokes it, and the refresh is
    refused. *)
Lemma logout_is_final_witness :
  let req :=
    Req.mk (Some [Opaque "Bearer";
                  Jwt "access-secret" (access_claims Fixture.alice) 2000 2900])
      (Some (Fixture.issued Fixture.alice)) None None None None None None None None in
  let served :=
    concurrently [Second; First; First; Second; Second]
      (route_logout Fixture.env req)
      (route Fixture.ext Fixture.env Refresh
         (Fixture.with_cookie (Fixture.issued Fixture.alice)))
      Fixture.world in
  outcome (fst (fst served)) = Some (inr Sent)
  /\ outcome (snd (fst served))
     = Some (inr (NextError
                    (AppError
                       "Refresh token reuse detected. All sessions revoked. Please log in again."
                       401)))
  /\ (forall row, In row (refreshTokens (snd served)) ->
                  RefreshToken.token row = Fixture.issued Fixture.alice ->
                  RefreshToken.isRevoked row = true)
  /\ (forall again later r,
        Req.cookies_refreshToken again = Some (Fixture.issued Fixture.alice) ->
        faults (snd served) = [] ->
        run (route_refresh Fixture.ext Fixture.env again) (with_clock later (snd served)) r
        = (inr (NextError (AppError "Invalid or expired refresh token" 401)),
           with_clock later (snd served), r)).
Proof.
  intros req served.
  split; [reflexivity|]. split; [reflexivity|].
  apply (logout_is_final Fixture.ext Fixture.env req (Fixture.issued Fixture.alice) Refresh
           (Fixture.with_cookie (Fixture.issued Fixture.alice))
           [Second; First; First; Second; Second] Fixture.world
           eq_refl eq_refl
           ltac:(repeat constructor; cbn; intuition discriminate)
           ltac:(left; reflexivity)
           (fst (fst served)) (snd (fst served)) (snd served)
           (or_introl eq_refl) eq_refl).
Defined.

(* ================================================================== *)
(** ** Two registrations of one address *)
(* ================================================================== *)

Lemma taken_existsb address accounts :
  List.existsb (fun a => String.eqb (Admin.email a) address) accounts = false <->
  ~ taken address accounts.
Proof.
  unfold taken. split.
  - intros Hnone Hin. apply in_map_iff in Hin as (a & Ha & Hin).
    assert (existsb (fun a => String.eqb (Admin.email a) address) accounts = true);
      [|congruence].
    apply existsb_exists. exists a. split; [exact Hin|]. apply String.eqb_eq. exact Ha.
  - intros Hnot. destruct (existsb _ accounts) eqn:E; [|reflexivity]. exfalso. apply Hnot.
    apply existsb_exists in E as (a & Hin & Ha). apply String.eqb_eq in Ha.
    rewrite <- Ha. apply in_map. exact Hin.
Qed.

(** After the insert of the account: the two mints, up to the insert of
    the ledger row. *)
Lemma settle_enrolled ext env admin w r :
  exists p',
    settle
      (try_catch
         (accessToken <- generateAccessToken ext env admin ;;
          refreshToken <- generateRefreshToken ext env admin ;;
          setRefreshTokenCookie env refreshToken ;;
          perform (ResStatus 201) ;;
          perform (ResJson (mkBody true "Admin registered successfully"
                              (Some admin) (Some accessToken))) ;;
          Ret Sent)
         (fun err => Ret (NextError err))) w r
    = (p', w, r)
    /\ (Enrolled p' \/ exists e, p' = Ret (NextError e)).
Proof.
  unfold generateAccessToken, generateRefreshToken, createToken, RefreshToken_create.
  cbn [bind try_catch perform settle is_round_trip exec].
  destruct (jwt_sign ext _ (JWT_SECRET env) _ _) as [e | accessToken].
  { cbn. eexists. split; [reflexivity|]. right. eexists. reflexivity. }
  cbn [lift bind try_catch perform settle is_round_trip exec].
  destruct (jwt_sign ext _ (JWT_REFRESH_SECRET env) _ _) as [e | tok] eqn:Hsign.
  { cbn. eexists. split; [reflexivity|]. right. eexists. reflexivity. }
  cbn [lift bind try_catch settle].
  destruct (JWT_REFRESH_EXPIRE env) as [s|].
  2:{ cbn. eexists. split; [reflexivity|]. right. eexists. reflexivity. }
  cbn [bind try_catch perform settle is_round_trip exec].
  destruct (expiresInSeconds s) as [secs|].
  2:{ cbn. eexists. split; [reflexivity|]. right. eexists. reflexivity. }
  cbn [option_map]. rewrite (jwt_sign_truthy _ _ _ _ _ _ Hsign).
  cbn [bind try_catch perform settle is_round_trip exec].
  eexists. split; [reflexivity|]. left. split; [reflexivity|].
  intros w1 r1. cbn [step exec]. unfold round_trip, setRefreshTokenCookie.
  destruct (faults w1) as [| [|] script];
    cbn [with_faults refreshTokens];
    try destruct (existsb _ (refreshTokens w1));
    cbn; do 3 eexists; (split; [reflexivity|]); split; reflexivity.
Qed.

(** A registration stops at the lookup of its address. *)
Lemma arrive_register ext env req email w :
  Req.body_email req = Some email ->
  exists p,
    arrive (register ext env req) w = (mkThread p Res.fresh, w)
    /\ Checking (JS.toLowerCase email) p.
Proof.
  intros He. unfold arrive, register, asyncHandler, Admin_findOne_email. rewrite He.
  cbn [bind try_catch perform settle is_round_trip].
  eexists. split; [reflexivity|]. split; [reflexivity|].
  intros w1 r1. cbn [step exec]. unfold round_trip.
  assert (Hcreate : forall w2 : World,
    exists p' w' r',
      settle
        (try_catch
           (bind
              (Admin_create ext (Req.body_name req) (Some email) (Req.body_password req)
                 (match Req.body_role req with Some role => role | None => "admin" end))
              (fun admin =>
                 accessToken <- generateAccessToken ext env admin ;;
                 refreshToken <- generateRefreshToken ext env admin ;;
                 setRefreshTokenCookie env refreshToken ;;
                 perform (ResStatus 201) ;;
                 perform (ResJson (mkBody true "Admin registered successfully"
                                     (Some admin) (Some accessToken))) ;;
                 Ret Sent))
           (fun err => Ret (NextError err))) w2 r1 = (p', w', r')
      /\ admins w' = admins w2
      /\ (Enrolling (JS.toLowerCase email) p' \/ exists e, p' = Ret (NextError e))).
  { intros w2. unfold Admin_create. cbn [option_map].
    destruct (validate_admin ext _ _ _ _) as [| m failed].
    2:{ destruct (option_map JS.trim (Req.body_name req));
          cbn; do 3 eexists; (split; [reflexivity|]); (split; [reflexivity|]);
          right; eexists; reflexivity. }
    destruct (option_map JS.trim (Req.body_name req)) as [n|].
    2:{ cbn. do 3 eexists. split; [reflexivity|]. split; [reflexivity|].
        right. eexists. reflexivity. }
    cbn [bind try_catch perform settle is_round_trip].
    do 3 eexists. split; [reflexivity|]. split; [reflexivity|].
    left. split; [reflexivity|].
    intros w3 r3. cbn [step exec]. unfold round_trip.
    cbn [pre_save isModified existsb AdminPath_eqb orb negb Admin.with_password Admin.email].
    assert (Hinsert : forall w4 : World,
      admins w4 = admins w3 ->
      exists p' w' r',
        (let '(x, w5, r5) :=
           ((if existsb (fun a => String.eqb (Admin.email a) (JS.toLowerCase email)) (admins w4)
             then (inl DuplicateKeyError, w4)
             else
               (inr (Admin.mk (nextId w4) n (JS.toLowerCase email)
                       (option_map (bcrypt_hash ext) (Req.body_password req))
                       (match Req.body_role req with Some role => role | None => "admin" end)
                       true None None None (clock w4) (clock w4)),
                with_nextId (S (nextId w4))
                  (with_admins
                     (admins w4
                      ++ [Admin.mk (nextId w4) n (JS.toLowerCase email)
                            (option_map (bcrypt_hash ext) (Req.body_password req))
                            (match Req.body_role req with
                             | Some role => role | None => "admin" end)
                            true None None None (clock w4) (clock w4)]) w4))), r3) in
         settle
           (try_catch
              (bind match x with inl e => Throw e | inr v => Ret v end
                 (fun admin =>
                    accessToken <- generateAccessToken ext env admin ;;
                    refreshToken <- generateRefreshToken ext env admin ;;
                    setRefreshTokenCookie env refreshToken ;;
                    perform (ResStatus 201) ;;
                    perform (ResJson (mkBody true "Admin registered successfully"
                                        (Some admin) (Some accessToken))) ;;
                    Ret Sent))
              (fun err => Ret (NextError err))) w5 r5) = (p', w', r')
        /\ ((admins w' = admins w3 /\ exists e, p' = Ret (NextError e))
            \/ (~ taken (JS.toLowerCase email) (admins w3)
                /\ (exists stored,
                      admins w' = admins w3 ++ [stored]
                      /\ Admin.email stored = JS.toLowerCase email)
                /\ (Enrolled p' \/ exists e, p' = Ret (NextError e))))).
    { intros w4 Ha.
      destruct (existsb _ (admins w4)) eqn:Hdup.
      - cbn. do 3 eexists. split; [reflexivity|]. left. split; [exact Ha|].
        eexists. reflexivity.
      - cbn [bind try_catch].
        match goal with
        | |- context [settle (try_catch _ _) ?w5 r3] =>
            destruct (settle_enrolled ext env
                        (Admin.mk (nextId w4) n (JS.toLowerCase email)
                           (option_map (bcrypt_hash ext) (Req.body_password req))
                           (match Req.body_role req with
                            | Some role => role | None => "admin" end)
                           true None None None (clock w4) (clock w4)) w5 r3)
              as (p' & Hp' & Hnext)
        end.
        do 3 eexists. split; [exact Hp'|]. right.
        rewrite Ha in Hdup. split; [apply taken_existsb; exact Hdup|].
        split; [|exact Hnext].
        eexists. cbn [admins with_nextId with_admins]. rewrite Ha.
        split; reflexivity. }
    destruct (faults w3) as [| [|] script].
    - apply Hinsert. reflexivity.
    - cbn. do 3 eexists. split; [reflexivity|]. left. split; [reflexivity|].
      eexists. reflexivity.
    - apply Hinsert. reflexivity. }
  assert (Hlook : forall w2 : World,
    admins w2 = admins w1 ->
    exists p' w' r',
      settle
        (try_catch
           (bind
              match
                (@inr Error _
                   (option_map (project false)
                      (Mongoose.findOne
                         (fun a => String.eqb (Admin.email a) (JS.toLowerCase email))
                         (admins w2))))
              with
              | inl e => Throw e
              | inr v => Ret v
              end
              (fun existingAdmin =>
                 match existingAdmin with
                 | Some _ =>
                     Ret (NextError (AppError "Admin with this email already exists" 400))
                 | None =>
                     admin <- Admin_create ext (Req.body_name req) (Some email)
                                (Req.body_password req)
                                (match Req.body_role req with
                                 | Some role => role | None => "admin" end) ;;
                     accessToken <- generateAccessToken ext env admin ;;
                     refreshToken <- generateRefreshToken ext env admin ;;
                     setRefreshTokenCookie env refreshToken ;;
                     perform (ResStatus 201) ;;
                     perform (ResJson (mkBody true "Admin registered successfully"
                                         (Some admin) (Some accessToken))) ;;
                     Ret Sent
                 end))
           (fun err => Ret (NextError err))) w2 r1 = (p', w', r')
      /\ admins w' = admins w1
      /\ (Enrolling (JS.toLowerCase email) p' \/ exists e, p' = Ret (NextError e))).
  { intros w2 Ha.
    destruct (Mongoose.findOne _ (admins w2)) as [existing|]; cbn [option_map bind try_catch].
    - cbn. do 3 eexists. split; [reflexivity|]. split; [exact Ha|].
      right. eexists. reflexivity.
    - destruct (Hcreate w2) as (p' & w' & r' & Hp' & Hw' & Hnext).
      exists p', w', r'. split; [exact Hp'|]. split; [congruence | exact Hnext]. }
  destruct (faults w1) as [| [|] script].
  - apply Hlook. reflexivity.
  - cbn. do 3 eexists. split; [reflexivity|]. split; [reflexivity|].
    right. eexists. reflexivity.
  - apply Hlook. reflexivity.
Qed.

Lemma not_enrolled_ended e : ~ enrolled EEnded (Ret (NextError e)).
Proof. intros [H | [_ H]]; discriminate. Qed.

Lemma taken_stored address accounts stored :
  Admin.email stored = address -> taken address (accounts ++ [stored]).
Proof.
  intros <-. unfold taken. rewrite map_app. apply in_or_app. right. left. reflexivity.
Qed.

(** One turn of a registration moves it to its next phase, and never
    lets it store its account when the other registration has
    ([other]). *)
Lemma turn_enrol address ph t w (other : Prop) :
  at_enrolment address ph (prog t) ->
  (enrolled ph (prog t) \/ other -> taken address (admins w)) ->
  ~ (enrolled ph (prog t) /\ other) ->
  exists ph',
    at_enrolment address ph' (prog (fst (turn t w)))
    /\ (enrolled ph' (prog (fst (turn t w))) \/ other ->
        taken address (admins (snd (turn t w))))
    /\ ~ (enrolled ph' (prog (fst (turn t w))) /\ other).
Proof.
  intros Hph Htaken Hexcl. unfold turn.
  destruct ph; cbn [at_enrolment] in Hph.
  - (* the lookup *)
    destruct Hph as [_ Hstep].
    destruct (Hstep w (res t)) as (p' & w' & r' & -> & Hsame & Hnext).
    cbn [fst snd prog]. rewrite Hsame.
    destruct Hnext as [Hnext | [e ->]].
    + exists EEnrolling. split; [exact Hnext|]. split.
      * unfold enrolled. intros [[H | [H _]] | H]; try discriminate. auto.
      * unfold enrolled. intros [[H | [H _]] _]; discriminate.
    + exists EEnded. split; [reflexivity|]. split.
      * intros [H | H]; [destruct (not_enrolled_ended e H) | auto].
      * intros [H _]. exact (not_enrolled_ended e H).
  - (* the insert of the account *)
    destruct Hph as [_ Hstep].
    destruct (Hstep w (res t)) as (p' & w' & r' & -> & Hnext).
    cbn [fst snd prog].
    destruct Hnext as [[Hsame [e ->]] | (Hfree & (stored & Hrows & Hmail) & Hnext)].
    + rewrite Hsame. exists EEnded. split; [reflexivity|]. split.
      * intros [H | H]; [destruct (not_enrolled_ended e H) | auto].
      * intros [H _]. exact (not_enrolled_ended e H).
    + assert (Hother : ~ other) by (intros H; apply Hfree; auto).
      rewrite Hrows.
      destruct Hnext as [Hnext | [e ->]].
      * exists EEnrolled. split; [exact Hnext|]. split.
        -- intros _. apply taken_stored. exact Hmail.
        -- intros [_ H]. exact (Hother H).
      * exists EEnded. split; [reflexivity|]. split.
        -- intros _. apply taken_stored. exact Hmail.
        -- intros [_ H]. exact (Hother H).
  - (* the insert of the ledger row *)
    destruct Hph as [_ Hstep].
    destruct (Hstep w (res t)) as (p' & w' & r' & -> & Hsame & Hfin).
    cbn [fst snd prog]. rewrite Hsame.
    assert (Hmine : enrolled EEnrolled (prog t)) by (left; reflexivity).
    exists EEnded. split; [exact Hfin|]. split.
    + intros _. auto.
    + intros [_ H]. apply Hexcl. auto.
  - (* ended *)
    destruct t as [p r]. cbn [prog res] in *.
    destruct p as [e | e | X eff k]; [| |discriminate];
      cbn [step fst snd prog]; exists EEnded; auto.
Qed.

Lemma interleave_enrol address schedule :
  forall a b w pa pb,
    Enrol address pa pb a b w ->
    exists pa' pb',
      Enrol address pa' pb'
        (fst (fst (interleave schedule a b w)))
        (snd (fst (interleave schedule a b w)))
        (snd (interleave schedule a b w)).
Proof.
  induction schedule as [| [| | ms] rest IH]; intros a b w pa pb Hrace;
    cbn [interleave].
  - exists pa, pb. exact Hrace.
  - destruct Hrace as (Ha & Hb & Htaken & Hexcl).
    destruct (turn_enrol address pa a w (enrolled pb (prog b)) Ha Htaken Hexcl)
      as (pa' & Ha' & Htaken' & Hexcl').
    destruct (turn a w) as [a' w']. cbn [fst snd] in *.
    apply (IH a' b w' pa' pb). unfold Enrol. auto.
  - destruct Hrace as (Ha & Hb & Htaken & Hexcl).
    destruct (turn_enrol address pb b w (enrolled pa (prog a)) Hb)
      as (pb' & Hb' & Htaken' & Hexcl').
    { intros [H | H]; apply Htaken; auto. }
    { intros [H1 H2]. apply Hexcl. auto. }
    destruct (turn b w) as [b' w']. cbn [fst snd] in *.
    apply (IH a b' w' pa pb'). unfold Enrol.
    split; [exact Ha|]. split; [exact Hb'|]. split.
    + intros [H | H]; apply Htaken'; auto.
    + intros [H1 H2]. apply Hexcl'. auto.
  - apply (IH a b (with_clock (clock w + ms) w) pa pb). exact Hrace.
Qed.

Lemma answered_enrolled address ph t :
  at_enrolment address ph (prog t) ->
  outcome t = Some (inr Sent) ->
  enrolled ph (prog t).
Proof.
  unfold outcome. intros Hph Hout.
  destruct (prog t) as [e | e | X eff k] eqn:Hp; try discriminate.
  injection Hout as ->.
  destruct ph; cbn [at_enrolment] in Hph;
    [apply proj1 in Hph; discriminate ..| right; auto].
Qed.

(** Two registrations of one address (up to the case of its letters),
    served at the same time: in whatever order and at whatever pace the
    store answers them, and whatever its outages, they are never both
    answered "Admin registered successfully", although both may have
    found the address free; and when one is, an account holds the
    address. *)
Theorem one_address_one_registration ext env first second e1 e2 w schedule :
  Req.body_email first = Some e1 ->
  Req.body_email second = Some e2 ->
  JS.toLowerCase e1 = JS.toLowerCase e2 ->
  let '(a, b, w') :=
    concurrently schedule (register ext env first) (register ext env second) w in
  ~ (outcome a = Some (inr Sent) /\ outcome b = Some (inr Sent))
  /\ (outcome a = Some (inr Sent) \/ outcome b = Some (inr Sent) ->
      In (JS.toLowerCase e1) (List.map Admin.email (admins w'))).
Proof.
  intros Hfirst Hsecond Hsame. unfold concurrently.
  destruct (arrive_register ext env first e1 w Hfirst) as (pa & -> & Ha).
  destruct (arrive_register ext env second e2 w Hsecond) as (pb & -> & Hb).
  rewrite <- Hsame in Hb.
  destruct (interleave_enrol (JS.toLowerCase e1) schedule
              (mkThread pa Res.fresh) (mkThread pb Res.fresh) w EChecking EChecking)
    as (pha & phb & Hrace).
  { unfold Enrol, enrolled. cbn [prog at_enrolment].
    split; [exact Ha|]. split; [exact Hb|]. split.
    - intros [[H | [H _]] | [H | [H _]]]; discriminate.
    - intros [[H | [H _]] _]; discriminate. }
  destruct (interleave schedule _ _ w) as [[a b] w']. cbn [fst snd] in Hrace.
  destruct Hrace as (Ha' & Hb' & Htaken & Hexcl).
  split.
  - intros [Hsa Hsb]. apply Hexcl. split.
    + exact (answered_enrolled _ pha a Ha' Hsa).
    + exact (answered_enrolled _ phb b Hb' Hsb).
  - intros Hsent. apply Htaken.
    destruct Hsent as [H | H];
      [left; exact (answered_enrolled _ pha a Ha' H)
      | right; exact (answered_enrolled _ phb b Hb' H)].
Qed.

(** Two registrations of Carol's address, in two spellings: both find it
    free, the first stores its account, and the second is refused by the
    unique index. *)
Lemma one_address_one_registration_witness :
  let second :=
    Req.mk None None None (Some "Carol") (Some "Carol@X.com") (Some "hunter22") None
      None None None in
  let '(a, b, w') :=
    concurrently [First; Second; First; Second; First; Second]
      (register Fixture.ext Fixture.env Fixture.carol)
      (register Fixture.ext Fixture.env second) Fixture.world in
  ~ (outcome a = Some (inr Sent) /\ outcome b = Some (inr Sent))
  /\ (outcome a = Some (inr Sent) \/ outcome b = Some (inr Sent) ->
      In "carol@x.com" (List.map Admin.email (admins w'))).
Proof.
  exact (one_address_one_registration Fixture.ext Fixture.env Fixture.carol
           (Req.mk None None None (Some "Carol") (Some "Carol@X.com") (Some "hunter22") None
              None None None)
           "carol@x.com" "Carol@X.com" Fixture.world
           [First; Second; First; Second; First; Second] eq_refl eq_refl eq_refl).
Defined.

(* ================================================================== *)
(** ** The origins the server answers *)
(* ================================================================== *)

Lemma split_free sep u :
  JS.includes sep u = false -> Cors.split sep u = [u].
Proof.
  induction u as [| c u IH]; cbn [JS.includes Cors.split]; [reflexivity|].
  rewrite (Ascii.eqb_sym c sep).
  destruct (Ascii.eqb sep c); [discriminate|]. intros H. rewrite (IH H). reflexivity.
Qed.

Lemma split_app sep u rest :
  JS.includes sep u = false ->
  Cors.split sep (String.append u (String sep rest)) = u :: Cors.split sep rest.
Proof.
  induction u as [| c u IH]; cbn [JS.includes Cors.split String.append].
  - rewrite Ascii.eqb_refl. reflexivity.
  - rewrite (Ascii.eqb_sym c sep).
    destruct (Ascii.eqb sep c); [discriminate|]. intros H. rewrite (IH H). reflexivity.
Qed.

(** What is joined with commas is split into the same pieces. *)
Lemma split_concat written :
  written <> [] ->
  Forall (fun u => JS.includes "," u = false) written ->
  Cors.split "," (String.concat "," written) = written.
Proof.
  induction written as [| u rest IH]; [congruence|]. intros _ Hfree.
  inversion Hfree as [| ? ? Hu Hrest]; subst.
  destruct rest as [| v rest].
  - cbn [String.concat]. apply split_free. exact Hu.
  - change (String.concat "," (u :: v :: rest))
      with (String.append u (String "," (String.concat "," (v :: rest)))).
    rewrite (split_app _ _ _ Hu), IH; [reflexivity | discriminate | exact Hrest].
Qed.

(** The whitelist written into [FRONTEND_URLS] is the whitelist that is
    enforced: for entries that hold no comma, joined with commas into a
    value that is not empty, an origin sent by a browser is answered
    exactly when it is one of the entries with the blanks around it
    removed -- letter for letter -- whatever [FRONTEND_URL] says; every
    other origin is refused with "CORS policy: This origin is not
    allowed".  A request that names no origin is always answered. *)
Theorem listed_origins_are_answered written single o :
  Forall (fun u => JS.includes "," u = false) written ->
  String.concat "," written <> EmptyString ->
  o <> EmptyString ->
  let env := Cors.mkOrigins (Some (String.concat "," written)) single in
  (Cors.origin env (Some o) = inr true <-> In o (List.map JS.trim written))
  /\ (~ In o (List.map JS.trim written) ->
      Cors.origin env (Some o)
      = inl (mkError "Error" "CORS policy: This origin is not allowed" None None))
  /\ Cors.origin env None = inr true
  /\ Cors.origin env (Some EmptyString) = inr true.
Proof.
  intros Hfree Hset Ho env.
  assert (Hwritten : written <> []) by (intros ->; apply Hset; reflexivity).
  assert (Hto : JS.truthy (String.concat "," written) = true).
  { unfold JS.truthy. apply negb_true_iff, String.eqb_neq. exact Hset. }
  assert (Ho' : JS.truthy o = true).
  { unfold JS.truthy. apply negb_true_iff, String.eqb_neq. exact Ho. }
  assert (Hlist : List.existsb (String.eqb o) (Cors.frontendUrls env) = true
                  <-> In o (List.map JS.trim written)).
  { unfold Cors.frontendUrls, env. cbn [Cors.FRONTEND_URLS]. rewrite Hto.
    rewrite (split_concat written Hwritten Hfree). split.
    - intros H. apply existsb_exists in H as (u & Hin & Hu).
      apply String.eqb_eq in Hu. subst u. apply filter_In in Hin. exact (proj1 Hin).
    - intros Hin. apply existsb_exists. exists o. split; [|apply String.eqb_refl].
      apply filter_In. auto. }
  unfold Cors.origin. rewrite Ho'. cbn [negb].
  split; [|split; [|split; reflexivity]].
  - destruct (existsb _ _).
    + split; [intros _; apply Hlist; reflexivity | reflexivity].
    + split; [discriminate | intros H; apply Hlist in H; discriminate].
  - intros Hnot. destruct (existsb _ _); [|reflexivity].
    exfalso. apply Hnot, Hlist. reflexivity.
Qed.

(** Two origins with blanks and an empty entry between them; the address
    in [FRONTEND_URL] is not on the list. *)
Lemma listed_origins_are_answered_witness :
  let env :=
    Cors.mkOrigins (Some "https://a.example , ,https://b.example")
      (Some "https://c.example") in
  Cors.frontendUrls env = ["https://a.example"; "https://b.example"]
  /\ (Cors.origin env (Some "https://b.example") = inr true
      <-> In "https://b.example" ["https://a.example"; ""; "https://b.example"])
  /\ Cors.origin env (Some "https://c.example")
     = inl (mkError "Error" "CORS policy: This origin is not allowed" None None).
Proof.
  intros env. split; [reflexivity|].
  pose proof (listed_origins_are_answered
                ["https://a.example "; " "; "https://b.example"] (Some "https://c.example"))
    as H.
  split.
  - apply (H "https://b.example"); [repeat constructor | discriminate | discriminate].
  - apply (H "https://c.example"); [repeat constructor | discriminate | discriminate |].
    cbn. intuition discriminate.
Defined.
